(** * Laser-power log combiner: extraction, merge, export and plotting

    A shallow embedding of [20250916_laserpower_combiner_plotting.py].
    The script reads calibration logs, pulls the "Result table values"
    block out of each one, groups the tables by the wavelength found in
    the file name, outer-joins every group on [power_percentage_values],
    and writes one sheet and one chart per wavelength.

    Files are lists of lines (what [readlines] returns), Python
    exceptions are values of [exn], and the file-system effects of the
    export and plot stages are the lists of artefacts they write.  The
    pandas calls are embedded by what they do to a table of cells:
    [pd.DataFrame], [rename], [pd.merge(how="outer")],
    [drop_duplicates], [sort_values].  Numbers are integers; the grammar
    of numeric literals accepted by [pd.to_numeric] is a parameter of
    the extractor. *)

From Stdlib Require Import List String Ascii ZArith Bool Arith Lia.
From Stdlib Require Import Sorted OrderedTypeEx.
Import ListNotations.

Local Open Scope string_scope.
Local Open Scope list_scope.
Local Open Scope nat_scope.

(* ================================================================== *)
(** ** Exceptions and results *)

(** One constructor per place where the script, or a library call it
    makes, raises. *)
Inductive exn : Type :=
| MarkerNotFound        (* ValueError("No 'Result table values' found in ...") *)
| HeaderIndexError      (* lines[start_idx] past the end of the file *)
| ColumnCountError (passed had : nat)
                        (* pd.DataFrame: "<passed> columns passed, passed data had <had> columns" *)
| KeyColumnMissing      (* KeyError: 'power_percentage_values' *)
| KeyColumnNotUnique    (* ValueError: the column label is not unique *)
| MergeDtypeError       (* ValueError: merging a numeric key column with a text one *)
| MergeSuffixError      (* MergeError: the _x/_y suffixes produce duplicate columns *)
| SortTypeError         (* TypeError: '<' between str and int *)
| NoneAttributeError    (* AttributeError: 'NoneType' object has no attribute 'columns' *)
| IntValueError (s : string)
                        (* ValueError: invalid literal for int() *)
| ListIndexError        (* IndexError: list index out of range, at [...][0] *)
| AbsTypeError          (* TypeError: bad operand type for abs(): 'str' *)
| ErrorbarTypeError     (* TypeError: plt.errorbar adding the error to a text value *)
| NoVisibleSheetError   (* IndexError: At least one sheet must be visible *).

Inductive result (A : Type) : Type :=
| Ok (a : A)
| Raise (e : exn).
Arguments Ok {A} a.
Arguments Raise {A} e.

Definition bind {A B : Type} (r : result A) (k : A -> result B) : result B :=
  match r with
  | Ok a => k a
  | Raise e => Raise e
  end.

Notation "x <- r ;; k" := (bind r (fun x => k))
  (at level 61, r at next level, right associativity).

(* ================================================================== *)
(** ** Python string operations *)

(** Strings are sequences of ASCII characters: blanks and letter case are
    those of the ASCII range. *)
Module Py.

(** [str.isspace] on the ASCII range: tab, line feed, vertical tab, form
    feed, carriage return, the four separators 28..31, and the blank. *)
Definition is_space (c : ascii) : bool :=
  let n := nat_of_ascii c in
  ((9 <=? n) && (n <=? 13)) || ((28 <=? n) && (n <=? 32)).

Fixpoint lstrip (s : string) : string :=
  match s with
  | EmptyString => EmptyString
  | String c r => if is_space c then lstrip r else s
  end.

(** Removes the trailing run of blanks: a blank is kept exactly when
    something that is not blank follows it. *)
Fixpoint rstrip (s : string) : string :=
  match s with
  | EmptyString => EmptyString
  | String c r =>
      match rstrip r with
      | EmptyString => if is_space c then EmptyString else String c EmptyString
      | r' => String c r'
      end
  end.

Definition strip (s : string) : string := rstrip (lstrip s).

Definition lower_char (c : ascii) : ascii :=
  let n := nat_of_ascii c in
  if (65 <=? n) && (n <=? 90) then ascii_of_nat (n + 32) else c.

Fixpoint lower (s : string) : string :=
  match s with
  | EmptyString => EmptyString
  | String c r => String (lower_char c) (lower r)
  end.

Definition startswith (s p : string) : bool := String.prefix p s.

(** [sub in s] *)
Fixpoint contains (sub s : string) : bool :=
  String.prefix sub s ||
  match s with
  | EmptyString => false
  | String _ r => contains sub r
  end.

(** [s.split(sep)] for a one-character separator: never the empty list. *)
Fixpoint split (sep : ascii) (s : string) : list string :=
  match s with
  | EmptyString => [EmptyString]
  | String c r =>
      if Ascii.eqb c sep then EmptyString :: split sep r
      else match split sep r with
           | [] => [String c EmptyString]
           | h :: t => String c h :: t
           end
  end.

(** [s.split(sep)[0]] *)
Definition split_head (sep : ascii) (s : string) : string :=
  hd EmptyString (split sep s).

Definition is_digit (c : ascii) : bool :=
  let n := nat_of_ascii c in (48 <=? n) && (n <=? 57).

Definition digit_val (c : ascii) : Z := Z.of_nat (nat_of_ascii c - 48).

(** The digits of an [int] literal, most significant first.  One
    underscore may sit between two digits; [after_digit] tells whether
    the previous character was a digit. *)
Fixpoint int_digits (s : string) (after_digit : bool) (acc : Z) : option Z :=
  match s with
  | EmptyString => if after_digit then Some acc else None
  | String c r =>
      if is_digit c then int_digits r true (10 * acc + digit_val c)
      else if Ascii.eqb c "_" && after_digit then
             match r with
             | String d _ => if is_digit d then int_digits r false acc else None
             | EmptyString => None
             end
           else None
  end.

(** [int(s)]: surrounding blanks, an optional sign, decimal digits. *)
Definition int (s : string) : result Z :=
  let t := strip s in
  let parsed :=
    match t with
    | String "+" r => int_digits r false 0
    | String "-" r => option_map Z.opp (int_digits r false 0)
    | _ => int_digits t false 0
    end in
  match parsed with
  | Some z => Ok z
  | None => Raise (IntValueError s)
  end.

End Py.

(* ================================================================== *)
(** ** Tables *)

(** A cell holds a number, a text, or nothing: [NA] stands for both
    [None] and [NaN], which pandas treats alike when it joins,
    deduplicates and sorts. *)
Inductive cell : Type :=
| Num (z : Z)
| Txt (s : string)
| NA.

Record DataFrame : Type := mkDF {
  columns : list string;
  rows : list (list cell)
}.

(** [df.empty]: some axis has length zero. *)
Definition empty (df : DataFrame) : bool :=
  match columns df, rows df with
  | [], _ => true
  | _, [] => true
  | _, _ => false
  end.

Definition key_name : string := "power_percentage_values".

(* ================================================================== *)
(** ** Table Extractor: [read_power_instruction_table] *)

Definition marker : string := "Result table values".

(** The first loop: [start_idx] is one past the first line holding the
    marker; [None] when the loop ends without a [break]. *)
Fixpoint find_start (lines : list string) (i : nat) : option nat :=
  match lines with
  | [] => None
  | line :: rest =>
      if Py.contains marker line then Some (i + 1)
      else find_start rest (S i)
  end.

(** The second loop, over [lines[start_idx+1:]]. *)
Fixpoint collect_rows (lines : list string) : list (list string) :=
  match lines with
  | [] => []
  | line :: rest =>
      if Py.startswith (Py.lower (Py.strip line)) "time" then []
      else if String.eqb (Py.strip line) "" then []
      else Py.split ";" (Py.strip line) :: collect_rows rest
  end.

Definition max_width (data : list (list string)) : nat :=
  fold_right (fun r m => Nat.max (List.length r) m) 0 data.

Definition pad_row (k : nat) (r : list string) : list cell :=
  map Txt r ++ repeat NA (k - List.length r).

(** [pd.DataFrame(data, columns=header)] on a list of lists: short rows
    are filled with [None] up to the longest one, and the longest one
    has to be as wide as the header.  No rows at all give the empty
    table with the header's columns. *)
Definition make_frame (data : list (list string)) (header : list string)
  : result DataFrame :=
  match data with
  | [] => Ok (mkDF header [])
  | _ =>
      let k := max_width data in
      if k =? List.length header then Ok (mkDF header (map (pad_row k) data))
      else Raise (ColumnCountError (List.length header) k)
  end.

(** [df.rename(columns={"power_instruction": "power_percentage_values"})] *)
Definition rename_instruction (df : DataFrame) : DataFrame :=
  mkDF (map (fun c => if String.eqb c "power_instruction" then key_name else c)
            (columns df))
       (rows df).

Definition column_at (j : nat) (rs : list (list cell)) : list cell :=
  map (fun r => nth j r NA) rs.

Fixpoint traverse {A B : Type} (f : A -> option B) (l : list A) : option (list B) :=
  match l with
  | [] => Some []
  | a :: r =>
      match f a, traverse f r with
      | Some b, Some bs => Some (b :: bs)
      | _, _ => None
      end
  end.

Section Extractor.

(** The literals [pd.to_numeric] reads: [None] when the string is not
    one (the call raises), [Some None] for the literals of a missing
    value, [Some (Some z)] for a number. *)
Variable to_number : string -> option (option Z).

Definition numeric_cell (c : cell) : option cell :=
  match c with
  | Txt s =>
      match to_number s with
      | Some (Some z) => Some (Num z)
      | Some None => Some NA
      | None => None
      end
  | other => Some other
  end.

(** Whether [df[col] = pd.to_numeric(df[col])] goes through for the
    column at position [j]: its label selects a single column (a label
    borne by several columns selects a table, and [to_numeric] raises
    the [TypeError] that the loop swallows) and every cell is a literal. *)
Definition coercible (df : DataFrame) (j : nat) : bool :=
  match nth_error (columns df) j with
  | None => false
  | Some c =>
      (count_occ string_dec (columns df) c =? 1)
      && match traverse numeric_cell (column_at j (rows df)) with
         | Some _ => true
         | None => false
         end
  end.

Definition coerce_row (flags : list bool) (r : list cell) : list cell :=
  map (fun fc : bool * cell =>
         if fst fc then match numeric_cell (snd fc) with
                        | Some c => c
                        | None => snd fc
                        end
         else snd fc)
      (combine flags r).

(** The closing loop over [df.columns]. *)
Definition coerce_columns (df : DataFrame) : DataFrame :=
  let flags := map (coercible df) (seq 0 (List.length (columns df))) in
  mkDF (columns df) (map (coerce_row flags) (rows df)).

Definition read_power_instruction_table (lines : list string) : result DataFrame :=
  match find_start lines 0 with
  | None => Raise MarkerNotFound
  | Some start_idx =>
      match nth_error lines start_idx with
      | None => Raise HeaderIndexError
      | Some header_line =>
          let header := Py.split ";" (Py.strip header_line) in
          let data := collect_rows (skipn (start_idx + 1) lines) in
          df <- make_frame data header ;;
          Ok (coerce_columns (rename_instruction df))
      end
  end.

End Extractor.

(* ================================================================== *)
(** ** Keys: equality and order of cells *)

Definition cell_eqb (a b : cell) : bool :=
  match a, b with
  | Num x, Num y => Z.eqb x y
  | Txt s, Txt t => String.eqb s t
  | NA, NA => true
  | _, _ => false
  end.

(** Ascending order: numbers by value, texts by code points, a missing
    value after everything ([na_position="last"]).  Numbers come before
    texts where the join orders a key column that holds both. *)
Definition cell_leb (a b : cell) : bool :=
  match a, b with
  | Num x, Num y => Z.leb x y
  | Num _, _ => true
  | Txt _, Num _ => false
  | Txt s, Txt t => String.leb s t
  | Txt _, NA => true
  | NA, NA => true
  | NA, _ => false
  end.

Definition cell_ltb (a b : cell) : bool := cell_leb a b && negb (cell_eqb a b).

Definition is_txt (c : cell) : bool := match c with Txt _ => true | _ => false end.
Definition is_num (c : cell) : bool := match c with Num _ => true | _ => false end.

Definition key_of (k : nat) (r : list cell) : cell := nth k r NA.

Definition key_column (k : nat) (rs : list (list cell)) : list cell :=
  map (key_of k) rs.

Definition has_key (k : nat) (c : cell) (r : list cell) : bool :=
  cell_eqb (key_of k r) c.

(** Position of the [power_percentage_values] column: looking the label
    up raises when no column bears it, and when several do. *)
Fixpoint index_of (name : string) (cols : list string) : nat :=
  match cols with
  | [] => 0
  | c :: r => if String.eqb c name then 0 else S (index_of name r)
  end.

Definition key_index (cols : list string) : result nat :=
  match count_occ string_dec cols key_name with
  | 0 => Raise KeyColumnMissing
  | 1 => Ok (index_of key_name cols)
  | _ => Raise KeyColumnNotUnique
  end.

(* ================================================================== *)
(** ** Sorting and deduplication *)

Section InsertionSort.
Context {A : Type} (leb : A -> A -> bool).

Fixpoint insert_sorted (x : A) (l : list A) : list A :=
  match l with
  | [] => [x]
  | h :: t => if leb x h then x :: l else h :: insert_sorted x t
  end.

(** Stable: of two elements that compare equal, the one that came first
    stays first. *)
Definition sort_by (l : list A) : list A := fold_right insert_sorted [] l.

End InsertionSort.
Arguments sort_by : simpl never.

(** [drop_duplicates(subset=[key])], [keep="first"]: a row goes away when
    an earlier row has its key.  [seen] holds the keys met so far. *)
Fixpoint drop_duplicates_from (k : nat) (seen : list cell) (rs : list (list cell))
  : list (list cell) :=
  match rs with
  | [] => []
  | r :: rest =>
      if existsb (cell_eqb (key_of k r)) seen then drop_duplicates_from k seen rest
      else r :: drop_duplicates_from k (key_of k r :: seen) rest
  end.

Definition drop_duplicates (k : nat) (rs : list (list cell)) : list (list cell) :=
  drop_duplicates_from k [] rs.

Fixpoint unique_from (seen : list cell) (l : list cell) : list cell :=
  match l with
  | [] => []
  | c :: rest =>
      if existsb (cell_eqb c) seen then unique_from seen rest
      else c :: unique_from (c :: seen) rest
  end.

Definition unique (l : list cell) : list cell := unique_from [] l.

(** Ordering a column that holds both numbers and texts compares a
    [str] with an [int]. *)
Definition sortable (col : list cell) : bool :=
  negb (existsb is_num col && existsb is_txt col).

(** The order by which [sort_values] arranges rows. *)
Definition row_leb (k : nat) (r1 r2 : list cell) : bool :=
  cell_leb (key_of k r1) (key_of k r2).

(** [sort_values("power_percentage_values")] *)
Definition sort_values (k : nat) (rs : list (list cell)) : result (list (list cell)) :=
  if sortable (key_column k rs)
  then Ok (sort_by (row_leb k) rs)
  else Raise SortTypeError.

(* ================================================================== *)
(** ** Group Merger: [combine_group] *)

(** [df.rename(columns=rename_dict)], where [rename_dict] sends every
    label other than the key to [f"{date}_{c}"]. *)
Definition prefixed (date c : string) : string := date ++ "_" ++ c.

Definition rename_with_date (date : string) (df : DataFrame) : DataFrame :=
  mkDF (map (fun c => if String.eqb c key_name then c else prefixed date c)
            (columns df))
       (rows df).

Definition drop_at (k : nat) (r : list cell) : list cell :=
  firstn k r ++ skipn (S k) r.

(** The left half of a joined row for a key only the right table has:
    nothing but the key. *)
Definition na_row_with_key (w k : nat) (c : cell) : list cell :=
  repeat NA k ++ c :: repeat NA (w - S k).

(** The rows of a full outer join on the key: the keys of both tables in
    ascending order, and for each key every pairing of a left row with a
    right row, left rows outermost; a key one side lacks gets that side
    filled with missing values. *)
Definition join_rows (kl kr wl wr : nat) (L R : list (list cell)) : list (list cell) :=
  let keys := sort_by cell_leb (unique (key_column kl L ++ key_column kr R)) in
  flat_map
    (fun c =>
       let ls := filter (has_key kl c) L in
       let rs := filter (has_key kr c) R in
       match ls, rs with
       | [], _ => map (fun r => na_row_with_key wl kl c ++ drop_at kr r) rs
       | _, [] => map (fun l => l ++ repeat NA (wr - 1)) ls
       | _, _ => flat_map (fun l => map (fun r => l ++ drop_at kr r) rs) ls
       end)
    keys.

(** A key column is numeric when [to_numeric] went through (no text in
    it) and text when it holds texts and no number. *)
Definition numeric_keys (col : list cell) : bool := negb (existsb is_txt col).
Definition text_keys (col : list cell) : bool :=
  existsb is_txt col && negb (existsb is_num col).

Definition dtype_clash (lcol rcol : list cell) : bool :=
  match lcol, rcol with
  | [], _ => false
  | _, [] => false
  | _, _ => (numeric_keys lcol && text_keys rcol)
            || (text_keys lcol && numeric_keys rcol)
  end.

(** Labels both sides bear get [_x] on the left and [_y] on the right. *)
Definition add_suffix (overlap : list string) (suffix : string) (c : string) : string :=
  if in_dec string_dec c overlap then c ++ suffix else c.

(** Labels repeated after the suffixes were added that were not repeated
    before. *)
Fixpoint new_duplicates (before after seen_before seen_after : list string) : list string :=
  match before, after with
  | b :: bs, a :: as_ =>
      let rest := new_duplicates bs as_ (b :: seen_before) (a :: seen_after) in
      if in_dec string_dec a seen_after
      then if in_dec string_dec b seen_before then rest else a :: rest
      else rest
  | _, _ => []
  end.

(** [pd.merge(left, right, on="power_percentage_values", how="outer")] *)
Definition merge_outer (left right : DataFrame) : result DataFrame :=
  kr <- key_index (columns right) ;;
  kl <- key_index (columns left) ;;
  if dtype_clash (key_column kl (rows left)) (key_column kr (rows right))
  then Raise MergeDtypeError
  else
    let rcols := firstn kr (columns right) ++ skipn (S kr) (columns right) in
    let overlap := filter (fun c => if in_dec string_dec c rcols then true else false)
                          (columns left) in
    let llabels := map (add_suffix overlap "_x") (columns left) in
    let rlabels := map (add_suffix overlap "_y") rcols in
    match new_duplicates (columns left) llabels [] []
          ++ new_duplicates rcols rlabels [] [] with
    | _ :: _ => Raise MergeSuffixError
    | [] =>
        Ok (mkDF (llabels ++ rlabels)
                 (join_rows kl kr (List.length (columns left))
                            (List.length (columns right))
                            (rows left) (rows right)))
    end.

(** One turn of the loop over [dfs_dict.items()]. *)
Definition combine_step (combined : option DataFrame) (item : string * DataFrame)
  : result (option DataFrame) :=
  let date := Py.split_head "_" (fst item) in
  let df_renamed := rename_with_date date (snd item) in
  match combined with
  | None => Ok (Some df_renamed)
  | Some c => m <- merge_outer c df_renamed ;; Ok (Some m)
  end.

Fixpoint join_loop (items : list (string * DataFrame)) (combined : option DataFrame)
  : result (option DataFrame) :=
  match items with
  | [] => Ok combined
  | item :: rest => c <- combine_step combined item ;; join_loop rest c
  end.

(** [combined.drop_duplicates(subset=[key]).sort_values(key)] *)
Definition dedup_sort (combined : DataFrame) : result DataFrame :=
  k <- key_index (columns combined) ;;
  rs <- sort_values k (drop_duplicates k (rows combined)) ;;
  Ok (mkDF (columns combined) rs).

Definition combine_group (dfs_dict : list (string * DataFrame)) (wavelength : string)
  : result (option DataFrame) :=
  combined <- join_loop dfs_dict None ;;
  match combined with
  | None => Ok None
  | Some c => d <- dedup_sort c ;; Ok (Some d)
  end.

(* ================================================================== *)
(** ** Dictionaries *)

(** A Python [dict] with string keys: insertion order, one entry per key;
    assigning to a key that is there keeps its place. *)
Definition dict (V : Type) : Type := list (string * V).

Fixpoint dict_get {V : Type} (k : string) (d : dict V) : option V :=
  match d with
  | [] => None
  | (k', v) :: r => if String.eqb k' k then Some v else dict_get k r
  end.

Fixpoint dict_set {V : Type} (k : string) (v : V) (d : dict V) : dict V :=
  match d with
  | [] => [(k, v)]
  | (k', v') :: r =>
      if String.eqb k' k then (k', v) :: r else (k', v') :: dict_set k v r
  end.

Definition dict_keys {V : Type} (d : dict V) : list string := map fst d.

Fixpoint for_each {A B : Type} (f : A -> result B) (l : list A) : result (list B) :=
  match l with
  | [] => Ok []
  | a :: r => b <- f a ;; bs <- for_each f r ;; Ok (b :: bs)
  end.

(** [sorted(keys, key=lambda x: int(x))]: every key with its number, the
    pairs ordered by the number. *)
Definition tag_leb (a b : Z * string) : bool := Z.leb (fst a) (fst b).

Definition sorted_by_int (keys : list string) : result (list string) :=
  tagged <- for_each (fun k => z <- Py.int k ;; Ok (z, k)) keys ;;
  Ok (map snd (sort_by tag_leb tagged)).

(* ================================================================== *)
(** ** Exporter *)

Inductive message : Type :=
| NoCsvFilesFound
| ExportedAllWavelengths
| NoDataToExport
| OpenpyxlNotInstalled
| SavedCsv (file : string)
| SavedPlot (wl file : string).

Record export_out : Type := mkExport {
  sheets : list (string * DataFrame);     (* sheet name, table: the workbook *)
  csv_files : list (string * DataFrame);  (* file name, table *)
  export_console : list message
}.


(** The body shared by the two export loops: the tables to write, under
    the name [name wl], for the groups in [order]. *)
Fixpoint tables_to_write (name : string -> string)
         (combined_all : dict (option DataFrame)) (order : list string)
  : list (string * DataFrame) :=
  match order with
  | [] => []
  | wl :: rest =>
      match dict_get wl combined_all with
      | Some (Some df) =>
          if negb (empty df)
          then (name wl, df) :: tables_to_write name combined_all rest
          else tables_to_write name combined_all rest
      | _ => tables_to_write name combined_all rest
      end
  end.

Definition sheet_name (wl : string) : string := wl ++ "nm".
Definition csv_name (wl : string) : string := "combined_" ++ wl ++ "nm.csv".

(** The [try]/[except ImportError] block of [main]; [has_openpyxl] says
    whether [import openpyxl] goes through.  Leaving the [with] block
    saves the workbook, and [openpyxl] refuses to save one without a
    sheet: when the loop has written none, the [IndexError] it raises is
    not caught by [except ImportError] and the line after the block is
    not printed. *)
Definition export_results (has_openpyxl : bool) (combined_all : dict (option DataFrame))
  : result export_out :=
  if has_openpyxl then
    match combined_all with
    | [] => Ok (mkExport [] [] [NoDataToExport])
    | _ =>
        order <- sorted_by_int (dict_keys combined_all) ;;
        match tables_to_write sheet_name combined_all order with
        | [] => Raise NoVisibleSheetError
        | written => Ok (mkExport written [] [ExportedAllWavelengths])
        end
    end
  else
    order <- sorted_by_int (dict_keys combined_all) ;;
    let files := tables_to_write csv_name combined_all order in
    Ok (mkExport [] files
                 (OpenpyxlNotInstalled :: map (fun f => SavedCsv (fst f)) files)).

(* ================================================================== *)
(** ** Plotter: [plot_wavelength_data] *)

(** What one figure holds when it is saved: the file, the title, and the
    series handed to [errorbar] in drawing order, each with its legend
    label and the two columns it reads. *)
Record series : Type := mkSeries {
  series_label : string;
  power_col : string;
  error_col : string
}.

Record chart : Type := mkChart {
  chart_wl : string;
  chart_file : string;
  chart_title : string;
  chart_series : list series
}.

(** The loop that fills [month_map]. *)
Fixpoint month_map_loop (cols : list string) (month_map : dict Z) : result (dict Z) :=
  match cols with
  | [] => Ok month_map
  | col :: rest =>
      if String.eqb col key_name then month_map_loop rest month_map
      else if Py.contains "_power" col then
        let month := Py.split_head "_" col in
        month_num <- Py.int (Py.split_head "-" month) ;;
        month_map_loop rest (dict_set month month_num month_map)
      else month_map_loop rest month_map
  end.

(** [[c for c in df.columns if c.startswith(month) and tag in c][0]] *)
Definition first_column (month tag : string) (cols : list string) : result string :=
  match filter (fun c => Py.startswith c month && Py.contains tag c) cols with
  | [] => Raise ListIndexError
  | c :: _ => Ok c
  end.

(** The cells [df[name]] selects: those of every column bearing the label. *)
Definition cells_of (name : string) (df : DataFrame) : list cell :=
  flat_map (fun jc : nat * string =>
              if String.eqb (snd jc) name then column_at (fst jc) (rows df) else [])
           (combine (seq 0 (List.length (columns df))) (columns df)).

(** One [plt.errorbar] call.  Its arguments are evaluated first:
    [df["power_percentage_values"]] has to be there, and [.abs()] fails
    on a text.  The call itself then adds the errors to the values
    [df[power_col]], which fails on a text. *)
Definition draw_series (df : DataFrame) (month : string) : result series :=
  p <- first_column month "_power" (columns df) ;;
  e <- first_column month "_error" (columns df) ;;
  if negb (existsb (String.eqb key_name) (columns df)) then Raise KeyColumnMissing
  else if existsb is_txt (cells_of e df) then Raise AbsTypeError
  else if existsb is_txt (cells_of p df) then Raise ErrorbarTypeError
  else Ok (mkSeries month p e).

Definition plot_file (wl : string) : string := "laser_power_" ++ wl ++ "nm.png".

(** The body of the loop over [combined_all.items()]. *)
Definition plot_one (wl : string) (df : option DataFrame) : result chart :=
  match df with
  | None => Raise NoneAttributeError
  | Some d =>
      month_map <- month_map_loop (columns d) [] ;;
      let months :=
        map fst (sort_by (fun a b : string * Z => Z.leb (snd a) (snd b)) month_map) in
      drawn <- for_each (draw_series d) months ;;
      Ok (mkChart wl (plot_file wl) ("Laser Power Calibration - " ++ wl ++ "nm") drawn)
  end.

(** The charts saved, in order, and the exception that ended the loop,
    if one did. *)
Fixpoint plot_wavelength_data (combined_all : dict (option DataFrame))
  : list chart * option exn :=
  match combined_all with
  | [] => ([], None)
  | (wl, df) :: rest =>
      match plot_one wl df with
      | Raise e => ([], Some e)
      | Ok c => let (cs, e) := plot_wavelength_data rest in (c :: cs, e)
      end
  end.

(* ================================================================== *)
(** ** Main workflow *)

(** [re.search(r"_(\d+)\.csv", fname)]: the digits of the leftmost match. *)
Fixpoint span_digits (s : string) : string * string :=
  match s with
  | EmptyString => (EmptyString, EmptyString)
  | String c r =>
      if Py.is_digit c then let (ds, rest) := span_digits r in (String c ds, rest)
      else (EmptyString, s)
  end.

Fixpoint search_wavelength (fname : string) : option string :=
  match fname with
  | EmptyString => None
  | String c r =>
      if Ascii.eqb c "_" then
        let (ds, rest) := span_digits r in
        if negb (String.eqb ds "") && String.prefix ".csv" rest then Some ds
        else search_wavelength r
      else search_wavelength r
  end.

(** [grouped.setdefault(wl, {})[fname] = df] *)
Definition group_add (wl fname : string) (df : DataFrame)
           (grouped : dict (dict DataFrame)) : dict (dict DataFrame) :=
  match dict_get wl grouped with
  | None => dict_set wl [(fname, df)] grouped
  | Some inner => dict_set wl (dict_set fname df inner) grouped
  end.

Fixpoint group_loop (dfs : dict DataFrame) (grouped : dict (dict DataFrame))
  : dict (dict DataFrame) :=
  match dfs with
  | [] => grouped
  | (fname, df) :: rest =>
      match search_wavelength fname with
      | Some wl => group_loop rest (group_add wl fname df grouped)
      | None => group_loop rest grouped
      end
  end.

(** What a run leaves behind. *)
Record run : Type := mkRun {
  run_sheets : list (string * DataFrame);
  run_csv_files : list (string * DataFrame);
  run_charts : list chart;
  run_console : list message;
  run_raised : option exn
}.

Definition aborted (e : exn) : run := mkRun [] [] [] [] (Some e).

Section Main.

Variable to_number : string -> option (option Z).

(** [{os.path.basename(file): read_power_instruction_table(file) for file in files}];
    a file is its base name and its lines. *)
Fixpoint load_all (files : list (string * list string)) (dfs : dict DataFrame)
  : result (dict DataFrame) :=
  match files with
  | [] => Ok dfs
  | (fname, lines) :: rest =>
      df <- read_power_instruction_table to_number lines ;;
      load_all rest (dict_set fname df dfs)
  end.

(** [{wl: combine_group(dfs_dict, wl) for wl, dfs_dict in grouped.items()}] *)
Definition combine_all (grouped : dict (dict DataFrame))
  : result (dict (option DataFrame)) :=
  for_each (fun g : string * dict DataFrame =>
              c <- combine_group (snd g) (fst g) ;; Ok (fst g, c))
           grouped.

Definition main (has_openpyxl : bool) (files : list (string * list string)) : run :=
  match files with
  | [] => mkRun [] [] [] [NoCsvFilesFound] None
  | _ =>
      match (dfs <- load_all files [] ;; combine_all (group_loop dfs [])) with
      | Raise e => aborted e
      | Ok combined_all =>
          match export_results has_openpyxl combined_all with
          | Raise e => aborted e
          | Ok out =>
              let (charts, raised) := plot_wavelength_data combined_all in
              mkRun (sheets out) (csv_files out) charts
                    (export_console out
                     ++ map (fun c => SavedPlot (chart_wl c) (chart_file c)) charts)
                    raised
          end
      end
  end.

End Main.

(** The blanks that the number parser of [pd.to_numeric] skips. *)
Definition is_blank (c : ascii) : bool :=
  let n := nat_of_ascii c in (n =? 32) || ((9 <=? n) && (n <=? 13)).

Fixpoint skip_blanks (s : string) : string :=
  match s with
  | String c r => if is_blank c then skip_blanks r else s
  | EmptyString => s
  end.

(** The value of a run of digits that only blanks follow; [seen] tells
    whether a digit has been read. *)
Fixpoint digits_value (s : string) (seen : bool) (acc : Z) : option Z :=
  match s with
  | EmptyString => if seen then Some acc else None
  | String c r =>
      if Py.is_digit c then digits_value r true (acc * 10 + Py.digit_val c)%Z
      else if seen then
             match skip_blanks s with
             | EmptyString => Some acc
             | _ => None
             end
           else None
  end.

(** The integer literals of [pd.to_numeric], to run the extractor with:
    the empty string is a missing value; a number is a run of decimal
    digits, with a sign before it if any, and blanks around the whole if
    any.  An underscore between digits is refused.  Fields with a
    fraction, an exponent, [nan] or [inf] denote no integer: logs that
    hold such fields are outside this instance, and every theorem on the
    extractor is stated for an arbitrary grammar instead. *)
Definition int_literal (s : string) : option (option Z) :=
  match s with
  | EmptyString => Some None
  | _ =>
      match skip_blanks s with
      | String "-" r => option_map (fun z => Some (Z.opp z)) (digits_value r false 0)
      | String "+" r => option_map Some (digits_value r false 0)
      | r => option_map Some (digits_value r false 0)
      end
  end.

(* ================================================================== *)
(** ** Vocabulary of the statements *)

(** [sub] occurs somewhere in [s]. *)
Definition occurs_in (sub s : string) : Prop :=
  exists a b : string, s = (a ++ sub ++ b)%string.

(** A line at which the second loop stops. *)
Definition terminal (line : string) : Prop :=
  Py.startswith (Py.lower (Py.strip line)) "time" = true \/ Py.strip line = "".

(** A data line: neither blank nor a sentinel. *)
Definition data_line (line : string) : Prop :=
  Py.startswith (Py.lower (Py.strip line)) "time" = false /\ Py.strip line <> "".

Definition fields (line : string) : list string := Py.split ";" (Py.strip line).

(** The position of the key column of a table, and its cells from top
    to bottom. *)
Definition key_position (df : DataFrame) : nat := index_of key_name (columns df).

Definition table_keys (df : DataFrame) : list cell :=
  key_column (key_position df) (rows df).

(** The rows of a table that have a given key, and the first of them. *)
Definition rows_with_key (c : cell) (df : DataFrame) : list (list cell) :=
  filter (has_key (key_position df) c) (rows df).

Definition first_with_key (c : cell) (df : DataFrame) : option (list cell) :=
  find (has_key (key_position df) c) (rows df).

(** Strictly ascending keys. *)
Definition cell_lt (a b : cell) : Prop := cell_ltb a b = true.

Definition ascending (keys : list cell) : Prop := StronglySorted cell_lt keys.

(** A table as pandas holds it: every row as wide as the header. *)
Definition rectangular (df : DataFrame) : Prop :=
  Forall (fun r => List.length r = List.length (columns df)) (rows df).

(** The key label is borne by exactly one column. *)
Definition has_one_key (df : DataFrame) : Prop :=
  count_occ string_dec (columns df) key_name = 1.

(** Number of columns of the join of a group: the first table whole,
    every later table without its key column.  The columns that come
    from the table at position [i] of the group are those from
    [joined_width (firstn i g)] up to, not including,
    [joined_width (firstn (S i) g)]. *)
Definition joined_width (g : list (string * DataFrame)) : nat :=
  match g with
  | [] => 0
  | first :: rest =>
      List.length (columns (snd first))
      + list_sum (map (fun it => List.length (columns (snd it)) - 1) rest)
  end.

(** The renaming [combine_group] applies to the labels of the table read
    from [fname]. *)
Definition renamed_label (fname c : string) : string :=
  if String.eqb c key_name then c else prefixed (Py.split_head "_" fname) c.

(** The three kinds of row a full outer join makes. *)
Inductive joined_row (kl kr wl wr : nat) (L R : list (list cell)) (row : list cell) : Prop :=
| matched (l r : list cell) :
    In l L -> In r R -> key_of kl l = key_of kr r ->
    row = l ++ drop_at kr r -> joined_row kl kr wl wr L R row
| left_only (l : list cell) :
    In l L -> (forall r, In r R -> key_of kr r <> key_of kl l) ->
    row = l ++ repeat NA (wr - 1) -> joined_row kl kr wl wr L R row
| right_only (r : list cell) :
    In r R -> (forall l, In l L -> key_of kl l <> key_of kr r) ->
    row = na_row_with_key wl kl (key_of kr r) ++ drop_at kr r ->
    joined_row kl kr wl wr L R row.

(** What holds of the table [J] joined from the group [g]: its key
    column has not moved, it is as wide as the join of the group, its
    keys are those of the group's tables, and a row whose key a table
    lacks is empty in the columns that table brought. *)
Definition join_invariant (g : list (string * DataFrame)) (J : DataFrame) : Prop :=
  let k := key_position J in
  k < List.length (columns J)
  /\ List.length (columns J) = joined_width g
  /\ Forall (fun row => List.length row = joined_width g) (rows J)
  /\ (forall c, In c (table_keys J) <->
                exists it, In it g /\ In c (table_keys (snd it)))
  /\ (forall i it row p,
         nth_error g i = Some it ->
         In row (rows J) ->
         ~ In (key_of k row) (table_keys (snd it)) ->
         joined_width (firstn i g) <= p < joined_width (firstn (S i) g) ->
         p <> k ->
         nth_error row p = Some NA).

(** A group key as [main] makes them: what [(\d+)] matched. *)
Fixpoint all_digits (s : string) : bool :=
  match s with
  | EmptyString => true
  | String c r => Py.is_digit c && all_digits r
  end.

Definition wavelength_key (s : string) : Prop :=
  s <> EmptyString /\ all_digits s = true.

(** The number by which the export orders a group key. *)
Definition wavelength_value (wl : string) : Z :=
  match Py.int wl with
  | Ok z => z
  | Raise _ => 0%Z
  end.

(** A dictionary, or the list of input files of a run, without the
    entries named [k]. *)
Definition without_key {V : Type} (k : string) (d : list (string * V))
  : list (string * V) :=
  filter (fun e => negb (String.eqb (fst e) k)) d.

(** Everything of [main] before the export. *)
Definition combined_of (to_number : string -> option (option Z))
           (files : list (string * list string)) : result (dict (option DataFrame)) :=
  dfs <- load_all to_number files [] ;; combine_all (group_loop dfs []).

Definition parses (to_number : string -> option (option Z)) (lines : list string) : Prop :=
  exists df, read_power_instruction_table to_number lines = Ok df.


(** A log as the instrument writes it: a preamble, the marker line, the
    header, the data lines, a blank line and what follows; every line
    ends with a line feed. *)
Definition nl : string := String (ascii_of_nat 10) EmptyString.

Definition example_log (data : list string) : list string :=
  map (fun l => (l ++ nl)%string)
      (["Laser log"; "Result table values"; "power_instruction;power;error"]
         ++ data ++ [""; "time;stamp"]).

(** Four files of one folder: a scan at 488 nm that recorded no row, two
    scans at 532 nm, and a file whose name holds no wavelength. *)
Definition example_files : list (string * list string) :=
  [("07-25_scan_488.csv", example_log []);
   ("07-25_scan_532.csv", example_log ["10;5;1"; "20;9;-1"]);
   ("08-10_scan_532.csv", example_log ["20;8;1"; "30;12;1"]);
   ("notes.csv", example_log ["1;2;3"])].

(** Two scans at one wavelength, with keys 1, 2, 3 and 2, 3, 4, and
    their merge. *)
Definition example_group : list (string * DataFrame) :=
  [("07-25_scan_488.csv",
    mkDF ["power_percentage_values"; "power"; "error"]
         [[Num 1; Num 11; Num 1]; [Num 2; Num 12; Num 1]; [Num 3; Num 13; Num 1]]);
   ("08-10_scan_488.csv",
    mkDF ["power_percentage_values"; "power"; "error"]
         [[Num 2; Num 22; Num 2]; [Num 3; Num 23; Num 2]; [Num 4; Num 24; Num 2]])].

Definition example_merged : DataFrame :=
  mkDF ["power_percentage_values"; "07-25_power"; "07-25_error";
        "08-10_power"; "08-10_error"]
       [[Num 1; Num 11; Num 1; NA; NA];
        [Num 2; Num 12; Num 1; Num 22; Num 2];
        [Num 3; Num 13; Num 1; Num 23; Num 2];
        [Num 4; NA; NA; Num 24; Num 2]].

(** A scan that recorded the key 10 twice, out of order, joined with a
    second scan. *)
Definition repeated_group : list (string * DataFrame) :=
  [("07-25_scan_488.csv",
    mkDF ["power_percentage_values"; "power"; "error"]
         [[Num 20; Num 9; Num 1]; [Num 10; Num 5; Num 1]; [Num 10; Num 6; Num 2]]);
   ("08-10_scan_488.csv",
    mkDF ["power_percentage_values"; "power"; "error"]
         [[Num 10; Num 7; Num 1]])].

Definition repeated_merged : DataFrame :=
  mkDF ["power_percentage_values"; "07-25_power"; "07-25_error";
        "08-10_power"; "08-10_error"]
       [[Num 10; Num 5; Num 1; Num 7; Num 1];
        [Num 20; Num 9; Num 1; NA; NA]].

(** Merged tables by wavelength, as [main] hands them to the export:
    one with data, one without a row, and a group without a table. *)
Definition example_combined : dict (option DataFrame) :=
  [("532", Some example_merged);
   ("488", Some (mkDF ["power_percentage_values"; "07-25_power"; "07-25_error"] []));
   ("1064", None);
   ("0405", Some repeated_merged)].

(** The table [combine_group] joins for an entry of the group. *)
Definition renamed (it : string * DataFrame) : DataFrame :=
  rename_with_date (Py.split_head "_" (fst it)) (snd it).

(** The labels of a table other than the key. *)
Definition value_labels (df : DataFrame) : list string :=
  filter (fun c => negb (String.eqb c key_name)) (columns df).

(** A group as the extractor and the file names of a folder make them
    when the instruction column is numeric: tables with the key column,
    kept by the renaming, numbers or nothing for keys, and no label
    borne twice once the dates are prefixed. *)
Definition numeric_group (g : list (string * DataFrame)) : Prop :=
  Forall (fun it => has_one_key (snd it) /\ rectangular (snd it)) g
  /\ Forall (fun it => has_one_key (renamed it)) g
  /\ Forall (fun it => Forall (fun c => is_txt c = false) (table_keys (snd it))) g
  /\ NoDup (flat_map (fun it => value_labels (renamed it)) g).

(** The header's fields as the labels of the returned table. *)
Definition header_labels (h : string) : list string :=
  map (fun c => if String.eqb c "power_instruction" then key_name else c) (fields h).

(** The table [pd.DataFrame] builds from the collected rows, before any
    cell is coerced. *)
Definition raw_rows (h : string) (body : list string) : list (list cell) :=
  map (pad_row (List.length (fields h))) (collect_rows body).

(** The labels of the join of a group whose labels do not clash: those
    of the first table, then the value labels of the others. *)
Definition joined_labels (g : list (string * DataFrame)) : list string :=
  match g with
  | [] => []
  | first :: rest =>
      columns (renamed first) ++ flat_map (fun it => value_labels (renamed it)) rest
  end.

(** Two scans of which neither recorded a row. *)
Definition blank_group : list (string * DataFrame) :=
  [("07-25_scan_488.csv", mkDF ["power_percentage_values"; "power"; "error"] []);
   ("08-10_scan_488.csv", mkDF ["power_percentage_values"; "power"; "error"] [])].

(** The number by which the plot orders a series: [int] of the label up
    to its first hyphen. *)
Definition month_value (label : string) : Z :=
  match Py.int (Py.split_head "-" label) with
  | Ok z => z
  | Raise _ => 0%Z
  end.

(** The label a column gives rise to in a chart: the column is not the
    key, holds [_power], and the label is its text up to the first
    underscore. *)
Definition power_label (col label : string) : Prop :=
  col <> key_name /\ Py.contains "_power" col = true
  /\ label = Py.split_head "_" col.

(** The file name carries the wavelength [wl]. *)
Definition carries (wl fname : string) : bool :=
  match search_wavelength fname with
  | Some w => String.eqb w wl
  | None => false
  end.

(* ================================================================== *)
(** * Properties of the extractor *)

Lemma prefix_iff (p s : string) :
  String.prefix p s = true <-> exists r, s = (p ++ r)%string.
Proof.
  revert s; induction p as [|c p IH]; intros s.
  - destruct s; simpl; split; eauto.
  - destruct s as [|d s]; simpl.
    + split; [discriminate | intros [r Hr]; discriminate].
    + destruct (ascii_dec c d) as [->|Hne].
      * rewrite IH. split; intros [r Hr]; exists r; congruence.
      * split; [discriminate | intros [r Hr]; congruence].
Qed.

Lemma contains_nil (sub : string) :
  Py.contains sub EmptyString = String.prefix sub EmptyString.
Proof. destruct sub; reflexivity. Qed.

Lemma contains_cons (sub : string) (c : ascii) (s : string) :
  Py.contains sub (String c s) = String.prefix sub (String c s) || Py.contains sub s.
Proof. reflexivity. Qed.

Lemma contains_iff (sub s : string) :
  Py.contains sub s = true <-> occurs_in sub s.
Proof.
  unfold occurs_in.
  induction s as [|c s IH].
  - rewrite contains_nil, prefix_iff. split.
    + intros [r Hr]. exists EmptyString, r. exact Hr.
    + intros [a [b Hab]]. destruct a; simpl in Hab.
      * exists b. exact Hab.
      * discriminate.
  - rewrite contains_cons, orb_true_iff, prefix_iff, IH. split.
    + intros [[r Hr] | [a [b Hab]]].
      * exists EmptyString, r. exact Hr.
      * exists (String c a), b. simpl. now rewrite Hab.
    + intros [a [b Hab]]. destruct a as [|d a]; simpl in Hab.
      * left. exists b. exact Hab.
      * right. exists a, b. congruence.
Qed.

Lemma find_start_none (lines : list string) (i : nat) :
  find_start lines i = None <->
  forall line, In line lines -> Py.contains marker line = false.
Proof.
  revert i; induction lines as [|l ls IH]; intros i; simpl.
  - split; [intros _ ? [] | reflexivity].
  - destruct (Py.contains marker l) eqn:E.
    + split; [discriminate|]. intros H. rewrite (H l (or_introl eq_refl)) in E.
      discriminate.
    + rewrite IH. split.
      * intros H line [<-|Hin]; auto.
      * intros H line Hin. apply H. now right.
Qed.

(** Where the first loop stops in a file laid out as: lines without the
    marker, a line with it, the rest. *)
Lemma find_start_app (pre : list string) (m : string) (rest : list string) (i : nat) :
  (forall line, In line pre -> Py.contains marker line = false) ->
  Py.contains marker m = true ->
  find_start (pre ++ m :: rest) i = Some (i + List.length pre + 1).
Proof.
  revert i; induction pre as [|l ls IH]; intros i Hpre Hm; simpl.
  - rewrite Hm. f_equal. lia.
  - rewrite (Hpre l (or_introl eq_refl)).
    rewrite IH; [f_equal; lia | | exact Hm].
    intros line Hin. apply Hpre. now right.
Qed.

Lemma make_frame_not_marker data header :
  make_frame data header <> Raise MarkerNotFound.
Proof.
  unfold make_frame. destruct data; [discriminate|].
  destruct (_ =? _); discriminate.
Qed.

Lemma collect_rows_app (data rest : list string) :
  Forall data_line data ->
  (rest = [] \/ exists t rest', rest = t :: rest' /\ terminal t) ->
  collect_rows (data ++ rest) = map fields data.
Proof.
  intros Hd Hrest. induction Hd as [|l ls [Ht Hb] _ IH]; cbn [app map collect_rows].
  - destruct Hrest as [->|[t [rest' [-> [Ht|Hb]]]]]; cbn [collect_rows]; auto.
    + now rewrite Ht.
    + now rewrite Hb.
  - rewrite Ht. apply String.eqb_neq in Hb. rewrite Hb. now rewrite IH.
Qed.

Lemma max_width_le (data : list (list string)) (r : list string) :
  In r data -> List.length r <= max_width data.
Proof.
  induction data as [|d ds IH]; simpl; [intros []|].
  intros [->|Hin]; [lia|]. specialize (IH Hin). lia.
Qed.

Lemma max_width_const (data : list (list string)) (n : nat) :
  data <> [] -> Forall (fun r => List.length r = n) data -> max_width data = n.
Proof.
  intros Hne H. induction H as [|d ds Hd Hds IH]; [congruence|].
  simpl. destruct ds as [|d' ds'].
  - simpl. lia.
  - rewrite IH by discriminate. lia.
Qed.

Lemma coerce_row_length to_number flags (r : list cell) :
  List.length flags = List.length r ->
  List.length (coerce_row to_number flags r) = List.length r.
Proof.
  intros H. unfold coerce_row.
  rewrite length_map, length_combine. lia.
Qed.

Lemma pad_row_length k (r : list string) :
  List.length r <= k -> List.length (pad_row k r) = k.
Proof.
  intros H. unfold pad_row. rewrite length_app, length_map, repeat_length. lia.
Qed.

Lemma not_contains_iff (sub s : string) :
  Py.contains sub s = false <-> ~ occurs_in sub s.
Proof.
  rewrite <- contains_iff. destruct (Py.contains sub s); split; congruence.
Qed.

(** What the header and the data are in a file laid out as: lines
    without the marker, the marker line, the header line, the rest. *)
Lemma read_layout to_number (pre : list string) (m h : string) (body : list string) :
  (forall line, In line pre -> ~ occurs_in marker line) ->
  occurs_in marker m ->
  read_power_instruction_table to_number (pre ++ m :: h :: body)
  = (df <- make_frame (collect_rows body) (fields h) ;;
     Ok (coerce_columns to_number (rename_instruction df))).
Proof.
  intros Hpre Hm. unfold read_power_instruction_table.
  rewrite (find_start_app pre m (h :: body) 0).
  - cbn [Nat.add].
    replace (List.length pre + 1) with (List.length pre + 1 + 0) at 1 by lia.
    rewrite nth_error_app2 by lia.
    replace (List.length pre + 1 + 0 - List.length pre) with 1 by lia.
    cbn [nth_error].
    replace (List.length pre + 1 + 1) with (List.length pre + 2) by lia.
    rewrite skipn_app.
    rewrite skipn_all2 by lia.
    replace (List.length pre + 2 - List.length pre) with 2 by lia.
    reflexivity.
  - intros line Hin. apply not_contains_iff. now apply Hpre.
  - now apply contains_iff.
Qed.

Lemma coerce_columns_shape to_number (df : DataFrame) (n : nat) :
  List.length (columns df) = n ->
  Forall (fun r => List.length r = n) (rows df) ->
  let out := coerce_columns to_number df in
  columns out = columns df
  /\ List.length (rows out) = List.length (rows df)
  /\ Forall (fun r => List.length r = n) (rows out).
Proof.
  intros Hc Hr. cbn. repeat split.
  - now rewrite length_map.
  - rewrite Forall_map. eapply Forall_impl; [|exact Hr].
    intros r Hlen. cbn in Hlen |- *. rewrite coerce_row_length; [exact Hlen|].
    rewrite length_map, length_seq. congruence.
Qed.

Lemma make_frame_ok (data : list (list string)) (header : list string) :
  Forall (fun r => List.length r = List.length header) data ->
  make_frame data header
  = Ok (mkDF header (map (pad_row (List.length header)) data)).
Proof.
  intros H. unfold make_frame. destruct data as [|d ds]; [reflexivity|].
  rewrite (max_width_const _ (List.length header)); [|discriminate|exact H].
  now rewrite Nat.eqb_refl.
Qed.

(** C6 [read_power_instruction_table] raises its own "No 'Result table
    values' found" error exactly when the marker phrase occurs on no line
    of the file; with the marker on some line that error is not raised. *)
Theorem marker_not_found_iff (to_number : string -> option (option Z))
        (lines : list string) :
  read_power_instruction_table to_number lines = Raise MarkerNotFound
  <-> (forall line, In line lines -> ~ occurs_in marker line).
Proof.
  unfold read_power_instruction_table.
  destruct (find_start lines 0) as [start|] eqn:E.
  - split.
    + destruct (nth_error lines start); [|discriminate].
      intros H. exfalso.
      destruct (make_frame _ _) eqn:F; cbn in H; [discriminate|].
      injection H as ->. now apply make_frame_not_marker in F.
    + intros H. exfalso.
      assert (find_start lines 0 = None) as E'.
      { apply find_start_none. intros line Hin. apply not_contains_iff. auto. }
      congruence.
  - split; [|reflexivity]. intros _ line Hin.
    apply not_contains_iff. revert line Hin. now apply find_start_none with (i := 0).
Qed.

(** C7 A file made of lines without the marker, a line with it, a header
    line, N data lines (not blank, not starting with "time" in any
    letter case) each with as many semicolon-separated fields as the
    header, and then either nothing or a blank or "time" line followed by
    anything: the extractor returns a table of exactly N rows, with the
    header's number of columns, every row that wide.  Nothing after the
    first blank or "time" line is collected. *)
Theorem extractor_returns_rows (to_number : string -> option (option Z))
        (pre : list string) (m h : string) (data rest : list string) :
  (forall line, In line pre -> ~ occurs_in marker line) ->
  occurs_in marker m ->
  Forall (fun l => data_line l /\ List.length (fields l) = List.length (fields h)) data ->
  (rest = [] \/ exists t rest', rest = t :: rest' /\ terminal t) ->
  exists df,
    read_power_instruction_table to_number (pre ++ m :: h :: data ++ rest) = Ok df
    /\ List.length (rows df) = List.length data
    /\ List.length (columns df) = List.length (fields h)
    /\ Forall (fun r => List.length r = List.length (fields h)) (rows df).
Proof.
  intros Hpre Hm Hdata Hrest.
  rewrite read_layout by assumption.
  rewrite collect_rows_app; [|eapply Forall_impl; [|exact Hdata]; now intros l [H _]|exact Hrest].
  assert (Forall (fun r => List.length r = List.length (fields h)) (map fields data)) as Hw.
  { rewrite Forall_map. eapply Forall_impl; [|exact Hdata]. now intros l [_ H]. }
  pose proof (make_frame_ok _ _ Hw) as Hmk.
  set (rs := map (pad_row (List.length (fields h))) (map fields data)) in *.
  assert (List.length rs = List.length data) as Hlen.
  { unfold rs. now rewrite !length_map. }
  assert (Forall (fun r => List.length r = List.length (fields h)) rs) as Hrs.
  { unfold rs. rewrite Forall_map. eapply Forall_impl; [|exact Hw].
    intros r Hr. cbn beta in *. apply pad_row_length. lia. }
  rewrite Hmk. cbn [bind].
  destruct (coerce_columns_shape to_number (rename_instruction (mkDF (fields h) rs))
              (List.length (fields h))) as [Hc [Hr Hf]].
  - cbn. now rewrite length_map.
  - exact Hrs.
  - eexists. split; [reflexivity|]. repeat split.
    + rewrite Hr. exact Hlen.
    + rewrite Hc. cbn. now rewrite length_map.
    + exact Hf.
Qed.

(** C10 In a file with the marker line and a header line, when one of
    the collected data rows splits into more fields than the header, the
    extractor raises pandas' column-count error while it builds the
    table, and returns no table: no field is cut off. *)
Theorem extra_fields_raise (to_number : string -> option (option Z))
        (pre : list string) (m h : string) (body : list string) (row : list string) :
  (forall line, In line pre -> ~ occurs_in marker line) ->
  occurs_in marker m ->
  In row (collect_rows body) ->
  List.length (fields h) < List.length row ->
  exists had,
    read_power_instruction_table to_number (pre ++ m :: h :: body)
    = Raise (ColumnCountError (List.length (fields h)) had)
    /\ List.length (fields h) < had.
Proof.
  intros Hpre Hm Hin Hlt.
  rewrite read_layout by assumption.
  pose proof (max_width_le _ _ Hin) as Hmax.
  exists (max_width (collect_rows body)).
  unfold make_frame. destruct (collect_rows body) as [|d ds] eqn:E; [destruct Hin|].
  rewrite <- E in *.
  destruct (max_width (collect_rows body) =? List.length (fields h)) eqn:Q.
  - apply Nat.eqb_eq in Q. lia.
  - cbn [bind]. split; [reflexivity|lia].
Qed.

(* ================================================================== *)
(** * The order of keys *)

Lemma cell_eqb_eq (a b : cell) : cell_eqb a b = true <-> a = b.
Proof.
  destruct a, b; cbn; try (split; [discriminate|congruence|idtac]; fail);
    try (split; congruence).
  - rewrite Z.eqb_eq. split; congruence.
  - rewrite String.eqb_eq. split; congruence.
Qed.

Lemma cell_eqb_refl (a : cell) : cell_eqb a a = true.
Proof. now apply cell_eqb_eq. Qed.

Lemma cell_eqb_neq (a b : cell) : cell_eqb a b = false <-> a <> b.
Proof.
  rewrite <- cell_eqb_eq. destruct (cell_eqb a b); split; congruence.
Qed.

Lemma cell_eqb_sym (a b : cell) : cell_eqb a b = cell_eqb b a.
Proof.
  destruct (cell_eqb a b) eqn:E.
  - apply cell_eqb_eq in E. subst. now rewrite cell_eqb_refl.
  - symmetry. apply cell_eqb_neq. apply cell_eqb_neq in E. congruence.
Qed.

Lemma string_leb_trans (s t u : string) :
  String.leb s t = true -> String.leb t u = true -> String.leb s u = true.
Proof.
  unfold String.leb. intros Hst Htu.
  destruct (String.compare s t) eqn:Est; try discriminate.
  - apply String.compare_eq_iff in Est. now subst.
  - destruct (String.compare t u) eqn:Etu; try discriminate.
    + apply String.compare_eq_iff in Etu. subst. now rewrite Est.
    + apply String_as_OT.cmp_lt in Est, Etu.
      pose proof (String_as_OT.lt_trans _ _ _ Est Etu) as H.
      apply String_as_OT.cmp_lt in H. unfold String_as_OT.cmp in H. now rewrite H.
Qed.

Lemma cell_leb_total (a b : cell) : cell_leb a b = true \/ cell_leb b a = true.
Proof.
  destruct a, b; cbn; auto.
  - destruct (Z.leb_spec z z0); [now left|right]. apply Z.leb_le. lia.
  - apply String.leb_total.
Qed.

Lemma cell_leb_trans (a b c : cell) :
  cell_leb a b = true -> cell_leb b c = true -> cell_leb a c = true.
Proof.
  destruct a, b, c; cbn; try congruence.
  - rewrite !Z.leb_le. lia.
  - apply string_leb_trans.
Qed.

Lemma cell_leb_antisym (a b : cell) :
  cell_leb a b = true -> cell_leb b a = true -> a = b.
Proof.
  destruct a, b; cbn; try congruence.
  - rewrite !Z.leb_le. intros. f_equal. lia.
  - intros H1 H2. f_equal. now apply String.leb_antisym.
Qed.

(** On numbers the order is the order of integers, on texts the
    lexicographic order of their characters. *)
Lemma cell_ltb_num (x y : Z) : cell_ltb (Num x) (Num y) = Z.ltb x y.
Proof.
  unfold cell_ltb. cbn.
  destruct (Z.leb_spec x y), (Z.eqb_spec x y), (Z.ltb_spec x y); cbn; auto; lia.
Qed.

Lemma cell_ltb_txt (s t : string) : cell_ltb (Txt s) (Txt t) = String.ltb s t.
Proof.
  unfold cell_ltb, cell_leb, cell_eqb, String.leb, String.ltb.
  destruct (String.compare s t) eqn:E.
  - apply String.compare_eq_iff in E. subst. now rewrite String.eqb_refl.
  - destruct (String.eqb_spec s t) as [->|]; [|reflexivity].
    assert (String.compare t t = Eq) as H by now apply String_as_OT.cmp_eq.
    congruence.
  - reflexivity.
Qed.

(* ================================================================== *)
(** * Insertion sort *)

Section SortFacts.
Context {A : Type} (leb : A -> A -> bool).
Hypothesis leb_total : forall a b, leb a b = true \/ leb b a = true.
Hypothesis leb_trans : forall a b c, leb a b = true -> leb b c = true -> leb a c = true.

Let le (a b : A) : Prop := leb a b = true.

Lemma insert_sorted_In (x y : A) (l : list A) :
  In y (insert_sorted leb x l) <-> y = x \/ In y l.
Proof.
  induction l as [|h t IH]; cbn.
  - intuition.
  - destruct (leb x h); cbn; [intuition|]. rewrite IH. intuition.
Qed.

Lemma sort_by_nil : sort_by leb [] = [].
Proof. reflexivity. Qed.

Lemma sort_by_cons (x : A) (l : list A) :
  sort_by leb (x :: l) = insert_sorted leb x (sort_by leb l).
Proof. reflexivity. Qed.

Lemma sort_by_In (y : A) (l : list A) : In y (sort_by leb l) <-> In y l.
Proof.
  induction l as [|h t IH]; [reflexivity|].
  rewrite sort_by_cons, insert_sorted_In, IH. cbn. intuition.
Qed.

Lemma insert_sorted_length (x : A) (l : list A) :
  List.length (insert_sorted leb x l) = S (List.length l).
Proof.
  induction l as [|a l IH]; cbn; [reflexivity|].
  destruct (leb x a); cbn; congruence.
Qed.

Lemma sort_by_length (l : list A) : List.length (sort_by leb l) = List.length l.
Proof.
  induction l as [|h t IH]; [reflexivity|].
  rewrite sort_by_cons, insert_sorted_length. cbn. f_equal. exact IH.
Qed.

Lemma insert_sorted_filter (p : A -> bool) (x : A) (l : list A) :
  p x = false -> filter p (insert_sorted leb x l) = filter p l.
Proof.
  intros Hx. induction l as [|h t IH]; cbn.
  - now rewrite Hx.
  - destruct (leb x h); cbn.
    + now rewrite Hx.
    + now rewrite IH.
Qed.

Lemma insert_sorted_filter_none (p : A -> bool) (x : A) (l : list A) :
  p x = true -> filter p l = [] -> filter p (insert_sorted leb x l) = [x].
Proof.
  intros Hx. induction l as [|h t IH]; cbn.
  - now rewrite Hx.
  - destruct (p h) eqn:Hh; [discriminate|]. intros Hn.
    destruct (leb x h); cbn.
    + now rewrite Hx, Hh, Hn.
    + rewrite Hh. now apply IH.
Qed.

(** A property that singles out one element of a list singles out the
    same element after sorting. *)
Lemma sort_by_filter_single (p : A -> bool) (l : list A) (r : A) :
  filter p l = [r] -> filter p (sort_by leb l) = [r].
Proof.
  revert r. induction l as [|h t IH]; intros r; [discriminate|].
  rewrite sort_by_cons. cbn [filter].
  destruct (p h) eqn:Hh.
  - intros E. injection E as <- Ht.
    apply insert_sorted_filter_none; [exact Hh|].
    destruct (filter p (sort_by leb t)) as [|y ys] eqn:F; [reflexivity|].
    assert (In y (filter p t)) as Hy.
    { apply filter_In. assert (In y (filter p (sort_by leb t))) as G by (rewrite F; now left).
      apply filter_In in G. destruct G as [G1 G2]. split; [|exact G2].
      now apply sort_by_In. }
    rewrite Ht in Hy. destruct Hy.
  - intros E. rewrite insert_sorted_filter; auto.
Qed.

Lemma insert_sorted_sorted (x : A) (l : list A) :
  StronglySorted le l -> StronglySorted le (insert_sorted leb x l).
Proof.
  induction 1 as [|h t Ht IH Hh]; cbn.
  - repeat constructor.
  - destruct (leb x h) eqn:E.
    + constructor; [now constructor|]. constructor; [exact E|].
      eapply Forall_impl; [|exact Hh]. intros a Ha. eapply leb_trans; eauto.
    + constructor; [exact IH|]. apply Forall_forall. intros y Hy.
      apply insert_sorted_In in Hy. destruct Hy as [->|Hy].
      * destruct (leb_total x h) as [H|H]; [congruence|exact H].
      * rewrite Forall_forall in Hh. now apply Hh.
Qed.

Lemma sort_by_sorted (l : list A) : StronglySorted le (sort_by leb l).
Proof.
  induction l as [|h t IH]; [constructor|].
  rewrite sort_by_cons. now apply insert_sorted_sorted.
Qed.

Lemma insert_sorted_map_NoDup {B : Type} (f : A -> B) (x : A) (l : list A) :
  NoDup (map f (x :: l)) -> NoDup (map f (insert_sorted leb x l)).
Proof.
  induction l as [|h t IH]; cbn; [auto|].
  destruct (leb x h); cbn; [auto|].
  intros H. inversion H as [|? ? Hx Hr]; subst. inversion Hr as [|? ? Hh Ht]; subst.
  constructor.
  - intros Hin. apply in_map_iff in Hin. destruct Hin as [y [Hy Hin]].
    apply insert_sorted_In in Hin. destruct Hin as [->|Hin].
    + apply Hx. left. congruence.
    + apply Hh. rewrite <- Hy. now apply in_map.
  - apply IH. cbn. constructor; [|exact Ht]. intros Hin. apply Hx. now right.
Qed.

Lemma sort_by_map_NoDup {B : Type} (f : A -> B) (l : list A) :
  NoDup (map f l) -> NoDup (map f (sort_by leb l)).
Proof.
  induction l as [|h t IH]; [auto|]. intros H.
  rewrite sort_by_cons.
  apply insert_sorted_map_NoDup. cbn in H |- *. inversion H as [|? ? Hx Hr]; subst.
  constructor; [|now apply IH].
  intros Hin. apply Hx. apply in_map_iff in Hin. destruct Hin as [y [Hy Hin]].
  rewrite sort_by_In in Hin. rewrite <- Hy. now apply in_map.
Qed.

End SortFacts.

(* ================================================================== *)
(** * Deduplication and the final sort *)

Lemma existsb_cell_In (c : cell) (seen : list cell) :
  existsb (cell_eqb c) seen = true <-> In c seen.
Proof.
  rewrite existsb_exists. split.
  - intros [x [Hin Heq]]. apply cell_eqb_eq in Heq. now subst.
  - intros Hin. exists c. split; [exact Hin|apply cell_eqb_refl].
Qed.

Lemma existsb_cell_not_In (c : cell) (seen : list cell) :
  existsb (cell_eqb c) seen = false <-> ~ In c seen.
Proof.
  rewrite <- existsb_cell_In. destruct (existsb _ _); split; congruence.
Qed.

Lemma has_key_true (k : nat) (c : cell) (r : list cell) :
  has_key k c r = true <-> key_of k r = c.
Proof. apply cell_eqb_eq. Qed.

Lemma has_key_false (k : nat) (c : cell) (r : list cell) :
  has_key k c r = false <-> key_of k r <> c.
Proof. apply cell_eqb_neq. Qed.

Lemma drop_duplicates_from_In (k : nat) (rs : list (list cell)) :
  forall seen r,
    In r (drop_duplicates_from k seen rs) -> In r rs /\ ~ In (key_of k r) seen.
Proof.
  induction rs as [|x rs IH]; intros seen r; cbn; [intros []|].
  destruct (existsb _ seen) eqn:E.
  - intros H. apply IH in H. tauto.
  - cbn. intros [<-|H].
    + split; [now left|]. now apply existsb_cell_not_In.
    + apply IH in H. cbn in H. tauto.
Qed.

Lemma key_column_cons (k : nat) (r : list cell) (rs : list (list cell)) :
  key_column k (r :: rs) = key_of k r :: key_column k rs.
Proof. reflexivity. Qed.

Lemma drop_duplicates_from_keys (k : nat) (rs : list (list cell)) :
  forall seen c,
    In c (key_column k (drop_duplicates_from k seen rs))
    <-> In c (key_column k rs) /\ ~ In c seen.
Proof.
  induction rs as [|x rs IH]; intros seen c; cbn [drop_duplicates_from].
  - cbn. tauto.
  - rewrite key_column_cons. destruct (existsb _ seen) eqn:E.
    + rewrite IH. apply existsb_cell_In in E. cbn [In]. split; [tauto|].
      intros [[<-|H] Hn]; tauto.
    + rewrite key_column_cons. cbn [In]. rewrite IH. cbn [In].
      apply existsb_cell_not_In in E.
      destruct (cell_eqb (key_of k x) c) eqn:Q.
      * apply cell_eqb_eq in Q. subst. tauto.
      * apply cell_eqb_neq in Q. tauto.
Qed.

Lemma drop_duplicates_from_NoDup (k : nat) (rs : list (list cell)) :
  forall seen, NoDup (key_column k (drop_duplicates_from k seen rs)).
Proof.
  induction rs as [|x rs IH]; intros seen; cbn [drop_duplicates_from].
  - constructor.
  - destruct (existsb _ seen); [apply IH|].
    rewrite key_column_cons. constructor; [|apply IH].
    intros H. apply drop_duplicates_from_keys in H. cbn in H. tauto.
Qed.

(** Among the rows that share a key, deduplication keeps the first and
    nothing else. *)
Lemma drop_duplicates_from_filter (k : nat) (c : cell) (rs : list (list cell)) :
  forall seen,
    filter (has_key k c) (drop_duplicates_from k seen rs)
    = if existsb (cell_eqb c) seen then []
      else match find (has_key k c) rs with
           | Some r => [r]
           | None => []
           end.
Proof.
  induction rs as [|x rs IH]; intros seen; cbn [drop_duplicates_from find].
  - cbn. now destruct (existsb _ seen).
  - destruct (existsb (cell_eqb (key_of k x)) seen) eqn:E.
    + rewrite IH. destruct (existsb (cell_eqb c) seen) eqn:Ec; [reflexivity|].
      destruct (has_key k c x) eqn:Hx; [|reflexivity].
      apply has_key_true in Hx. subst c. congruence.
    + cbn [filter]. destruct (has_key k c x) eqn:Hx.
      * apply has_key_true in Hx. subst c. rewrite E. f_equal.
        rewrite IH. cbn [existsb]. now rewrite cell_eqb_refl.
      * rewrite IH. cbn [existsb].
        unfold has_key in Hx. rewrite cell_eqb_sym in Hx. rewrite Hx.
        reflexivity.
Qed.

Lemma drop_duplicates_filter (k : nat) (c : cell) (rs : list (list cell)) (r : list cell) :
  find (has_key k c) rs = Some r ->
  filter (has_key k c) (drop_duplicates k rs) = [r].
Proof.
  intros H. unfold drop_duplicates. rewrite drop_duplicates_from_filter. cbn.
  now rewrite H.
Qed.

Lemma row_leb_total (k : nat) (a b : list cell) :
  row_leb k a b = true \/ row_leb k b a = true.
Proof. apply cell_leb_total. Qed.

Lemma row_leb_trans (k : nat) (a b c : list cell) :
  row_leb k a b = true -> row_leb k b c = true -> row_leb k a c = true.
Proof. apply cell_leb_trans. Qed.

(** Sorted keys without repetition ascend strictly. *)
Lemma sorted_NoDup_ascending (keys : list cell) :
  StronglySorted (fun a b => cell_leb a b = true) keys ->
  NoDup keys -> ascending keys.
Proof.
  unfold ascending.
  induction 1 as [|c cs Hs IH Hc]; intros Hnd; constructor.
  - apply IH. now inversion Hnd.
  - inversion Hnd as [|? ? Hnot _]; subst.
    rewrite Forall_forall in Hc |- *. intros d Hd.
    unfold cell_lt, cell_ltb. rewrite (Hc d Hd). cbn.
    apply negb_true_iff, cell_eqb_neq. intros ->. contradiction.
Qed.

Lemma sort_rows_keys_sorted (k : nat) (rs : list (list cell)) :
  StronglySorted (fun a b => cell_leb a b = true)
                 (key_column k (sort_by (row_leb k) rs)).
Proof.
  pose proof (sort_by_sorted (row_leb k) (row_leb_total k) (row_leb_trans k) rs) as H.
  unfold key_column.
  induction H as [|r l Hl IH Hr]; cbn; constructor; [exact IH|].
  rewrite Forall_map. exact Hr.
Qed.

(** What [combine_group] did when it returned a table. *)
Lemma key_index_ok (cols : list string) (k : nat) :
  key_index cols = Ok k ->
  k = index_of key_name cols /\ count_occ string_dec cols key_name = 1.
Proof.
  unfold key_index.
  destruct (count_occ string_dec cols key_name) as [|[|n]]; try discriminate.
  intros H. injection H as <-. auto.
Qed.

Lemma combine_group_inv (g : list (string * DataFrame)) (wl : string) (T : DataFrame) :
  combine_group g wl = Ok (Some T) ->
  exists J,
    join_loop g None = Ok (Some J)
    /\ count_occ string_dec (columns J) key_name = 1
    /\ sortable (key_column (key_position J) (drop_duplicates (key_position J) (rows J)))
       = true
    /\ T = mkDF (columns J)
                (sort_by (row_leb (key_position J))
                         (drop_duplicates (key_position J) (rows J))).
Proof.
  unfold combine_group. destruct (join_loop g None) as [[J|]|] eqn:E; cbn; try discriminate.
  unfold dedup_sort. destruct (key_index (columns J)) as [k|] eqn:K; cbn; [|discriminate].
  apply key_index_ok in K. destruct K as [-> Hc].
  unfold sort_values. fold (key_position J).
  destruct (sortable _) eqn:S; cbn; [|discriminate].
  intros H. injection H as <-. exists J. auto.
Qed.

(** C4 When the table left by the join sequence has rows that share a
    key, even two or more, the merged table has exactly one row with
    that key, and it is the first of them in the joined table. *)
Theorem dedup_keeps_first (g : list (string * DataFrame)) (wl : string)
        (J T : DataFrame) (c : cell) (r : list cell) :
  join_loop g None = Ok (Some J) ->
  combine_group g wl = Ok (Some T) ->
  first_with_key c J = Some r ->
  rows_with_key c T = [r].
Proof.
  intros HJ HT Hfirst.
  apply combine_group_inv in HT. destruct HT as [J' [HJ' [_ [_ ->]]]].
  rewrite HJ in HJ'. injection HJ' as <-.
  unfold rows_with_key, key_position. cbn [columns rows]. fold (key_position J).
  apply sort_by_filter_single. now apply drop_duplicates_filter.
Qed.

(** C5 The rows of a merged table are in strictly ascending order of
    their keys: numbers by value when the key column is numeric, texts
    in lexicographic order otherwise, a missing key last.  The key
    column never mixes numbers and texts. *)
Theorem merged_rows_ascending (g : list (string * DataFrame)) (wl : string)
        (T : DataFrame) :
  combine_group g wl = Ok (Some T) ->
  ascending (table_keys T)
  /\ (Forall (fun c => is_txt c = false) (table_keys T)
      \/ Forall (fun c => is_num c = false) (table_keys T)).
Proof.
  intros HT. apply combine_group_inv in HT. destruct HT as [J [_ [_ [Hs ->]]]].
  unfold table_keys, key_position. cbn [columns rows]. fold (key_position J).
  set (k := key_position J) in *. split.
  - apply sorted_NoDup_ascending; [apply sort_rows_keys_sorted|].
    apply sort_by_map_NoDup. apply drop_duplicates_from_NoDup.
  - unfold sortable in Hs. apply negb_true_iff, andb_false_iff in Hs.
    assert (forall p, existsb p (key_column k (drop_duplicates k (rows J))) = false ->
                      Forall (fun c => p c = false)
                             (key_column k (sort_by (row_leb k) (drop_duplicates k (rows J)))))
      as Hall.
    { intros p Hp. apply Forall_forall. intros c Hc.
      unfold key_column in Hc. apply in_map_iff in Hc. destruct Hc as [r [<- Hr]].
      rewrite sort_by_In in Hr.
      destruct (p (key_of k r)) eqn:Q; [|reflexivity].
      assert (existsb p (key_column k (drop_duplicates k (rows J))) = true) as Hex.
      { apply existsb_exists. exists (key_of k r). split; [|exact Q].
        unfold key_column. now apply in_map. }
      congruence. }
    destruct Hs as [Hn|Ht]; [right|left]; now apply Hall.
Qed.

(* ================================================================== *)
(** * The outer join *)

Lemma unique_from_In (l : list cell) :
  forall seen c, In c (unique_from seen l) <-> In c l /\ ~ In c seen.
Proof.
  induction l as [|x l IH]; intros seen c; cbn [unique_from].
  - cbn. tauto.
  - destruct (existsb (cell_eqb x) seen) eqn:E.
    + rewrite IH. apply existsb_cell_In in E. cbn [In]. split; [tauto|].
      intros [[<-|H] Hn]; tauto.
    + cbn [In]. rewrite IH. cbn [In]. apply existsb_cell_not_In in E.
      destruct (cell_eqb x c) eqn:Q.
      * apply cell_eqb_eq in Q. subst. tauto.
      * apply cell_eqb_neq in Q. tauto.
Qed.

Lemma join_keys_In (c : cell) (l : list cell) :
  In c (sort_by cell_leb (unique l)) <-> In c l.
Proof.
  rewrite sort_by_In. unfold unique. rewrite unique_from_In. cbn. tauto.
Qed.

Lemma key_of_app (k : nat) (l x : list cell) :
  k < List.length l -> key_of k (l ++ x) = key_of k l.
Proof. intros H. unfold key_of. now apply app_nth1. Qed.

Lemma nth_error_repeat_NA (n p : nat) :
  p < n -> nth_error (repeat NA n) p = Some NA.
Proof.
  intros H. rewrite nth_error_repeat; auto.
Qed.

Lemma na_row_length (w k : nat) (c : cell) :
  k < w -> List.length (na_row_with_key w k c) = w.
Proof.
  intros H. unfold na_row_with_key.
  rewrite length_app. cbn. rewrite !repeat_length. lia.
Qed.

Lemma na_row_key (w k : nat) (c : cell) : key_of k (na_row_with_key w k c) = c.
Proof.
  unfold key_of, na_row_with_key.
  rewrite app_nth2; rewrite repeat_length; [|lia].
  now rewrite Nat.sub_diag.
Qed.

Lemma na_row_other (w k p : nat) (c : cell) :
  p < w -> p <> k -> nth_error (na_row_with_key w k c) p = Some NA.
Proof.
  intros Hp Hne. unfold na_row_with_key.
  destruct (Nat.lt_ge_cases p k) as [Hlt|Hge].
  - rewrite nth_error_app1 by (rewrite repeat_length; lia).
    now apply nth_error_repeat_NA.
  - rewrite nth_error_app2 by (rewrite repeat_length; lia).
    rewrite repeat_length. destruct (p - k) as [|q] eqn:Q; [lia|].
    cbn. apply nth_error_repeat_NA. lia.
Qed.

Lemma drop_at_length (k : nat) (r : list cell) :
  k < List.length r -> List.length (drop_at k r) = List.length r - 1.
Proof.
  intros H. unfold drop_at. rewrite length_app, length_firstn, length_skipn. lia.
Qed.

Lemma filter_nil_iff {A : Type} (p : A -> bool) (l : list A) :
  filter p l = [] <-> forall x, In x l -> p x = false.
Proof.
  induction l as [|a l IH]; cbn.
  - split; [intros _ ? []|reflexivity].
  - destruct (p a) eqn:E.
    + split; [discriminate|]. intros H. specialize (H a (or_introl eq_refl)). congruence.
    + rewrite IH. split.
      * intros H x [<-|Hx]; auto.
      * intros H x Hx. apply H. now right.
Qed.

Lemma in_join_rows (kl kr wl wr : nat) (L R : list (list cell)) (row : list cell) :
  In row (join_rows kl kr wl wr L R) -> joined_row kl kr wl wr L R row.
Proof.
  unfold join_rows. intros H. apply in_flat_map in H. destruct H as [c [_ H]].
  destruct (filter (has_key kl c) L) as [|l0 ls] eqn:EL.
  - apply in_map_iff in H. destruct H as [r [<- Hr]].
    apply filter_In in Hr. destruct Hr as [Hr Hk]. apply has_key_true in Hk.
    subst c. apply right_only with (r := r); auto.
    intros l Hl. apply has_key_false. revert l Hl. now apply filter_nil_iff.
  - destruct (filter (has_key kr c) R) as [|r0 rs] eqn:ER.
    + apply in_map_iff in H. destruct H as [l [<- Hl]].
      rewrite <- EL in Hl. apply filter_In in Hl. destruct Hl as [Hl Hk].
      apply has_key_true in Hk. subst c. apply left_only with (l := l); auto.
      intros r Hr. apply has_key_false. revert r Hr. now apply filter_nil_iff.
    + apply in_flat_map in H. destruct H as [l [Hl H]].
      apply in_map_iff in H. destruct H as [r [<- Hr]].
      rewrite <- EL in Hl. rewrite <- ER in Hr.
      apply filter_In in Hl, Hr. destruct Hl as [Hl Hkl], Hr as [Hr Hkr].
      apply has_key_true in Hkl, Hkr.
      apply matched with (l := l) (r := r); auto. congruence.
Qed.

(** No key of either side is lost. *)
Lemma join_rows_complete (kl kr wl wr : nat) (L R : list (list cell)) (c : cell) :
  kl < wl ->
  Forall (fun l => List.length l = wl) L ->
  In c (key_column kl L) \/ In c (key_column kr R) ->
  exists row, In row (join_rows kl kr wl wr L R) /\ key_of kl row = c.
Proof.
  intros Hk HL Hc.
  assert (In c (sort_by cell_leb (unique (key_column kl L ++ key_column kr R)))) as Hin.
  { apply join_keys_In. apply in_or_app. exact Hc. }
  assert (forall l, In l (filter (has_key kl c) L) -> In l L /\ key_of kl l = c /\ kl < List.length l)
    as HfL.
  { intros l Hl. apply filter_In in Hl. destruct Hl as [Hl Hkey].
    apply has_key_true in Hkey. rewrite Forall_forall in HL.
    rewrite (HL l Hl). auto. }
  assert (forall r, In r (filter (has_key kr c) R) -> key_of kr r = c) as HfR.
  { intros r Hr. apply filter_In in Hr. destruct Hr as [_ Hkey]. now apply has_key_true. }
  unfold join_rows.
  destruct (filter (has_key kl c) L) as [|l0 ls] eqn:EL.
  - destruct (filter (has_key kr c) R) as [|r0 rs] eqn:ER.
    + exfalso. destruct Hc as [Hc|Hc]; unfold key_column in Hc;
        apply in_map_iff in Hc; destruct Hc as [x [Hx Hin']].
      * assert (In x (filter (has_key kl c) L)) as F
            by (apply filter_In; split; [exact Hin'|now apply has_key_true]).
        rewrite EL in F. destruct F.
      * assert (In x (filter (has_key kr c) R)) as F
            by (apply filter_In; split; [exact Hin'|now apply has_key_true]).
        rewrite ER in F. destruct F.
    + exists (na_row_with_key wl kl c ++ drop_at kr r0). split.
      * apply in_flat_map. exists c. split; [exact Hin|].
        rewrite EL, ER. now left.
      * rewrite key_of_app by (rewrite na_row_length; lia). apply na_row_key.
  - destruct (HfL l0 (or_introl eq_refl)) as [_ [Hkey Hlen]].
    destruct (filter (has_key kr c) R) as [|r0 rs] eqn:ER.
    + exists (l0 ++ repeat NA (wr - 1)). split.
      * apply in_flat_map. exists c. split; [exact Hin|].
        rewrite EL, ER. now left.
      * now rewrite key_of_app.
    + exists (l0 ++ drop_at kr r0). split.
      * apply in_flat_map. exists c. split; [exact Hin|].
        rewrite EL, ER. cbn. now left.
      * now rewrite key_of_app.
Qed.

(* ================================================================== *)
(** * Labels and the position of the key column *)

Lemma count_occ_map_key (f : string -> string) (cols : list string) :
  f key_name = key_name ->
  count_occ string_dec cols key_name
  <= count_occ string_dec (map f cols) key_name.
Proof.
  intros Hf. induction cols as [|c r IH]; cbn; [lia|].
  destruct (string_dec c key_name) as [->|Hc].
  - rewrite Hf. destruct (string_dec key_name key_name); [lia|congruence].
  - destruct (string_dec (f c) key_name); lia.
Qed.

(** A relabelling that leaves the key label alone and after which the
    key label is still borne once has not moved the key column. *)
Lemma index_of_map_key (f : string -> string) (cols : list string) :
  f key_name = key_name ->
  1 <= count_occ string_dec cols key_name ->
  count_occ string_dec (map f cols) key_name = 1 ->
  index_of key_name (map f cols) = index_of key_name cols.
Proof.
  intros Hf. induction cols as [|c r IH]; cbn; [lia|].
  destruct (String.eqb_spec c key_name) as [->|Hc].
  - rewrite Hf, String.eqb_refl. reflexivity.
  - destruct (string_dec c key_name) as [|_]; [contradiction|].
    intros H1. pose proof (count_occ_map_key f r Hf) as Hle.
    destruct (string_dec (f c) key_name) as [Hfc|Hfc].
    + intros H2. lia.
    + intros H2. destruct (String.eqb_spec (f c) key_name); [contradiction|].
      f_equal. now apply IH.
Qed.

Lemma index_of_lt (cols : list string) :
  1 <= count_occ string_dec cols key_name ->
  index_of key_name cols < List.length cols.
Proof.
  induction cols as [|c r IH]; cbn; [lia|].
  destruct (String.eqb_spec c key_name) as [->|Hc]; [lia|].
  destruct (string_dec c key_name); [contradiction|]. intros H. specialize (IH H). lia.
Qed.

Lemma index_of_app (cols more : list string) :
  1 <= count_occ string_dec cols key_name ->
  index_of key_name (cols ++ more) = index_of key_name cols.
Proof.
  induction cols as [|c r IH]; cbn; [lia|].
  destruct (String.eqb_spec c key_name) as [->|Hc]; [reflexivity|].
  destruct (string_dec c key_name); [contradiction|]. intros H. f_equal. now apply IH.
Qed.

(** Without its key column a table that bears the key label once bears
    it no more. *)
Lemma key_not_in_rest (cols : list string) :
  count_occ string_dec cols key_name = 1 ->
  ~ In key_name (firstn (index_of key_name cols) cols
                 ++ skipn (S (index_of key_name cols)) cols).
Proof.
  induction cols as [|c r IH]; cbn; [lia|].
  destruct (String.eqb_spec c key_name) as [->|Hc].
  - destruct (string_dec key_name key_name); [|congruence].
    intros H. cbn. apply (count_occ_not_In string_dec). lia.
  - destruct (string_dec c key_name); [contradiction|]. intros H.
    cbn. intros [Heq|Hin]; [contradiction|]. now apply IH in Hin.
Qed.

Lemma renamed_columns (date : string) (df : DataFrame) :
  columns (rename_with_date date df)
  = map (fun c => if String.eqb c key_name then c else prefixed date c) (columns df).
Proof. reflexivity. Qed.

Lemma renamed_key_position (date : string) (df : DataFrame) :
  has_one_key df ->
  has_one_key (rename_with_date date df) ->
  key_position (rename_with_date date df) = key_position df.
Proof.
  unfold has_one_key, key_position. rewrite renamed_columns. intros H1 H2.
  apply index_of_map_key; [now rewrite String.eqb_refl|lia|exact H2].
Qed.

(** What a join that went through has made. *)
Lemma merge_outer_inv (left right J : DataFrame) :
  merge_outer left right = Ok J ->
  has_one_key left /\ has_one_key right
  /\ (exists (f : string -> string) (rlabels : list string),
        f key_name = key_name
        /\ columns J = map f (columns left) ++ rlabels
        /\ List.length rlabels = List.length (columns right) - 1)
  /\ rows J = join_rows (key_position left) (key_position right)
                        (List.length (columns left)) (List.length (columns right))
                        (rows left) (rows right).
Proof.
  unfold merge_outer.
  destruct (key_index (columns right)) as [kr|] eqn:Kr; cbn [bind]; [|discriminate].
  destruct (key_index (columns left)) as [kl|] eqn:Kl; cbn [bind]; [|discriminate].
  apply key_index_ok in Kr, Kl. destruct Kr as [-> Hr], Kl as [-> Hl].
  destruct (dtype_clash _ _); [discriminate|].
  set (rcols := firstn (index_of key_name (columns right)) (columns right)
                ++ skipn (S (index_of key_name (columns right))) (columns right)).
  set (overlap := filter (fun c => if in_dec string_dec c rcols then true else false)
                         (columns left)).
  destruct (new_duplicates _ _ _ _ ++ new_duplicates _ _ _ _); [|discriminate].
  intros H. injection H as <-. cbn [columns rows].
  repeat split; auto.
  exists (add_suffix overlap "_x"), (map (add_suffix overlap "_y") rcols).
  repeat split.
  - unfold add_suffix. destruct (in_dec string_dec key_name overlap) as [Hin|]; [|reflexivity].
    exfalso. unfold overlap in Hin. apply filter_In in Hin. destruct Hin as [_ Hin].
    destruct (in_dec string_dec key_name rcols) as [Hin'|]; [|discriminate].
    now apply key_not_in_rest in Hin'.
  - rewrite length_map. unfold rcols. rewrite length_app, length_firstn, length_skipn.
    pose proof (index_of_lt (columns right)) as Hlt. unfold has_one_key in *. lia.
Qed.

Lemma merged_key_position (left J : DataFrame) (f : string -> string)
      (rlabels : list string) :
  has_one_key left -> has_one_key J ->
  f key_name = key_name ->
  columns J = map f (columns left) ++ rlabels ->
  key_position J = key_position left.
Proof.
  unfold has_one_key, key_position. intros Hl HJ Hf Hc. rewrite Hc in *.
  pose proof (count_occ_map_key f (columns left) Hf) as Hle.
  rewrite count_occ_app in HJ.
  rewrite index_of_app by lia.
  apply index_of_map_key; [exact Hf|lia|lia].
Qed.

Lemma join_loop_app (g : list (string * DataFrame)) (it : string * DataFrame) :
  forall acc,
    join_loop (g ++ [it]) acc = (c <- join_loop g acc ;; combine_step c it).
Proof.
  induction g as [|x g IH]; intros acc; cbn [app join_loop].
  - cbn [bind]. destruct (combine_step acc it); reflexivity.
  - destruct (combine_step acc x) as [c|e]; cbn [bind]; [apply IH|reflexivity].
Qed.

Lemma join_loop_some (g : list (string * DataFrame)) :
  forall d r, join_loop g (Some d) = Ok r -> r <> None.
Proof.
  induction g as [|x g IH]; intros d r; cbn [join_loop].
  - intros H. injection H as <-. discriminate.
  - cbn [combine_step]. destruct (merge_outer _ _) as [m|]; cbn [bind]; [|discriminate].
    apply IH.
Qed.

Lemma join_loop_none (g : list (string * DataFrame)) :
  join_loop g None = Ok None -> g = [].
Proof.
  destruct g as [|x g]; [reflexivity|]. cbn [join_loop combine_step bind].
  intros H. now apply join_loop_some in H.
Qed.

Lemma list_sum_firstn_le (l : list nat) (n : nat) :
  list_sum (firstn n l) <= list_sum l.
Proof.
  revert n; induction l as [|a l IH]; intros [|n]; cbn [firstn list_sum fold_right];
    try lia.
  specialize (IH n). unfold list_sum in *. cbn [fold_right]. lia.
Qed.

Lemma joined_width_firstn_le (g : list (string * DataFrame)) (n : nat) :
  joined_width (firstn n g) <= joined_width g.
Proof.
  destruct g as [|first rest]; destruct n as [|n]; cbn; try lia.
  rewrite <- firstn_map. pose proof (list_sum_firstn_le
    (map (fun it : string * DataFrame => List.length (columns (snd it)) - 1) rest) n). lia.
Qed.

Lemma joined_width_snoc (g : list (string * DataFrame)) (it : string * DataFrame) :
  g <> [] ->
  joined_width (g ++ [it]) = joined_width g + (List.length (columns (snd it)) - 1).
Proof.
  destruct g as [|first rest]; [congruence|]. intros _. cbn.
  rewrite map_app, list_sum_app. cbn. lia.
Qed.

(* ================================================================== *)
(** * The join sequence keeps its invariant *)

Lemma firstn_snoc_lt {A : Type} (g : list A) (x : A) (i : nat) :
  i <= List.length g -> firstn i (g ++ [x]) = firstn i g.
Proof.
  intros H. rewrite firstn_app. replace (i - List.length g) with 0 by lia.
  cbn. apply app_nil_r.
Qed.

Lemma firstn_snoc_all {A : Type} (g : list A) (x : A) :
  firstn (S (List.length g)) (g ++ [x]) = g ++ [x].
Proof. apply firstn_all2. rewrite length_app. cbn. lia. Qed.

Lemma join_invariant_single (it : string * DataFrame) (date : string) :
  has_one_key (snd it) -> rectangular (snd it) ->
  has_one_key (rename_with_date date (snd it)) ->
  join_invariant [it] (rename_with_date date (snd it)).
Proof.
  intros H1 Hrect H2. unfold join_invariant.
  rewrite (renamed_key_position _ _ H1 H2).
  assert (List.length (columns (rename_with_date date (snd it)))
          = List.length (columns (snd it))) as Hlen
    by (rewrite renamed_columns; apply length_map).
  assert (joined_width [it] = List.length (columns (snd it))) as Hw
    by (cbn; lia).
  assert (table_keys (rename_with_date date (snd it)) = table_keys (snd it)) as Hkeys.
  { unfold table_keys. now rewrite (renamed_key_position _ _ H1 H2). }
  rewrite Hlen, Hw. repeat split.
  - apply index_of_lt. unfold has_one_key in H1. lia.
  - exact Hrect.
  - rewrite Hkeys. intros H. exists it. split; [now left|exact H].
  - rewrite Hkeys. intros [it' [[<-|[]] H]]. exact H.
  - intros i it' row p Hnth Hrow Hnot _ _. exfalso.
    destruct i as [|i]; [|destruct i; discriminate Hnth].
    injection Hnth as <-. apply Hnot. unfold table_keys, key_column.
    apply in_map. exact Hrow.
Qed.

Lemma join_invariant_step (g : list (string * DataFrame)) (it : string * DataFrame)
      (date : string) (J0 J : DataFrame) :
  g <> [] ->
  join_invariant g J0 ->
  has_one_key (snd it) -> rectangular (snd it) ->
  merge_outer J0 (rename_with_date date (snd it)) = Ok J ->
  has_one_key J ->
  join_invariant (g ++ [it]) J.
Proof.
  intros Hg (Hk0 & Hw0 & Hrows0 & Hkeys0 & Habs0) Hit Hrect Hm HJ.
  apply merge_outer_inv in Hm.
  destruct Hm as (HJ0 & HR & (f & rl & Hf & Hcols & Hlen) & Hrows).
  pose proof (renamed_key_position _ _ Hit HR) as Hkr.
  pose proof (merged_key_position _ _ _ _ HJ0 HJ Hf Hcols) as Hk.
  rewrite Hkr in Hrows.
  assert (List.length (columns (rename_with_date date (snd it)))
          = List.length (columns (snd it))) as Hwr
    by (rewrite renamed_columns; apply length_map).
  rewrite Hwr in Hrows, Hlen. cbn [rename_with_date rows] in Hrows.
  set (k0 := key_position J0) in *.
  set (kr := key_position (snd it)) in *.
  set (w0 := List.length (columns J0)) in *.
  set (wr := List.length (columns (snd it))) in *.
  assert (kr < wr) as Hkrlt.
  { apply index_of_lt. unfold has_one_key in Hit. lia. }
  assert (joined_width (g ++ [it]) = w0 + (wr - 1)) as Hw.
  { rewrite joined_width_snoc by exact Hg. fold wr. lia. }
  rewrite Forall_forall in Hrows0. unfold rectangular in Hrect.
  rewrite Forall_forall in Hrect. fold wr in Hrect.
  assert (forall row, In row (rows J) ->
                      joined_row k0 kr w0 wr (rows J0) (rows (snd it)) row) as Hcase.
  { intros row Hrow. rewrite Hrows in Hrow. now apply in_join_rows. }
  assert (forall l, In l (rows J0) -> List.length l = w0) as HlenL.
  { intros l Hl. rewrite (Hrows0 l Hl). symmetry. exact Hw0. }
  unfold join_invariant. rewrite Hk. fold k0.
  split; [|split; [|split; [|split]]].
  - rewrite Hcols, length_app, length_map. fold w0. lia.
  - rewrite Hcols, length_app, length_map, Hw, Hlen. reflexivity.
  - apply Forall_forall. intros row Hrow. rewrite Hw.
    destruct (Hcase row Hrow) as [l r Hl Hr _ ->|l Hl _ ->|r Hr _ ->];
      rewrite length_app.
    + rewrite (HlenL l Hl), drop_at_length; rewrite (Hrect r Hr); lia.
    + rewrite (HlenL l Hl), repeat_length. reflexivity.
    + rewrite na_row_length by exact Hk0.
      rewrite drop_at_length; rewrite (Hrect r Hr); lia.
  - intros c. unfold table_keys at 1. rewrite Hk. fold k0. split.
    + intros Hc. unfold key_column in Hc. apply in_map_iff in Hc.
      destruct Hc as [row [<- Hrow]].
      destruct (Hcase row Hrow) as [l r Hl Hr _ ->|l Hl _ ->|r Hr _ ->].
      * rewrite key_of_app by (rewrite (HlenL l Hl); exact Hk0).
        assert (In (key_of k0 l) (table_keys J0)) as Hin
            by (unfold table_keys, key_column; now apply in_map).
        apply Hkeys0 in Hin. destruct Hin as [it' [Hit' Hc]].
        exists it'. split; [apply in_or_app; now left|exact Hc].
      * rewrite key_of_app by (rewrite (HlenL l Hl); exact Hk0).
        assert (In (key_of k0 l) (table_keys J0)) as Hin
            by (unfold table_keys, key_column; now apply in_map).
        apply Hkeys0 in Hin. destruct Hin as [it' [Hit' Hc]].
        exists it'. split; [apply in_or_app; now left|exact Hc].
      * rewrite key_of_app by (rewrite na_row_length; lia).
        rewrite na_row_key. exists it. split; [apply in_or_app; right; now left|].
        unfold table_keys, key_column. now apply in_map.
    + intros [it' [Hit' Hc]].
      destruct (join_rows_complete k0 kr w0 wr (rows J0) (rows (snd it)) c Hk0)
        as [row [Hrow Hkey]].
      * apply Forall_forall. exact HlenL.
      * apply in_app_or in Hit'. destruct Hit' as [Hit'|[<-|[]]].
        -- left. apply Hkeys0. now exists it'.
        -- right. exact Hc.
      * rewrite <- Hkey. unfold key_column. apply in_map. now rewrite Hrows.
  - intros i it' row p Hnth Hrow Hnot Hp Hpk.
    destruct (Nat.lt_ge_cases i (List.length g)) as [Hi|Hi].
    + rewrite nth_error_app1 in Hnth by exact Hi.
      rewrite !firstn_snoc_lt in Hp by lia.
      pose proof (joined_width_firstn_le g (S i)) as Hle.
      assert (p < w0) as Hpw by lia.
      destruct (Hcase row Hrow) as [l r Hl Hr _ ->|l Hl _ ->|r Hr _ ->].
      * rewrite key_of_app in Hnot by (rewrite (HlenL l Hl); exact Hk0).
        rewrite nth_error_app1 by (rewrite (HlenL l Hl); exact Hpw).
        now apply (Habs0 i it' l p).
      * rewrite key_of_app in Hnot by (rewrite (HlenL l Hl); exact Hk0).
        rewrite nth_error_app1 by (rewrite (HlenL l Hl); exact Hpw).
        now apply (Habs0 i it' l p).
      * rewrite nth_error_app1 by (rewrite na_row_length; lia).
        now apply na_row_other.
    + rewrite nth_error_app2 in Hnth by exact Hi.
      destruct (i - List.length g) as [|n] eqn:Q; [|destruct n; discriminate Hnth].
      injection Hnth as <-. assert (i = List.length g) as -> by lia.
      rewrite firstn_snoc_lt, firstn_all, firstn_snoc_all in Hp by lia.
      rewrite Hw in Hp. rewrite <- Hw0 in Hp.
      destruct (Hcase row Hrow) as [l r Hl Hr Heq ->|l Hl _ ->|r Hr _ ->].
      * exfalso. apply Hnot.
        rewrite key_of_app by (rewrite (HlenL l Hl); exact Hk0).
        rewrite Heq. unfold table_keys, key_column. now apply in_map.
      * rewrite nth_error_app2 by (rewrite (HlenL l Hl); lia).
        apply nth_error_repeat_NA. rewrite (HlenL l Hl). lia.
      * exfalso. apply Hnot.
        rewrite key_of_app by (rewrite na_row_length; lia).
        rewrite na_row_key. unfold table_keys, key_column. now apply in_map.
Qed.

Lemma join_loop_invariant (g : list (string * DataFrame)) :
  forall J,
    Forall (fun it => has_one_key (snd it) /\ rectangular (snd it)) g ->
    join_loop g None = Ok (Some J) ->
    has_one_key J ->
    join_invariant g J.
Proof.
  induction g as [|it g IH] using rev_ind; intros J Hwf Hloop HJ.
  - discriminate Hloop.
  - apply Forall_app in Hwf. destruct Hwf as [Hg Hit].
    inversion Hit as [|? ? [H1 Hrect] _]; subst.
    rewrite join_loop_app in Hloop.
    destruct (join_loop g None) as [[J0|]|] eqn:E; cbn [bind] in Hloop;
      [| |discriminate].
    + cbn [combine_step] in Hloop.
      destruct (merge_outer J0 _) as [m|] eqn:M; cbn [bind] in Hloop; [|discriminate].
      injection Hloop as ->.
      pose proof (merge_outer_inv _ _ _ M) as [HJ0 _].
      eapply join_invariant_step; eauto.
      intros ->. discriminate E.
    + apply join_loop_none in E. subst g. cbn [combine_step] in Hloop.
      injection Hloop as <-. cbn [app]. now apply join_invariant_single.
Qed.

Lemma sort_dedup_In (k : nat) (rs : list (list cell)) (r : list cell) :
  In r (sort_by (row_leb k) (drop_duplicates k rs)) -> In r rs.
Proof.
  rewrite sort_by_In. unfold drop_duplicates. intros H.
  now apply drop_duplicates_from_In in H.
Qed.

Lemma sort_dedup_keys (k : nat) (rs : list (list cell)) (c : cell) :
  In c (key_column k (sort_by (row_leb k) (drop_duplicates k rs)))
  <-> In c (key_column k rs).
Proof.
  unfold key_column at 1. rewrite in_map_iff. split.
  - intros [r [<- Hr]]. apply sort_dedup_In in Hr. unfold key_column. now apply in_map.
  - intros Hc.
    assert (In c (key_column k (drop_duplicates k rs))) as H.
    { unfold drop_duplicates. apply drop_duplicates_from_keys. split; [exact Hc|intros []]. }
    unfold key_column in H. apply in_map_iff in H. destruct H as [r [Hk Hr]].
    exists r. split; [exact Hk|]. now apply sort_by_In.
Qed.

(** C3 For a group of tables that each have the key column once, the
    merged table has one row per key of the union of the tables' keys:
    no key repeats, every key of every table is there and no other.
    Every row is as wide as the join, and a row whose key a table of the
    group lacks holds a missing value in each of the columns that table
    contributed. *)
Theorem outer_join_keeps_every_key (g : list (string * DataFrame)) (wl : string)
        (T : DataFrame) :
  Forall (fun it => has_one_key (snd it) /\ rectangular (snd it)) g ->
  combine_group g wl = Ok (Some T) ->
  NoDup (table_keys T)
  /\ (forall c, In c (table_keys T) <->
                exists it, In it g /\ In c (table_keys (snd it)))
  /\ Forall (fun row => List.length row = joined_width g) (rows T)
  /\ (forall i it row p,
         nth_error g i = Some it ->
         In row (rows T) ->
         ~ In (key_of (key_position T) row) (table_keys (snd it)) ->
         joined_width (firstn i g) <= p < joined_width (firstn (S i) g) ->
         p <> key_position T ->
         nth_error row p = Some NA).
Proof.
  intros Hwf HT. apply combine_group_inv in HT.
  destruct HT as [J [HJ [Hone [_ ->]]]].
  pose proof (join_loop_invariant g J Hwf HJ Hone) as (_ & _ & Hrows & Hkeys & Habs).
  unfold table_keys, key_position. cbn [columns rows]. fold (key_position J).
  set (k := key_position J) in *.
  split; [|split; [|split]].
  - apply sort_by_map_NoDup. apply drop_duplicates_from_NoDup.
  - intros c. rewrite sort_dedup_keys. apply Hkeys.
  - rewrite Forall_forall in Hrows |- *. intros row Hrow.
    apply Hrows. now apply sort_dedup_In in Hrow.
  - intros i it row p Hnth Hrow Hnot Hp Hpk.
    apply (Habs i it row p); auto. now apply sort_dedup_In in Hrow.
Qed.

(* ================================================================== *)
(** * A group of one table *)

Lemma sort_by_sorted_id {A : Type} (leb : A -> A -> bool) (l : list A) :
  StronglySorted (fun a b => leb a b = true) l -> sort_by leb l = l.
Proof.
  induction 1 as [|h t Ht IH Hh]; [reflexivity|].
  rewrite sort_by_cons, IH. destruct t as [|a t']; [reflexivity|].
  cbn. inversion Hh as [|? ? Ha _]; subst. now rewrite Ha.
Qed.

Lemma drop_duplicates_from_id (k : nat) (rs : list (list cell)) :
  forall seen,
    (forall c, In c (key_column k rs) -> ~ In c seen) ->
    NoDup (key_column k rs) ->
    drop_duplicates_from k seen rs = rs.
Proof.
  induction rs as [|x rs IH]; intros seen Hseen Hnd; [reflexivity|].
  cbn [drop_duplicates_from]. rewrite key_column_cons in *.
  inversion Hnd as [|? ? Hx Hrest]; subst.
  assert (existsb (cell_eqb (key_of k x)) seen = false) as ->.
  { apply existsb_cell_not_In. apply Hseen. now left. }
  f_equal. apply IH; [|exact Hrest].
  intros c Hc [<-|Hs]; [contradiction|]. apply (Hseen c); [now right|exact Hs].
Qed.

Lemma cell_lt_leb (a b : cell) : cell_lt a b -> cell_leb a b = true.
Proof. unfold cell_lt, cell_ltb. intros H. now apply andb_true_iff in H. Qed.

Lemma cell_lt_neq (a b : cell) : cell_lt a b -> a <> b.
Proof.
  unfold cell_lt, cell_ltb. intros H. apply andb_true_iff in H.
  destruct H as [_ H]. apply negb_true_iff in H. now apply cell_eqb_neq.
Qed.

Lemma ascending_NoDup (keys : list cell) : ascending keys -> NoDup keys.
Proof.
  induction 1 as [|c cs Hs IH Hc]; constructor; [|exact IH].
  intros Hin. rewrite Forall_forall in Hc. now apply (cell_lt_neq c c (Hc c Hin)).
Qed.

Lemma ascending_rows_sorted (k : nat) (rs : list (list cell)) :
  ascending (key_column k rs) ->
  StronglySorted (fun a b => row_leb k a b = true) rs.
Proof.
  induction rs as [|r rs IH]; [constructor|].
  rewrite key_column_cons. intros H. inversion H as [|? ? Hs Hc]; subst.
  constructor; [now apply IH|].
  unfold key_column in Hc. rewrite Forall_map in Hc.
  eapply Forall_impl; [|exact Hc]. intros r' Hr'. now apply cell_lt_leb.
Qed.

(** C2, as the code has it.  The merge of a group of one table bears the
    table's labels with every label but the key renamed to
    [<date>_<label>], the date being the file name up to its first
    underscore; its rows are the table's rows deduplicated by key and
    sorted, hence the table's rows themselves when the keys already
    ascend. *)
Theorem single_table_renamed (fname wl : string) (df T : DataFrame) :
  combine_group [(fname, df)] wl = Ok (Some T) ->
  columns T = map (renamed_label fname) (columns df)
  /\ rows T = sort_by (row_leb (key_position T))
                      (drop_duplicates (key_position T) (rows df))
  /\ (ascending (key_column (key_position T) (rows df)) -> rows T = rows df).
Proof.
  intros HT. apply combine_group_inv in HT. destruct HT as [J [HJ [_ [_ ->]]]].
  cbn in HJ. injection HJ as <-.
  unfold key_position. cbn [columns rows rename_with_date].
  split; [reflexivity|]. split; [reflexivity|].
  intros Hasc. unfold drop_duplicates.
  rewrite drop_duplicates_from_id;
    [|intros c _ []|now apply ascending_NoDup].
  apply sort_by_sorted_id. now apply ascending_rows_sorted.
Qed.

(** C2 read to the letter fails: the only table of a group comes back
    with its value columns renamed. *)
Lemma single_table_not_unchanged :
  combine_group
    [("07-25_scan_488.csv",
      mkDF ["power_percentage_values"; "power"; "error"]
           [[Num 10; Num 5; Num 1]; [Num 20; Num 9; Num 1]])]
    "488"
  = Ok (Some (mkDF ["power_percentage_values"; "07-25_power"; "07-25_error"]
                   [[Num 10; Num 5; Num 1]; [Num 20; Num 9; Num 1]]))
  /\ ~ (forall fname df wl, combine_group [(fname, df)] wl = Ok (Some df)).
Proof.
  split; [reflexivity|].
  intros H.
  specialize (H "07-25_scan_488.csv"
                (mkDF ["power_percentage_values"; "power"] [[Num 10; Num 5]]) "488").
  vm_compute in H. discriminate H.
Qed.

(* ================================================================== *)
(** * The export order *)

Lemma not_sign_of_digit {A : Type} (c : ascii) (r : string) (d : A) (f g : string -> A) :
  Py.is_digit c = true ->
  match String c r with
  | String "+" r' => f r'
  | String "-" r' => g r'
  | _ => d
  end = d.
Proof.
  destruct c as [[] [] [] [] [] [] [] []]; intros H; try reflexivity; discriminate H.
Qed.

Lemma digit_not_space (c : ascii) : Py.is_digit c = true -> Py.is_space c = false.
Proof.
  destruct c as [[] [] [] [] [] [] [] []]; intros H; try reflexivity; discriminate H.
Qed.

Lemma rstrip_digits (s : string) : all_digits s = true -> Py.rstrip s = s.
Proof.
  induction s as [|c r IH]; [reflexivity|]. cbn [all_digits Py.rstrip].
  intros H. apply andb_true_iff in H. destruct H as [Hc Hr].
  rewrite (IH Hr). destruct r; [|reflexivity].
  now rewrite (digit_not_space c Hc).
Qed.

Lemma strip_digits (s : string) : all_digits s = true -> Py.strip s = s.
Proof.
  intros H. unfold Py.strip.
  assert (Py.lstrip s = s) as ->.
  { destruct s as [|c r]; [reflexivity|]. cbn in *.
    apply andb_true_iff in H. destruct H as [Hc _].
    now rewrite (digit_not_space c Hc). }
  now apply rstrip_digits.
Qed.

Lemma int_digits_total (s : string) :
  forall b acc, all_digits s = true -> s <> EmptyString \/ b = true ->
                exists z, Py.int_digits s b acc = Some z.
Proof.
  induction s as [|c r IH]; intros b acc Hd Hne; cbn [Py.int_digits].
  - destruct Hne as [Hne| ->]; [congruence|eauto].
  - cbn [all_digits] in Hd. apply andb_true_iff in Hd. destruct Hd as [Hc Hr].
    rewrite Hc. apply IH; auto.
Qed.

(** [int] reads every group key. *)
Lemma int_of_wavelength_key (wl : string) :
  wavelength_key wl -> Py.int wl = Ok (wavelength_value wl).
Proof.
  intros [Hne Hd]. unfold wavelength_value.
  assert (exists z, Py.int wl = Ok z) as [z Hz].
  { unfold Py.int. rewrite (strip_digits wl Hd).
    destruct wl as [|c r]; [congruence|].
    pose proof Hd as Hd'. cbn [all_digits] in Hd'. apply andb_true_iff in Hd'.
    destruct Hd' as [Hc _].
    rewrite (not_sign_of_digit c r
               (Py.int_digits (String c r) false 0)
               (fun r' => Py.int_digits r' false 0)
               (fun r' => option_map Z.opp (Py.int_digits r' false 0)) Hc).
    destruct (int_digits_total (String c r) false 0%Z Hd) as [z Hz];
      [left; discriminate|].
    rewrite Hz. eauto. }
  now rewrite Hz.
Qed.

Lemma tag_leb_total (a b : Z * string) : tag_leb a b = true \/ tag_leb b a = true.
Proof.
  unfold tag_leb. destruct (Z.leb_spec (fst a) (fst b)); [now left|right].
  apply Z.leb_le. lia.
Qed.

Lemma tag_leb_trans (a b c : Z * string) :
  tag_leb a b = true -> tag_leb b c = true -> tag_leb a c = true.
Proof. unfold tag_leb. rewrite !Z.leb_le. lia. Qed.

Lemma for_each_tag (keys : list string) :
  Forall wavelength_key keys ->
  for_each (fun k => z <- Py.int k ;; Ok (z, k)) keys
  = Ok (map (fun k => (wavelength_value k, k)) keys).
Proof.
  induction 1 as [|k ks Hk Hks IH]; [reflexivity|].
  cbn [for_each map]. rewrite (int_of_wavelength_key k Hk). cbn [bind].
  now rewrite IH.
Qed.

(** The order in which the export visits the groups: the keys
    themselves, none twice, by ascending number. *)
Lemma sorted_by_int_spec (keys : list string) :
  Forall wavelength_key keys ->
  exists order,
    sorted_by_int keys = Ok order
    /\ (forall wl, In wl order <-> In wl keys)
    /\ (NoDup keys -> NoDup order)
    /\ StronglySorted (fun a b => (wavelength_value a <= wavelength_value b)%Z) order.
Proof.
  intros Hk. unfold sorted_by_int. rewrite (for_each_tag keys Hk). cbn [bind].
  set (tagged := map (fun k => (wavelength_value k, k)) keys).
  assert (forall p, In p (sort_by tag_leb tagged) -> fst p = wavelength_value (snd p))
    as Hfst.
  { intros p Hp. rewrite sort_by_In in Hp. unfold tagged in Hp.
    apply in_map_iff in Hp. destruct Hp as [k [<- _]]. reflexivity. }
  assert (map snd tagged = keys) as Hsnd.
  { unfold tagged. rewrite map_map. cbn. apply map_id. }
  eexists. split; [reflexivity|]. split; [|split].
  - intros wl. rewrite in_map_iff. split.
    + intros [p [<- Hp]]. rewrite sort_by_In in Hp. rewrite <- Hsnd. now apply in_map.
    + intros Hin. exists (wavelength_value wl, wl). split; [reflexivity|].
      rewrite sort_by_In. unfold tagged.
      now apply (in_map (fun k => (wavelength_value k, k))).
  - intros Hnd. apply sort_by_map_NoDup. now rewrite Hsnd.
  - pose proof (sort_by_sorted tag_leb tag_leb_total tag_leb_trans tagged) as Hs.
    revert Hfst. induction Hs as [|p l Hl IH Hp]; intros Hfst; cbn [map]; constructor.
    + apply IH. intros q Hq. apply Hfst. now right.
    + rewrite Forall_map. rewrite Forall_forall in Hp |- *. intros q Hq.
      specialize (Hp q Hq). unfold tag_leb in Hp. apply Z.leb_le in Hp.
      rewrite <- (Hfst p (or_introl eq_refl)), <- (Hfst q (or_intror Hq)). exact Hp.
Qed.

(* ================================================================== *)
(** * The exporter *)

Lemma dict_get_In_keys {V : Type} (k : string) (d : dict V) (v : V) :
  dict_get k d = Some v -> In k (dict_keys d).
Proof.
  induction d as [|[k' v'] d IH]; cbn; [discriminate|].
  destruct (String.eqb_spec k' k) as [->|Hne]; [now left|]. intros H. right. now apply IH.
Qed.








(* ================================================================== *)
(** * Files that belong to no group *)

Lemma without_key_dict_set {V : Type} (f k : string) (v : V) (d : dict V) :
  without_key f (dict_set k v d)
  = if String.eqb k f then without_key f d else dict_set k v (without_key f d).
Proof.
  unfold without_key.
  induction d as [|[k' v'] d IH]; cbn [dict_set filter fst].
  - destruct (String.eqb k f); reflexivity.
  - destruct (String.eqb_spec k' k) as [->|Hk].
    + cbn [filter fst]. destruct (String.eqb k f) eqn:E; cbn [negb]; [reflexivity|].
      cbn [dict_set]. now rewrite String.eqb_refl.
    + cbn [filter fst]. rewrite IH.
      destruct (String.eqb_spec k' f) as [->|Hf]; cbn [negb].
      * destruct (String.eqb_spec k f) as [->|_]; [congruence|reflexivity].
      * destruct (String.eqb k f); [reflexivity|].
        cbn [dict_set]. destruct (String.eqb_spec k' k); [contradiction|reflexivity].
Qed.

Section Unmatched.
Variable to_number : string -> option (option Z).
Variable fname : string.

Lemma load_all_without (files : list (string * list string)) :
  (forall lines, In (fname, lines) files -> parses to_number lines) ->
  forall acc,
    load_all to_number (without_key fname files) (without_key fname acc)
    = (d <- load_all to_number files acc ;; Ok (without_key fname d)).
Proof.
  induction files as [|[n lines] rest IH]; intros Hp acc; [reflexivity|].
  assert (forall l, In (fname, l) rest -> parses to_number l) as Hrest.
  { intros l Hl. apply Hp. now right. }
  unfold without_key at 1. cbn [filter fst load_all].
  fold (without_key fname rest).
  destruct (String.eqb_spec n fname) as [->|Hn]; cbn [negb].
  - destruct (Hp lines (or_introl eq_refl)) as [df Hdf]. rewrite Hdf. cbn [bind].
    rewrite <- (IH Hrest). rewrite without_key_dict_set, String.eqb_refl. reflexivity.
  - cbn [load_all].
    destruct (read_power_instruction_table to_number lines) as [df|e]; cbn [bind];
      [|reflexivity].
    rewrite <- (IH Hrest). rewrite without_key_dict_set.
    destruct (String.eqb_spec n fname); [contradiction|reflexivity].
Qed.

Lemma group_loop_without (dfs : dict DataFrame) :
  search_wavelength fname = None ->
  forall grouped,
    group_loop (without_key fname dfs) grouped = group_loop dfs grouped.
Proof.
  intros Hs. induction dfs as [|[n df] rest IH]; intros grouped; [reflexivity|].
  unfold without_key. cbn [filter fst group_loop]. fold (without_key fname rest).
  destruct (String.eqb_spec n fname) as [->|Hn]; cbn [negb].
  - rewrite Hs. apply IH.
  - cbn [group_loop]. destruct (search_wavelength n); apply IH.
Qed.

Lemma combined_of_without (files : list (string * list string)) :
  search_wavelength fname = None ->
  (forall lines, In (fname, lines) files -> parses to_number lines) ->
  combined_of to_number (without_key fname files) = combined_of to_number files.
Proof.
  intros Hs Hp. unfold combined_of.
  change (@nil (string * DataFrame)) with (without_key fname (@nil (string * DataFrame))) at 1.
  rewrite (load_all_without files Hp).
  destruct (load_all to_number files []) as [d|e]; cbn [bind]; [|reflexivity].
  now rewrite group_loop_without.
Qed.

Lemma load_all_raise (pre : list (string * list string)) (lines : list string)
      (post : list (string * list string)) (e : exn) :
  Forall (fun f => parses to_number (snd f)) pre ->
  read_power_instruction_table to_number lines = Raise e ->
  forall acc, load_all to_number (pre ++ (fname, lines) :: post) acc = Raise e.
Proof.
  intros Hpre Hr. induction Hpre as [|[n l] pre [df Hdf] _ IH]; intros acc.
  - cbn [app load_all]. now rewrite Hr.
  - cbn [app load_all]. cbn [snd] in Hdf. rewrite Hdf. cbn [bind]. apply IH.
Qed.

End Unmatched.

Lemma main_nonempty to_number b (files : list (string * list string)) :
  files <> [] ->
  main to_number b files
  = match combined_of to_number files with
    | Raise e => aborted e
    | Ok combined_all =>
        match export_results b combined_all with
        | Raise e => aborted e
        | Ok out =>
            let (charts, raised) := plot_wavelength_data combined_all in
            mkRun (sheets out) (csv_files out) charts
                  (export_console out
                   ++ map (fun c => SavedPlot (chart_wl c) (chart_file c)) charts)
                  raised
        end
    end.
Proof. destruct files; [congruence|reflexivity]. Qed.

(** C9 A file whose name holds no [_<digits>.csv] is read like any
    other: when the extractor fails on it the run ends with that
    failure.  When it parses it belongs to no group: the merged tables
    are those of the folder without the file, and the run writes the
    sheets, delimited files and charts, and ends the way, it would
    without the file; with other files in the folder the console output
    is the same too, and alone in the folder the file leaves nothing but
    the one line of the export stage. *)
Theorem unmatched_file_dropped (to_number : string -> option (option Z))
        (has_openpyxl : bool) (fname : string) :
  search_wavelength fname = None ->
  (forall pre lines post e,
      Forall (fun f => parses to_number (snd f)) pre ->
      read_power_instruction_table to_number lines = Raise e ->
      main to_number has_openpyxl (pre ++ (fname, lines) :: post) = aborted e)
  /\ (forall files,
         (forall lines, In (fname, lines) files -> parses to_number lines) ->
         let r := main to_number has_openpyxl files in
         let r' := main to_number has_openpyxl (without_key fname files) in
         combined_of to_number files
         = combined_of to_number (without_key fname files)
         /\ run_sheets r = run_sheets r'
         /\ run_csv_files r = run_csv_files r'
         /\ run_charts r = run_charts r'
         /\ run_raised r = run_raised r'
         /\ (without_key fname files <> [] -> r = r')
         /\ (without_key fname files = [] -> files <> [] ->
             run_console r
             = [if has_openpyxl then NoDataToExport else OpenpyxlNotInstalled])).
Proof.
  intros Hs. split.
  - intros pre lines post e Hpre Hr.
    rewrite main_nonempty by (destruct pre; discriminate).
    unfold combined_of.
    rewrite (load_all_raise to_number fname pre lines post e Hpre Hr). reflexivity.
  - intros files Hp r r'.
    pose proof (combined_of_without to_number fname files Hs Hp) as Hc.
    assert (files = [] \/ files <> []) as [->|Hne]
        by (destruct files; [now left|right; discriminate]).
    + subst r r'. cbn. repeat split; auto. intros _ H. congruence.
    + assert (without_key fname files = [] \/ without_key fname files <> [])
        as [Hw|Hw] by (destruct (without_key fname files); [now left|right; discriminate]).
      * assert (r = mkRun [] [] [] [if has_openpyxl then NoDataToExport
                                    else OpenpyxlNotInstalled] None) as Hr.
        { subst r. rewrite main_nonempty by exact Hne. rewrite <- Hc, Hw.
          destruct has_openpyxl; reflexivity. }
        subst r'. rewrite Hr. split; [now rewrite Hc|]. rewrite Hw. cbn.
        repeat split; auto. intros H. congruence.
      * assert (r = r') as Hr.
        { subst r r'. rewrite !main_nonempty by assumption. now rewrite Hc. }
        rewrite Hr. repeat split; auto. intros H. contradiction.
Qed.

(* ================================================================== *)
(** * A group without data *)

(** C1 fails at the plot stage.  In the folder of [example_files] the
    scan at 488 nm recorded no row, so its merged table is empty.  The
    export skips it, in the workbook and in the delimited files alike,
    but [plot_wavelength_data] has no such test: it saves
    [laser_power_488nm.png] for it, and on a group that has no table at
    all it raises. *)
Theorem empty_group_still_plotted :
  (exists combined_all df,
      combined_of int_literal example_files = Ok combined_all
      /\ dict_get "488" combined_all = Some (Some df)
      /\ empty df = true)
  /\ map fst (run_sheets (main int_literal true example_files)) = ["532nm"]
  /\ map fst (run_csv_files (main int_literal false example_files))
     = ["combined_532nm.csv"]
  /\ map chart_file (run_charts (main int_literal true example_files))
     = ["laser_power_488nm.png"; "laser_power_532nm.png"]
  /\ run_raised (main int_literal true example_files) = None
  /\ plot_wavelength_data [("488", None)] = ([], Some NoneAttributeError).
Proof.
  split.
  - eexists. eexists. split; [vm_compute; reflexivity|]. split; reflexivity.
  - vm_compute. repeat split.
Qed.

(* ================================================================== *)
(** * The theorems at work *)

Ltac absent_marker :=
  let line := fresh "line" in
  let H := fresh "H" in
  intros line H; cbn [In] in H;
  repeat (destruct H as [<-|H]; [apply not_contains_iff; reflexivity|]);
  destruct H.

Lemma extractor_returns_rows_example :
  exists df,
    read_power_instruction_table int_literal
      (example_log ["10;5;1"; "20;9;-1"]) = Ok df
    /\ List.length (rows df) = 2
    /\ List.length (columns df) = 3
    /\ Forall (fun r => List.length r = 3) (rows df).
Proof.
  apply (extractor_returns_rows int_literal
           [("Laser log" ++ nl)%string]
           ("Result table values" ++ nl)%string
           ("power_instruction;power;error" ++ nl)%string
           [("10;5;1" ++ nl)%string; ("20;9;-1" ++ nl)%string]
           [nl; ("time;stamp" ++ nl)%string]).
  - absent_marker.
  - apply contains_iff. reflexivity.
  - repeat constructor; discriminate.
  - right. exists nl, [("time;stamp" ++ nl)%string]. split; [reflexivity|].
    right. reflexivity.
Defined.

Lemma extra_fields_raise_example :
  exists had,
    read_power_instruction_table int_literal
      (example_log ["10;5;1"; "20;9;-1;7"])
    = Raise (ColumnCountError 3 had)
    /\ 3 < had.
Proof.
  apply (extra_fields_raise int_literal
           [("Laser log" ++ nl)%string]
           ("Result table values" ++ nl)%string
           ("power_instruction;power;error" ++ nl)%string
           [("10;5;1" ++ nl)%string; ("20;9;-1;7" ++ nl)%string; nl;
            ("time;stamp" ++ nl)%string]
           ["20"; "9"; "-1"; "7"]).
  - absent_marker.
  - apply contains_iff. reflexivity.
  - right. left. reflexivity.
  - apply Nat.ltb_lt. reflexivity.
Defined.

Lemma single_table_renamed_example :
  (let df := mkDF ["power_percentage_values"; "power"; "error"]
                     [[Num 10; Num 5; Num 1]; [Num 20; Num 9; Num 1]] in
      let T := mkDF ["power_percentage_values"; "07-25_power"; "07-25_error"]
                    [[Num 10; Num 5; Num 1]; [Num 20; Num 9; Num 1]] in
      combine_group [("07-25_scan_488.csv", df)] "488" = Ok (Some T)
      /\ columns T = map (renamed_label "07-25_scan_488.csv") (columns df)
      /\ rows T = sort_by (row_leb (key_position T))
                          (drop_duplicates (key_position T) (rows df))
      /\ (ascending (key_column (key_position T) (rows df)) -> rows T = rows df)).
Proof.
  intros df T. split; [reflexivity|].
  apply (single_table_renamed "07-25_scan_488.csv" "488" df T). reflexivity.
Defined.

Ltac well_formed_group :=
  repeat (apply Forall_cons; [split; [reflexivity|repeat constructor]|]);
  apply Forall_nil.

Lemma outer_join_example :
  combine_group example_group "488" = Ok (Some example_merged)
  /\ table_keys example_merged = [Num 1; Num 2; Num 3; Num 4]
  /\ NoDup (table_keys example_merged)
  /\ (forall c, In c (table_keys example_merged) <->
                exists it, In it example_group /\ In c (table_keys (snd it)))
  /\ Forall (fun row => List.length row = joined_width example_group)
            (rows example_merged)
  /\ (forall i it row p,
         nth_error example_group i = Some it ->
         In row (rows example_merged) ->
         ~ In (key_of (key_position example_merged) row) (table_keys (snd it)) ->
         joined_width (firstn i example_group) <= p
         < joined_width (firstn (S i) example_group) ->
         p <> key_position example_merged ->
         nth_error row p = Some NA).
Proof.
  split; [reflexivity|]. split; [reflexivity|].
  apply (outer_join_keeps_every_key example_group "488" example_merged).
  - well_formed_group.
  - reflexivity.
Defined.

Lemma dedup_keeps_first_example :
  rows_with_key (Num 10) repeated_merged = [[Num 10; Num 5; Num 1; Num 7; Num 1]].
Proof.
  eapply (dedup_keeps_first repeated_group "488"); reflexivity.
Defined.

Lemma merged_rows_ascending_example :
  ascending (table_keys repeated_merged)
  /\ (Forall (fun c => is_txt c = false) (table_keys repeated_merged)
      \/ Forall (fun c => is_num c = false) (table_keys repeated_merged)).
Proof.
  apply (merged_rows_ascending repeated_group "488" repeated_merged). reflexivity.
Defined.

Ltac distinct_keys :=
  repeat (apply NoDup_cons;
          [cbn [In]; let H := fresh in intros H;
           repeat (destruct H as [H|H]; [discriminate H|]); destruct H|]);
  apply NoDup_nil.


Lemma unmatched_file_dropped_example :
  search_wavelength "notes.csv" = None
  /\ main int_literal true example_files
     = main int_literal true (without_key "notes.csv" example_files).
Proof.
  split; [reflexivity|].
  destruct (unmatched_file_dropped int_literal true "notes.csv" eq_refl) as [_ H].
  destruct (H example_files) as (_ & _ & _ & _ & _ & Hsame & _).
  - intros lines Hin. cbn [example_files In] in Hin.
    repeat (destruct Hin as [Hin|Hin]; [try discriminate Hin|]); [|destruct Hin].
    injection Hin as <-. eexists. reflexivity.
  - apply Hsame. discriminate.
Defined.

(* ================================================================== *)
(** * The group keys of a run *)

Lemma span_digits_all (s : string) : all_digits (fst (span_digits s)) = true.
Proof.
  induction s as [|c r IH]; [reflexivity|]. cbn [span_digits].
  destruct (Py.is_digit c) eqn:E; [|reflexivity].
  destruct (span_digits r) as [ds rest]. cbn [fst all_digits] in *. now rewrite E, IH.
Qed.

Lemma search_wavelength_key (fname wl : string) :
  search_wavelength fname = Some wl -> wavelength_key wl.
Proof.
  induction fname as [|c r IH]; [discriminate|]. cbn [search_wavelength].
  destruct (Ascii.eqb c "_"); [|exact IH].
  pose proof (span_digits_all r) as Hd.
  destruct (span_digits r) as [ds rest]. cbn [fst] in Hd.
  destruct (negb (String.eqb ds "") && String.prefix ".csv" rest) eqn:E; [|exact IH].
  intros H. injection H as <-. apply andb_true_iff in E. destruct E as [E _].
  apply negb_true_iff, String.eqb_neq in E. now split.
Qed.

Lemma dict_set_keys_In {V : Type} (k k' : string) (v : V) (d : dict V) :
  In k' (dict_keys (dict_set k v d)) <-> k' = k \/ In k' (dict_keys d).
Proof.
  unfold dict_keys. induction d as [|[k0 v0] d IH]; cbn [dict_set map fst In].
  - intuition.
  - destruct (String.eqb_spec k0 k) as [->|Hne]; cbn [map fst In].
    + intuition.
    + rewrite IH. intuition.
Qed.

Lemma dict_set_keys_NoDup {V : Type} (k : string) (v : V) (d : dict V) :
  NoDup (dict_keys d) -> NoDup (dict_keys (dict_set k v d)).
Proof.
  induction d as [|[k0 v0] d IH]; cbn [dict_set].
  - intros _. repeat constructor. intros [].
  - unfold dict_keys in *. cbn [map fst]. intros H.
    inversion H as [|? ? Hk0 Hd]; subst.
    destruct (String.eqb_spec k0 k) as [->|Hne]; cbn [map fst].
    + now constructor.
    + constructor; [|now apply IH]. intros Hin.
      apply (dict_set_keys_In k k0 v d) in Hin. destruct Hin as [Heq|Hin]; auto.
Qed.

Lemma group_add_keys (wl fname : string) (df : DataFrame) (grouped : dict (dict DataFrame)) :
  wavelength_key wl ->
  NoDup (dict_keys grouped) /\ Forall wavelength_key (dict_keys grouped) ->
  NoDup (dict_keys (group_add wl fname df grouped))
  /\ Forall wavelength_key (dict_keys (group_add wl fname df grouped)).
Proof.
  intros Hwl [Hnd Hall]. unfold group_add.
  destruct (dict_get wl grouped); (split; [now apply dict_set_keys_NoDup|]);
    apply Forall_forall; intros k Hk; apply dict_set_keys_In in Hk;
    (destruct Hk as [->|Hk]; [exact Hwl|]); rewrite Forall_forall in Hall; auto.
Qed.

Lemma group_loop_keys (dfs : dict DataFrame) :
  forall grouped,
    NoDup (dict_keys grouped) /\ Forall wavelength_key (dict_keys grouped) ->
    NoDup (dict_keys (group_loop dfs grouped))
    /\ Forall wavelength_key (dict_keys (group_loop dfs grouped)).
Proof.
  induction dfs as [|[fname df] rest IH]; intros grouped H; [exact H|].
  cbn [group_loop]. destruct (search_wavelength fname) as [wl|] eqn:E; [|now apply IH].
  apply IH. apply group_add_keys; [|exact H]. now apply search_wavelength_key in E.
Qed.

Lemma combine_all_keys (grouped : dict (dict DataFrame)) :
  forall ca, combine_all grouped = Ok ca -> dict_keys ca = dict_keys grouped.
Proof.
  unfold combine_all, dict_keys.
  induction grouped as [|[wl d] rest IH]; intros ca; cbn [for_each].
  - intros H. injection H as <-. reflexivity.
  - cbn [fst snd]. destruct (combine_group d wl) as [c|]; cbn [bind]; [|discriminate].
    destruct (for_each _ rest) as [cs|] eqn:E; cbn [bind]; [|discriminate].
    intros H. injection H as <-. cbn [map fst]. f_equal. now apply IH.
Qed.

(** The mapping [main] hands to the export has one entry per wavelength
    found in the file names, each key a run of digits: what the
    statement about the workbook asks of it. *)
Lemma main_group_keys (to_number : string -> option (option Z))
      (files : list (string * list string)) (combined_all : dict (option DataFrame)) :
  combined_of to_number files = Ok combined_all ->
  NoDup (dict_keys combined_all) /\ Forall wavelength_key (dict_keys combined_all).
Proof.
  unfold combined_of. destruct (load_all to_number files []) as [dfs|]; cbn [bind];
    [|discriminate].
  intros H. apply combine_all_keys in H. rewrite H.
  apply group_loop_keys. split; constructor.
Qed.

(* ================================================================== *)
(** * The merge of a numeric group returns *)

Lemma add_suffix_nil (suffix c : string) : add_suffix [] suffix c = c.
Proof. reflexivity. Qed.

Lemma map_add_suffix_nil (suffix : string) (l : list string) :
  map (add_suffix [] suffix) l = l.
Proof. induction l as [|c l IH]; cbn [map]; [reflexivity|]. now rewrite IH. Qed.

Lemma new_duplicates_same (l : list string) :
  forall seen, new_duplicates l l seen seen = [].
Proof.
  induction l as [|c l IH]; intros seen; cbn [new_duplicates]; [reflexivity|].
  rewrite IH. destruct (in_dec string_dec c seen); reflexivity.
Qed.

Lemma dtype_clash_numeric (l r : list cell) :
  Forall (fun c => is_txt c = false) l ->
  Forall (fun c => is_txt c = false) r ->
  dtype_clash l r = false.
Proof.
  intros Hl Hr.
  assert (forall x, Forall (fun c => is_txt c = false) x -> text_keys x = false) as Ht.
  { intros x Hx. unfold text_keys.
    assert (existsb is_txt x = false) as ->; [|reflexivity].
    induction Hx as [|c cs Hc _ IH]; [reflexivity|]. cbn. now rewrite Hc, IH. }
  unfold dtype_clash. destruct l as [|a l]; [reflexivity|]. destruct r as [|b r]; [reflexivity|].
  rewrite (Ht _ Hl), (Ht _ Hr). now rewrite andb_false_r.
Qed.

Lemma In_firstn {A : Type} (n : nat) (l : list A) (x : A) :
  In x (firstn n l) -> In x l.
Proof.
  intros H. rewrite <- (firstn_skipn n l). apply in_or_app. now left.
Qed.

Lemma In_skipn {A : Type} (n : nat) (l : list A) (x : A) :
  In x (skipn n l) -> In x l.
Proof.
  intros H. rewrite <- (firstn_skipn n l). apply in_or_app. now right.
Qed.

Lemma rest_in_value_labels (cols : list string) (c : string) :
  In c (firstn (index_of key_name cols) cols ++ skipn (S (index_of key_name cols)) cols) ->
  count_occ string_dec cols key_name = 1 ->
  In c (filter (fun c => negb (String.eqb c key_name)) cols).
Proof.
  intros Hin Hone. apply filter_In. split.
  - apply in_app_or in Hin. destruct Hin as [H|H].
    + eapply In_firstn. exact H.
    + eapply In_skipn. exact H.
  - apply negb_true_iff, String.eqb_neq. intros ->.
    now apply (key_not_in_rest cols Hone).
Qed.

Lemma count_occ_rest (cols : list string) :
  count_occ string_dec cols key_name = 1 ->
  count_occ string_dec
            (firstn (index_of key_name cols) cols ++ skipn (S (index_of key_name cols)) cols)
            key_name = 0.
Proof.
  intros H. apply count_occ_not_In. now apply key_not_in_rest.
Qed.

(** A join with nothing to rename. *)
Lemma merge_outer_disjoint (left right : DataFrame) :
  has_one_key left -> has_one_key right ->
  Forall (fun c => is_txt c = false) (table_keys left) ->
  Forall (fun c => is_txt c = false) (table_keys right) ->
  (forall c, In c (columns left) -> In c (value_labels right) -> False) ->
  exists J,
    merge_outer left right = Ok J
    /\ has_one_key J
    /\ (forall c, In c (columns J) -> In c (columns left) \/ In c (value_labels right)).
Proof.
  intros Hl Hr Hkl Hkr Hdis. unfold merge_outer, key_index.
  unfold has_one_key in Hl, Hr. rewrite Hr, Hl. cbn [bind].
  fold (key_position left) (key_position right) (table_keys left) (table_keys right).
  rewrite (dtype_clash_numeric _ _ Hkl Hkr).
  set (rcols := firstn (key_position right) (columns right)
                ++ skipn (S (key_position right)) (columns right)).
  assert (forall c, In c rcols -> In c (value_labels right)) as Hrc.
  { intros c Hc. now apply rest_in_value_labels. }
  assert (filter (fun c => if in_dec string_dec c rcols then true else false)
                 (columns left) = []) as ->.
  { apply filter_nil_iff. intros c Hc.
    destruct (in_dec string_dec c rcols) as [Hin|]; [|reflexivity].
    exfalso. apply (Hdis c Hc). now apply Hrc. }
  rewrite !map_add_suffix_nil, !new_duplicates_same. cbn [app].
  eexists. split; [reflexivity|]. cbn [columns]. split.
  - unfold has_one_key. cbn [columns]. rewrite count_occ_app, Hl.
    unfold rcols, key_position. now rewrite count_occ_rest.
  - intros c Hc. apply in_app_or in Hc. destruct Hc as [Hc|Hc]; [now left|right; auto].
Qed.

Lemma numeric_group_app (g : list (string * DataFrame)) (it : string * DataFrame) :
  numeric_group (g ++ [it]) ->
  numeric_group g
  /\ has_one_key (snd it) /\ rectangular (snd it)
  /\ has_one_key (renamed it)
  /\ Forall (fun c => is_txt c = false) (table_keys (snd it))
  /\ (forall c, In c (flat_map (fun it => value_labels (renamed it)) g) ->
                In c (value_labels (renamed it)) -> False).
Proof.
  intros (H1 & H2 & H3 & H4).
  apply Forall_app in H1, H2, H3. destruct H1 as [H1 H1'], H2 as [H2 H2'], H3 as [H3 H3'].
  inversion H1' as [|? ? [Ha Hb] _]; subst. inversion H2'; subst. inversion H3'; subst.
  rewrite flat_map_app in H4. cbn [flat_map] in H4. rewrite app_nil_r in H4.
  split; [|repeat split; auto].
  - repeat split; auto. now apply NoDup_app_remove_r in H4.
  - intros c Hc Hc'. revert c Hc Hc'. clear -H4.
    induction (flat_map (fun it0 => value_labels (renamed it0)) g) as [|a l IH];
      intros c Hc Hc'; [destruct Hc|].
    cbn [app] in H4. inversion H4 as [|? ? Ha Hl]; subst.
    destruct Hc as [->|Hc].
    + apply Ha. apply in_or_app. now right.
    + now apply (IH Hl c).
Qed.

Lemma not_key_of_value_label (df : DataFrame) (c : string) :
  In c (value_labels df) -> c <> key_name.
Proof.
  unfold value_labels. intros H. apply filter_In in H. destruct H as [_ H].
  now apply negb_true_iff, String.eqb_neq in H.
Qed.

Lemma join_loop_returns (g : list (string * DataFrame)) :
  g <> [] -> numeric_group g ->
  exists J,
    join_loop g None = Ok (Some J)
    /\ has_one_key J
    /\ (forall c, In c (columns J) ->
                  c = key_name \/ In c (flat_map (fun it => value_labels (renamed it)) g)).
Proof.
  induction g as [|it g IH] using rev_ind; intros Hne Hg; [congruence|].
  apply numeric_group_app in Hg.
  destruct Hg as (Hg & Hone & Hrect & Hren & Hnum & Hdis).
  rewrite join_loop_app, flat_map_app. cbn [flat_map]. rewrite app_nil_r.
  destruct g as [|it0 g'] eqn:Eg.
  - cbn [join_loop bind combine_step]. exists (renamed it). split; [reflexivity|].
    split; [exact Hren|]. intros c Hc. cbn [flat_map app].
    destruct (String.eqb_spec c key_name) as [->|Hk]; [now left|right].
    unfold value_labels. apply filter_In. split; [exact Hc|].
    now apply negb_true_iff, String.eqb_neq.
  - rewrite <- Eg in *. assert (g <> []) as Hgne by (rewrite Eg; discriminate).
    destruct (IH Hgne Hg) as (J0 & HJ0 & Hone0 & Hcols0).
    rewrite HJ0. cbn [bind combine_step]. fold (renamed it).
    destruct Hg as (Hwf & _ & Hnums & _).
    pose proof (join_loop_invariant g J0 Hwf HJ0 Hone0) as (_ & _ & _ & Hkeys & _).
    destruct (merge_outer_disjoint J0 (renamed it)) as (J & HJ & HoneJ & HcolsJ); auto.
    + apply Forall_forall. intros c Hc. apply Hkeys in Hc.
      destruct Hc as [it' [Hit' Hc]]. rewrite Forall_forall in Hnums.
      specialize (Hnums it' Hit'). rewrite Forall_forall in Hnums. now apply Hnums.
    + unfold renamed in *. unfold table_keys.
      rewrite (renamed_key_position _ _ Hone Hren). exact Hnum.
    + intros c Hc Hc'. apply Hcols0 in Hc. destruct Hc as [->|Hc].
      * now apply not_key_of_value_label in Hc'.
      * now apply (Hdis c).
    + rewrite HJ. cbn [bind]. exists J. split; [reflexivity|]. split; [exact HoneJ|].
      intros c Hc. apply HcolsJ in Hc. destruct Hc as [Hc|Hc].
      * apply Hcols0 in Hc. destruct Hc as [->|Hc]; [now left|right].
        apply in_or_app. now left.
      * right. apply in_or_app. now right.
Qed.

(** On a numeric group that is not empty [combine_group] raises nothing:
    it returns the merged table. *)
Lemma combine_group_returns (g : list (string * DataFrame)) (wl : string) :
  g <> [] -> numeric_group g ->
  exists T, combine_group g wl = Ok (Some T).
Proof.
  intros Hne Hg. destruct (join_loop_returns g Hne Hg) as (J & HJ & Hone & _).
  destruct Hg as (Hwf & _ & Hnums & _).
  pose proof (join_loop_invariant g J Hwf HJ Hone) as (_ & _ & _ & Hkeys & _).
  unfold combine_group. rewrite HJ. cbn [bind].
  unfold dedup_sort, key_index. unfold has_one_key in Hone. rewrite Hone. cbn [bind].
  fold (key_position J). unfold sort_values.
  assert (sortable (key_column (key_position J)
                               (drop_duplicates (key_position J) (rows J))) = true) as ->.
  { unfold sortable. apply negb_true_iff, andb_false_iff. right.
    destruct (existsb is_txt _) eqn:E; [|reflexivity]. exfalso.
    apply existsb_exists in E. destruct E as [c [Hc Ht]].
    unfold drop_duplicates in Hc. apply drop_duplicates_from_keys in Hc.
    destruct Hc as [Hc _]. apply Hkeys in Hc. destruct Hc as [it [Hit Hc]].
    rewrite Forall_forall in Hnums. specialize (Hnums it Hit).
    rewrite Forall_forall in Hnums. rewrite (Hnums c Hc) in Ht. discriminate. }
  cbn [bind]. eauto.
Qed.

Example example_group_is_numeric : example_group <> [] /\ numeric_group example_group.
Proof.
  split; [discriminate|]. repeat split.
  - well_formed_group.
  - repeat (apply Forall_cons; [reflexivity|]). apply Forall_nil.
  - repeat constructor.
  - distinct_keys.
Qed.

(* ================================================================== *)
(** * More on the extractor *)

(** X1 When the first line that holds the marker is the last line of the
    file there is no header line to read: the extractor raises the
    [IndexError] of [lines[start_idx]], not its own error. *)
Theorem marker_on_last_line (to_number : string -> option (option Z))
        (pre : list string) (m : string) :
  (forall line, In line pre -> ~ occurs_in marker line) ->
  occurs_in marker m ->
  read_power_instruction_table to_number (pre ++ [m]) = Raise HeaderIndexError.
Proof.
  intros Hpre Hm. unfold read_power_instruction_table.
  rewrite (find_start_app pre m [] 0).
  - assert (nth_error (pre ++ [m]) (0 + List.length pre + 1) = None) as ->; [|reflexivity].
    apply nth_error_None. rewrite length_app. cbn. lia.
  - intros line Hin. apply not_contains_iff. now apply Hpre.
  - now apply contains_iff.
Qed.

Lemma marker_on_last_line_example :
  read_power_instruction_table int_literal
    [("Laser log" ++ nl)%string; "Result table values"] = Raise HeaderIndexError.
Proof.
  apply (marker_on_last_line int_literal [("Laser log" ++ nl)%string]
                             "Result table values").
  - absent_marker.
  - apply contains_iff. reflexivity.
Defined.

Lemma split_not_nil (sep : ascii) (s : string) : Py.split sep s <> [].
Proof.
  induction s as [|c r IH]; cbn [Py.split]; [discriminate|].
  destruct (Ascii.eqb c sep); [discriminate|].
  destruct (Py.split sep r); [congruence|discriminate].
Qed.

Lemma make_frame_shape (data : list (list string)) (header : list string) (df : DataFrame) :
  make_frame data header = Ok df ->
  columns df = header
  /\ List.length (rows df) = List.length data
  /\ Forall (fun r => List.length r = List.length header) (rows df).
Proof.
  unfold make_frame. destruct data as [|d ds].
  - intros H. injection H as <-. cbn. auto.
  - destruct (_ =? _) eqn:Q; [|discriminate]. apply Nat.eqb_eq in Q.
    intros H. injection H as <-.
    split; [reflexivity|].
    split; [exact (length_map (pad_row (max_width (d :: ds))) (d :: ds))|].
    apply (proj2 (Forall_map (pad_row (max_width (d :: ds))) _ (d :: ds))).
    apply Forall_forall. intros r Hr.
    rewrite <- Q. apply pad_row_length. now apply max_width_le.
Qed.

(** X3 Whatever the file, a table the extractor returns is rectangular,
    has at least one column, and has no column called
    [power_instruction]: that label has become
    [power_percentage_values]. *)
Theorem extractor_table_shape (to_number : string -> option (option Z))
        (lines : list string) (df : DataFrame) :
  read_power_instruction_table to_number lines = Ok df ->
  rectangular df
  /\ columns df <> []
  /\ ~ In "power_instruction" (columns df).
Proof.
  unfold read_power_instruction_table.
  destruct (find_start lines 0) as [start|]; [|discriminate].
  destruct (nth_error lines start) as [h|]; [|discriminate].
  destruct (make_frame _ _) as [raw|] eqn:F; cbn [bind]; [|discriminate].
  intros H. injection H as <-.
  apply make_frame_shape in F. destruct F as (Hc & _ & Hr).
  destruct (coerce_columns_shape to_number (rename_instruction raw)
              (List.length (Py.split ";" (Py.strip h)))) as (Hc' & _ & Hr').
  - cbn. now rewrite length_map, Hc.
  - exact Hr.
  - unfold rectangular. rewrite Hc'. cbn [rename_instruction columns].
    rewrite length_map, Hc. split; [exact Hr'|]. split.
    + pose proof (split_not_nil ";" (Py.strip h)) as Hne.
      destruct (Py.split ";" (Py.strip h)); [congruence|discriminate].
    + intros Hin. apply in_map_iff in Hin. destruct Hin as [c [Heq _]].
      destruct (String.eqb_spec c "power_instruction") as [Hpi|Hne];
        [discriminate Heq|congruence].
Qed.

Lemma extractor_table_shape_example :
  exists df,
    read_power_instruction_table int_literal (example_log ["10;5;1"]) = Ok df
    /\ rectangular df /\ columns df <> [] /\ ~ In "power_instruction" (columns df).
Proof.
  eexists. split; [reflexivity|].
  apply (extractor_table_shape int_literal (example_log ["10;5;1"])). reflexivity.
Defined.

(** X4 The labels of the returned table are the fields of the header
    line, in order, [power_instruction] replaced by
    [power_percentage_values]; and the table has one row per collected
    row. *)
Theorem extractor_labels (to_number : string -> option (option Z))
        (pre : list string) (m h : string) (body : list string) (df : DataFrame) :
  (forall line, In line pre -> ~ occurs_in marker line) ->
  occurs_in marker m ->
  read_power_instruction_table to_number (pre ++ m :: h :: body) = Ok df ->
  columns df = header_labels h
  /\ List.length (rows df) = List.length (collect_rows body).
Proof.
  intros Hpre Hm. rewrite read_layout by assumption.
  destruct (make_frame _ _) as [raw|] eqn:F; cbn [bind]; [|discriminate].
  intros H. injection H as <-. apply make_frame_shape in F. destruct F as (Hc & Hn & _).
  cbn [coerce_columns columns rows rename_instruction]. rewrite length_map, Hc.
  split; [reflexivity|exact Hn].
Qed.

Lemma extractor_labels_example :
  exists df,
    read_power_instruction_table int_literal (example_log ["10;5;1"]) = Ok df
    /\ columns df = ["power_percentage_values"; "power"; "error"]
    /\ List.length (rows df) = 1.
Proof.
  eexists. split; [reflexivity|].
  apply (extractor_labels int_literal [("Laser log" ++ nl)%string]
           ("Result table values" ++ nl)%string
           ("power_instruction;power;error" ++ nl)%string
           [("10;5;1" ++ nl)%string; nl; ("time;stamp" ++ nl)%string]).
  - absent_marker.
  - apply contains_iff. reflexivity.
  - reflexivity.
Defined.

Lemma coerce_row_nth to_number (flags : list bool) :
  forall (r : list cell) (j : nat),
    List.length flags = List.length r -> j < List.length r ->
    nth_error (coerce_row to_number flags r) j
    = Some (if nth j flags false
            then match numeric_cell to_number (nth j r NA) with
                 | Some c => c
                 | None => nth j r NA
                 end
            else nth j r NA).
Proof.
  unfold coerce_row.
  induction flags as [|f flags IH]; intros [|c r] j Hlen Hj; cbn in Hlen, Hj; try lia.
  destruct j as [|j]; [reflexivity|]. cbn [combine map nth_error nth].
  apply IH; lia.
Qed.

Lemma nth_pad_row (k : nat) (raw : list string) (p : nat) :
  List.length raw <= p -> nth p (pad_row k raw) NA = NA.
Proof.
  intros H. unfold pad_row. rewrite app_nth2 by (rewrite length_map; lia).
  destruct (nth_in_or_default (p - List.length (map Txt raw))
                              (repeat NA (k - List.length raw)) NA) as [Hin|Hd];
    [|exact Hd].
  now apply repeat_spec in Hin.
Qed.

Lemma max_width_exact (data : list (list string)) (w : nat) :
  Forall (fun r => List.length r <= w) data ->
  Exists (fun r => List.length r = w) data ->
  max_width data = w.
Proof.
  intros Hall.
  assert (max_width data <= w) as Hle.
  { induction Hall as [|d ds Hd _ IH]; cbn [max_width fold_right]; [lia|].
    fold (max_width ds). lia. }
  intros Hex. apply Exists_exists in Hex. destruct Hex as [r [Hin Hr]].
  pose proof (max_width_le data r Hin). lia.
Qed.

(** X5 Rows with fewer fields than the header do not stop the
    extractor as long as no row has more and one row has as many: the
    table has one row per collected row, and a short row holds a missing
    value at every position past its fields. *)
Theorem short_rows_padded (to_number : string -> option (option Z))
        (pre : list string) (m h : string) (body : list string) :
  (forall line, In line pre -> ~ occurs_in marker line) ->
  occurs_in marker m ->
  Forall (fun r => List.length r <= List.length (fields h)) (collect_rows body) ->
  Exists (fun r => List.length r = List.length (fields h)) (collect_rows body) ->
  exists df,
    read_power_instruction_table to_number (pre ++ m :: h :: body) = Ok df
    /\ List.length (rows df) = List.length (collect_rows body)
    /\ (forall i raw row p,
           nth_error (collect_rows body) i = Some raw ->
           nth_error (rows df) i = Some row ->
           List.length raw <= p < List.length (fields h) ->
           nth_error row p = Some NA).
Proof.
  intros Hpre Hm Hall Hex. rewrite read_layout by assumption.
  set (w := List.length (fields h)) in *. set (data := collect_rows body) in *.
  assert (make_frame data (fields h) = Ok (mkDF (fields h) (map (pad_row w) data))) as ->.
  { unfold make_frame. destruct data as [|d ds] eqn:E; [reflexivity|].
    rewrite <- E in *. rewrite (max_width_exact data w Hall Hex).
    fold w. now rewrite Nat.eqb_refl. }
  cbn [bind]. eexists. split; [reflexivity|].
  cbn [coerce_columns rename_instruction columns rows].
  split; [now rewrite !length_map|].
  intros i raw row p Hraw Hrow Hp.
  rewrite nth_error_map, nth_error_map, Hraw in Hrow. cbn [option_map] in Hrow.
  injection Hrow as <-.
  assert (List.length raw <= w) as Hraw_le.
  { rewrite Forall_forall in Hall. apply Hall. eapply nth_error_In. exact Hraw. }
  rewrite coerce_row_nth.
  - rewrite (nth_pad_row w raw p) by lia. cbn. now destruct (nth p _ false).
  - rewrite !length_map, length_seq, pad_row_length by exact Hraw_le. reflexivity.
  - rewrite pad_row_length by exact Hraw_le. lia.
Qed.

Lemma short_rows_padded_example :
  exists df,
    read_power_instruction_table int_literal (example_log ["10;5;1"; "20"]) = Ok df
    /\ List.length (rows df) = 2
    /\ (forall i raw row p,
           nth_error [["10"; "5"; "1"]; ["20"]] i = Some raw ->
           nth_error (rows df) i = Some row ->
           List.length raw <= p < 3 ->
           nth_error row p = Some NA).
Proof.
  apply (short_rows_padded int_literal [("Laser log" ++ nl)%string]
           ("Result table values" ++ nl)%string
           ("power_instruction;power;error" ++ nl)%string
           [("10;5;1" ++ nl)%string; ("20" ++ nl)%string; nl;
            ("time;stamp" ++ nl)%string]).
  - absent_marker.
  - apply contains_iff. reflexivity.
  - repeat constructor.
  - left. reflexivity.
Defined.

Lemma max_width_attained (data : list (list string)) :
  data <> [] -> exists r, In r data /\ List.length r = max_width data.
Proof.
  induction data as [|d ds IH]; [congruence|]. intros _.
  destruct ds as [|d' ds'].
  - exists d. split; [now left|]. cbn. lia.
  - destruct IH as [r [Hin Hr]]; [discriminate|].
    change (max_width (d :: d' :: ds'))
      with (Nat.max (List.length d) (max_width (d' :: ds'))).
    destruct (Nat.le_ge_cases (List.length d) (max_width (d' :: ds'))) as [Hle|Hge].
    + exists r. split; [now right|]. lia.
    + exists d. split; [now left|]. lia.
Qed.

(** X2 After the marker line and the header line, the extractor returns
    a table exactly when no row is collected, or no collected row has
    more fields than the header and one has as many.  Otherwise
    [pd.DataFrame] raises: rows that are all shorter than the header are
    refused like a row that is longer, and the error reports the width
    of the header and that of a longest row. *)
Theorem table_returned_iff (to_number : string -> option (option Z))
        (pre : list string) (m h : string) (body : list string) :
  (forall line, In line pre -> ~ occurs_in marker line) ->
  occurs_in marker m ->
  ((exists df, read_power_instruction_table to_number (pre ++ m :: h :: body) = Ok df)
   <-> collect_rows body = []
       \/ (Forall (fun r => List.length r <= List.length (fields h)) (collect_rows body)
           /\ Exists (fun r => List.length r = List.length (fields h)) (collect_rows body)))
  /\ (forall e,
        read_power_instruction_table to_number (pre ++ m :: h :: body) = Raise e ->
        exists r,
          In r (collect_rows body)
          /\ List.length r <> List.length (fields h)
          /\ Forall (fun r' => List.length r' <= List.length r) (collect_rows body)
          /\ e = ColumnCountError (List.length (fields h)) (List.length r)).
Proof.
  intros Hpre Hm. rewrite (read_layout to_number pre m h body Hpre Hm).
  unfold make_frame. destruct (collect_rows body) as [|d ds] eqn:R.
  - cbn [bind]. split; [|discriminate]. split; [now left|eauto].
  - rewrite <- R.
    assert (collect_rows body <> []) as Hne by (rewrite R; discriminate).
    destruct (max_width_attained (collect_rows body) Hne) as [r [Hin Hr]].
    assert (Forall (fun r' => List.length r' <= max_width (collect_rows body))
                   (collect_rows body)) as Hall
        by (apply Forall_forall; intros r' Hr'; now apply max_width_le).
    destruct (max_width (collect_rows body) =? List.length (fields h)) eqn:Q; cbn [bind].
    + apply Nat.eqb_eq in Q. split; [|discriminate]. split; [|eauto].
      intros _. right. rewrite <- Q. split; [exact Hall|].
      apply Exists_exists. eauto.
    + apply Nat.eqb_neq in Q. split.
      * split; [intros [df H]; discriminate H|].
        intros [H|[H1 H2]]; [contradiction|].
        exfalso. apply Q. now apply max_width_exact.
      * intros e H. injection H as <-. exists r. rewrite Hr. auto.
Qed.

(** A log whose only row has two fields under a header of three. *)
Lemma table_returned_iff_example :
  read_power_instruction_table int_literal (example_log ["10;5"])
  = Raise (ColumnCountError 3 2)
  /\ ((exists df, read_power_instruction_table int_literal (example_log ["10;5"]) = Ok df)
      <-> [["10"; "5"]] = []
          \/ (Forall (fun r : list string => List.length r <= 3) [["10"; "5"]]
              /\ Exists (fun r : list string => List.length r = 3) [["10"; "5"]]))
  /\ (forall e,
        read_power_instruction_table int_literal (example_log ["10;5"]) = Raise e ->
        exists r,
          In r [["10"; "5"]]
          /\ List.length r <> 3
          /\ Forall (fun r' : list string => List.length r' <= List.length r) [["10"; "5"]]
          /\ e = ColumnCountError 3 (List.length r)).
Proof.
  split; [reflexivity|].
  apply (table_returned_iff int_literal [("Laser log" ++ nl)%string]
           ("Result table values" ++ nl)%string
           ("power_instruction;power;error" ++ nl)%string
           [("10;5" ++ nl)%string; nl; ("time;stamp" ++ nl)%string]).
  - absent_marker.
  - apply contains_iff. reflexivity.
Defined.

Lemma traverse_Some_all {A B : Type} (f : A -> option B) (l : list A) (l' : list B) :
  traverse f l = Some l' -> forall a, In a l -> exists b, f a = Some b.
Proof.
  revert l'. induction l as [|x l IH]; intros l' H a Hin; [destruct Hin|].
  cbn [traverse] in H. destruct (f x) as [b|] eqn:Fx; [|discriminate].
  destruct (traverse f l) as [bs|]; [|discriminate].
  destruct Hin as [<-|Hin]; [eauto|]. now apply (IH bs).
Qed.

Lemma numeric_cell_not_txt to_number (c c' : cell) :
  numeric_cell to_number c = Some c' -> is_txt c' = false.
Proof.
  destruct c as [z|s|]; cbn.
  - intros H. injection H as <-. reflexivity.
  - destruct (to_number s) as [[z|]|]; [| |discriminate];
      intros H; injection H as <-; reflexivity.
  - intros H. injection H as <-. reflexivity.
Qed.

(** X6 Coercion is by whole columns.  In the returned table a column
    either holds no text at all, or is cell for cell what was read from
    the file; it is the latter as soon as one of its fields is not a
    numeric literal. *)
Theorem coercion_all_or_nothing (to_number : string -> option (option Z))
        (pre : list string) (m h : string) (body : list string) (df : DataFrame)
        (j : nat) :
  (forall line, In line pre -> ~ occurs_in marker line) ->
  occurs_in marker m ->
  read_power_instruction_table to_number (pre ++ m :: h :: body) = Ok df ->
  j < List.length (columns df) ->
  (Forall (fun c => is_txt c = false) (column_at j (rows df))
   \/ column_at j (rows df) = column_at j (raw_rows h body))
  /\ ((exists s, In (Txt s) (column_at j (raw_rows h body)) /\ to_number s = None) ->
      column_at j (rows df) = column_at j (raw_rows h body)).
Proof.
  intros Hpre Hm. rewrite read_layout by assumption.
  destruct (make_frame _ _) as [raw|] eqn:F; cbn [bind]; [|discriminate].
  intros H Hj. injection H as <-.
  pose proof (make_frame_shape _ _ _ F) as (Hc & _ & Hr).
  assert (rows raw = raw_rows h body) as Hraw.
  { unfold make_frame in F. unfold raw_rows. destruct (collect_rows body) as [|d ds] eqn:E.
    - injection F as <-. reflexivity.
    - rewrite <- E in *. destruct (_ =? _) eqn:Q; [|discriminate].
      apply Nat.eqb_eq in Q. injection F as <-. cbn [rows]. now rewrite Q. }
  rewrite <- Hraw.
  set (w := List.length (fields h)) in *.
  set (named := rename_instruction raw) in *.
  assert (List.length (columns named) = w) as Hwn
      by (unfold named; cbn; now rewrite length_map, Hc).
  unfold coerce_columns in *. cbn [columns rows] in *. rewrite Hwn in *.
  change (rows named) with (rows raw).
  set (flags := map (coercible to_number named) (seq 0 w)).
  assert (forall r, In r (rows raw) ->
                    nth j (coerce_row to_number flags r) NA
                    = if coercible to_number named j
                      then match numeric_cell to_number (nth j r NA) with
                           | Some c => c
                           | None => nth j r NA
                           end
                      else nth j r NA) as Hcell.
  { intros r Hin. rewrite Forall_forall in Hr. specialize (Hr r Hin). fold w in Hr.
    apply nth_error_nth.
    rewrite coerce_row_nth by (unfold flags; rewrite ?length_map, ?length_seq; lia).
    f_equal. unfold flags.
    rewrite (nth_indep _ false (coercible to_number named 0))
      by (rewrite length_map, length_seq; lia).
    rewrite map_nth, seq_nth by lia. reflexivity. }
  assert (column_at j (map (coerce_row to_number flags) (rows raw))
          = map (fun r => if coercible to_number named j
                          then match numeric_cell to_number (nth j r NA) with
                               | Some c => c
                               | None => nth j r NA
                               end
                          else nth j r NA) (rows raw)) as Hcol.
  { unfold column_at. rewrite map_map. apply map_ext_in. exact Hcell. }
  rewrite Hcol. clear Hcol Hcell.
  destruct (coercible to_number named j) eqn:Hflag.
  - unfold coercible in Hflag. destruct (nth_error (columns named) j); [|discriminate].
    apply andb_true_iff in Hflag. destruct Hflag as [_ Ht].
    change (rows named) with (rows raw) in Ht.
    destruct (traverse (numeric_cell to_number) (column_at j (rows raw))) as [cs|] eqn:T;
      [|discriminate].
    pose proof (traverse_Some_all _ _ _ T) as Hall.
    split.
    + left. rewrite Forall_map. apply Forall_forall. intros r Hin.
      destruct (Hall (nth j r NA)) as [c Hcn].
      { unfold column_at. now apply (in_map (fun r => nth j r NA)). }
      rewrite Hcn. now apply numeric_cell_not_txt in Hcn.
    + intros [txt [Hin Hs]]. exfalso. destruct (Hall (Txt txt) Hin) as [c Hcn].
      cbn in Hcn. now rewrite Hs in Hcn.
  - split; [right|intros _]; reflexivity.
Qed.

Lemma coercion_all_or_nothing_example :
  exists df,
    read_power_instruction_table int_literal (example_log ["10;5;1"; "20;x;3"]) = Ok df
    /\ (Forall (fun c => is_txt c = false) (column_at 1 (rows df))
        \/ column_at 1 (rows df) = [Txt "5"; Txt "x"])
    /\ ((exists s, In (Txt s) [Txt "5"; Txt "x"] /\ int_literal s = None) ->
        column_at 1 (rows df) = [Txt "5"; Txt "x"]).
Proof.
  eexists. split; [reflexivity|].
  apply (coercion_all_or_nothing int_literal [("Laser log" ++ nl)%string]
           ("Result table values" ++ nl)%string
           ("power_instruction;power;error" ++ nl)%string
           [("10;5;1" ++ nl)%string; ("20;x;3" ++ nl)%string; nl;
            ("time;stamp" ++ nl)%string] _ 1).
  - absent_marker.
  - apply contains_iff. reflexivity.
  - reflexivity.
  - apply Nat.ltb_lt. reflexivity.
Defined.

(* ================================================================== *)
(** * More on the merge *)

(** X7 [combine_group] returns [None] for the empty group and for no
    other: a group with a table in it yields a table or an exception. *)
Theorem merged_absent_iff_empty_group (g : list (string * DataFrame)) (wl : string) :
  combine_group g wl = Ok None <-> g = [].
Proof.
  split.
  - unfold combine_group. destruct (join_loop g None) as [[J|]|] eqn:E; cbn [bind].
    + destruct (dedup_sort J); cbn [bind]; discriminate.
    + intros _. now apply join_loop_none.
    + discriminate.
  - intros ->. reflexivity.
Qed.

Lemma join_loop_keys_checked (g : list (string * DataFrame)) :
  forall J,
    join_loop g None = Ok (Some J) -> has_one_key J ->
    Forall (fun it => has_one_key (renamed it)) g.
Proof.
  induction g as [|it g IH] using rev_ind; intros J Hloop HJ; [constructor|].
  rewrite join_loop_app in Hloop.
  destruct (join_loop g None) as [[J0|]|] eqn:E; cbn [bind] in Hloop; [| |discriminate].
  - cbn [combine_step] in Hloop.
    destruct (merge_outer J0 _) as [m|] eqn:M; cbn [bind] in Hloop; [|discriminate].
    apply merge_outer_inv in M. destruct M as (H0 & Hr & _).
    apply Forall_app. split; [now apply (IH J0)|]. now constructor.
  - apply join_loop_none in E. subst g. cbn [combine_step] in Hloop.
    injection Hloop as <-. cbn [app]. now constructor.
Qed.

(** X8 The merge returns a table only when every table of the group,
    once its labels are prefixed, bears the key label on exactly one
    column; with a table that lacks the key column, or has it twice, the
    merge raises. *)
Theorem merged_needs_key (g : list (string * DataFrame)) (wl : string) (T : DataFrame) :
  combine_group g wl = Ok (Some T) ->
  Forall (fun it => has_one_key (renamed it)) g.
Proof.
  intros HT. apply combine_group_inv in HT. destruct HT as (J & HJ & Hone & _).
  now apply (join_loop_keys_checked g J).
Qed.

Lemma merged_needs_key_example :
  Forall (fun it => has_one_key (renamed it)) example_group.
Proof.
  apply (merged_needs_key example_group "488" example_merged). reflexivity.
Defined.

Lemma rest_eq_value_labels (cols : list string) :
  count_occ string_dec cols key_name = 1 ->
  firstn (index_of key_name cols) cols ++ skipn (S (index_of key_name cols)) cols
  = filter (fun c => negb (String.eqb c key_name)) cols.
Proof.
  induction cols as [|c r IH]; cbn [count_occ index_of filter]; [lia|].
  destruct (String.eqb_spec c key_name) as [->|Hc].
  - destruct (string_dec key_name key_name); [|congruence]. intros H.
    cbn [firstn skipn app negb].
    assert (~ In key_name r) as Hnot by (apply (count_occ_not_In string_dec); lia).
    symmetry. clear -Hnot. induction r as [|x r IH]; [reflexivity|].
    cbn [filter]. destruct (String.eqb_spec x key_name) as [->|Hx].
    + exfalso. apply Hnot. now left.
    + cbn [negb]. f_equal. apply IH. intros Hin. apply Hnot. now right.
  - destruct (string_dec c key_name); [contradiction|]. intros H.
    cbn [firstn skipn app negb]. f_equal. now apply IH.
Qed.

Lemma merge_outer_columns (left right J : DataFrame) :
  merge_outer left right = Ok J ->
  (forall c, In c (columns left) -> In c (value_labels right) -> False) ->
  columns J = columns left ++ value_labels right.
Proof.
  unfold merge_outer.
  destruct (key_index (columns right)) as [kr|] eqn:Kr; cbn [bind]; [|discriminate].
  destruct (key_index (columns left)) as [kl|] eqn:Kl; cbn [bind]; [|discriminate].
  apply key_index_ok in Kr, Kl. destruct Kr as [-> Hr], Kl as [-> Hl].
  destruct (dtype_clash _ _); [discriminate|].
  rewrite (rest_eq_value_labels _ Hr). fold (value_labels right).
  intros H Hdis.
  assert (filter (fun c => if in_dec string_dec c (value_labels right) then true else false)
                 (columns left) = []) as Hov.
  { apply filter_nil_iff. intros c Hc.
    destruct (in_dec string_dec c (value_labels right)) as [Hin|]; [|reflexivity].
    exfalso. now apply (Hdis c). }
  rewrite Hov, !map_add_suffix_nil, !new_duplicates_same in H. cbn [app] in H.
  injection H as <-. reflexivity.
Qed.

Lemma columns_key_or_value (df : DataFrame) (c : string) :
  In c (columns df) -> c = key_name \/ In c (value_labels df).
Proof.
  intros Hc. destruct (String.eqb_spec c key_name) as [->|Hk]; [now left|right].
  unfold value_labels. apply filter_In. split; [exact Hc|].
  now apply negb_true_iff, String.eqb_neq.
Qed.

Lemma NoDup_app_disjoint {A : Type} (l l' : list A) (x : A) :
  NoDup (l ++ l') -> In x l -> In x l' -> False.
Proof.
  induction l as [|a l IH]; cbn [app]; [intros _ []|].
  intros H [->|Hin] Hin'; inversion H as [|? ? Ha Hl]; subst.
  - apply Ha. apply in_or_app. now right.
  - now apply IH.
Qed.

Lemma join_loop_labels (g : list (string * DataFrame)) :
  forall J,
    NoDup (flat_map (fun it => value_labels (renamed it)) g) ->
    join_loop g None = Ok (Some J) ->
    columns J = joined_labels g.
Proof.
  induction g as [|it g IH] using rev_ind; intros J Hnd Hloop; [discriminate|].
  rewrite join_loop_app in Hloop. rewrite flat_map_app in Hnd.
  cbn [flat_map] in Hnd. rewrite app_nil_r in Hnd.
  destruct (join_loop g None) as [[J0|]|] eqn:E; cbn [bind] in Hloop; [| |discriminate].
  - cbn [combine_step] in Hloop. fold (renamed it) in Hloop.
    destruct (merge_outer J0 (renamed it)) as [m|] eqn:M; cbn [bind] in Hloop;
      [|discriminate].
    injection Hloop as ->.
    pose proof (IH J0 (NoDup_app_remove_r _ _ Hnd) eq_refl) as Hc0.
    destruct g as [|first rest]; [discriminate E|].
    cbn [joined_labels app] in Hc0 |- *.
    rewrite flat_map_app. cbn [flat_map]. rewrite app_nil_r, app_assoc, <- Hc0.
    apply merge_outer_columns; [exact M|].
    intros c Hc Hc'. rewrite Hc0 in Hc. apply in_app_or in Hc.
    assert (In c (flat_map (fun it0 => value_labels (renamed it0)) (first :: rest))) as Hin.
    { cbn [flat_map]. apply in_or_app. destruct Hc as [Hc|Hc]; [left|now right].
      apply columns_key_or_value in Hc. destruct Hc as [->|Hc]; [|exact Hc].
      now apply not_key_of_value_label in Hc'. }
    now apply (NoDup_app_disjoint _ _ c Hnd).
  - apply join_loop_none in E. subst g. cbn [combine_step] in Hloop.
    injection Hloop as <-. cbn. now rewrite app_nil_r.
Qed.

(** X9 When no value label is borne twice once the dates are prefixed,
    the merged table has the labels of the first table followed by the
    value labels of the second, of the third, and so on: no [_x] or [_y]
    is appended and the key column stays once, where the first table has
    it. *)
Theorem merged_labels (g : list (string * DataFrame)) (wl : string) (T : DataFrame) :
  NoDup (flat_map (fun it => value_labels (renamed it)) g) ->
  combine_group g wl = Ok (Some T) ->
  columns T = joined_labels g.
Proof.
  intros Hnd HT. apply combine_group_inv in HT. destruct HT as (J & HJ & _ & _ & ->).
  cbn [columns]. now apply join_loop_labels.
Qed.

Lemma merged_labels_example :
  columns example_merged
  = ["power_percentage_values"; "07-25_power"; "07-25_error";
     "08-10_power"; "08-10_error"]
  /\ columns example_merged = joined_labels example_group.
Proof.
  split; [reflexivity|].
  apply (merged_labels example_group "488" example_merged); [distinct_keys|reflexivity].
Defined.

Lemma key_column_nil_iff (k : nat) (rs : list (list cell)) :
  rs = [] <-> forall c, ~ In c (key_column k rs).
Proof.
  split; [intros -> c []|]. destruct rs as [|r rs]; [reflexivity|].
  intros H. exfalso. apply (H (key_of k r)). now left.
Qed.

(** X10 The merged table of a group is empty, and so left out of the
    export, exactly when no table of the group has a row. *)
Theorem merged_empty_iff (g : list (string * DataFrame)) (wl : string) (T : DataFrame) :
  Forall (fun it => has_one_key (snd it) /\ rectangular (snd it)) g ->
  combine_group g wl = Ok (Some T) ->
  empty T = true <-> forall it, In it g -> rows (snd it) = [].
Proof.
  intros Hwf HT. apply combine_group_inv in HT.
  destruct HT as (J & HJ & Hone & _ & ->).
  pose proof (join_loop_invariant g J Hwf HJ Hone) as (_ & _ & _ & Hkeys & _).
  set (k := key_position J) in *.
  assert (empty (mkDF (columns J) (sort_by (row_leb k) (drop_duplicates k (rows J)))) = true
          <-> sort_by (row_leb k) (drop_duplicates k (rows J)) = []) as ->.
  { unfold empty. cbn [columns rows]. unfold has_one_key in Hone.
    destruct (columns J) as [|c cs]; [cbn in Hone; lia|].
    destruct (sort_by _ _); split; congruence. }
  rewrite (key_column_nil_iff k). split.
  - intros Hnone it Hit. apply (key_column_nil_iff (key_position (snd it))).
    intros c Hc. apply (Hnone c). rewrite sort_dedup_keys.
    apply (proj2 (Hkeys c)). now exists it.
  - intros Hall c Hc. rewrite sort_dedup_keys in Hc. apply (proj1 (Hkeys c)) in Hc.
    destruct Hc as [it [Hit Hc]]. unfold table_keys in Hc.
    rewrite (Hall it Hit) in Hc. destruct Hc.
Qed.

Lemma merged_empty_iff_example :
  combine_group blank_group "488"
  = Ok (Some (mkDF ["power_percentage_values"; "07-25_power"; "07-25_error";
                    "08-10_power"; "08-10_error"] []))
  /\ (empty (mkDF ["power_percentage_values"; "07-25_power"; "07-25_error";
                   "08-10_power"; "08-10_error"] []) = true
      <-> forall it, In it blank_group -> rows (snd it) = []).
Proof.
  split; [reflexivity|].
  apply (merged_empty_iff blank_group "488"); [well_formed_group|reflexivity].
Defined.

(* ================================================================== *)
(** * More on the plot *)

Lemma for_each_In {A B : Type} (f : A -> result B) (l : list A) (l' : list B) :
  for_each f l = Ok l' ->
  forall b, In b l' -> exists a, In a l /\ f a = Ok b.
Proof.
  revert l'. induction l as [|x l IH]; intros l'; cbn [for_each].
  - intros H. injection H as <-. intros b [].
  - destruct (f x) as [y|] eqn:Fx; cbn [bind]; [|discriminate].
    destruct (for_each f l) as [ys|]; cbn [bind]; [|discriminate].
    intros H. injection H as <-. intros b [<-|Hb].
    + exists x. split; [now left|exact Fx].
    + destruct (IH ys eq_refl b Hb) as [a [Ha Hfa]]. exists a. split; [now right|exact Hfa].
Qed.

Lemma first_column_spec (month tag : string) (cols : list string) (c : string) :
  first_column month tag cols = Ok c ->
  In c cols /\ Py.startswith c month = true /\ Py.contains tag c = true.
Proof.
  unfold first_column.
  destruct (filter _ cols) as [|x xs] eqn:F; [discriminate|].
  intros H. injection H as <-.
  assert (In x (filter (fun c => Py.startswith c month && Py.contains tag c) cols)) as Hin
      by (rewrite F; now left).
  apply filter_In in Hin. destruct Hin as [Hin Hb]. apply andb_true_iff in Hb. tauto.
Qed.

Lemma draw_series_spec (df : DataFrame) (month : string) (s : series) :
  draw_series df month = Ok s ->
  series_label s = month
  /\ In key_name (columns df)
  /\ In (power_col s) (columns df)
  /\ Py.startswith (power_col s) month = true
  /\ Py.contains "_power" (power_col s) = true
  /\ In (error_col s) (columns df)
  /\ Py.startswith (error_col s) month = true
  /\ Py.contains "_error" (error_col s) = true
  /\ Forall (fun c => is_txt c = false) (cells_of (error_col s) df)
  /\ Forall (fun c => is_txt c = false) (cells_of (power_col s) df).
Proof.
  unfold draw_series.
  destruct (first_column month "_power" (columns df)) as [p|] eqn:P; cbn [bind];
    [|discriminate].
  destruct (first_column month "_error" (columns df)) as [e|] eqn:E; cbn [bind];
    [|discriminate].
  destruct (negb (existsb (String.eqb key_name) (columns df))) eqn:K; [discriminate|].
  destruct (existsb is_txt (cells_of e df)) eqn:A; [discriminate|].
  destruct (existsb is_txt (cells_of p df)) eqn:B; [discriminate|].
  intros H. injection H as <-. cbn [series_label power_col error_col].
  apply first_column_spec in P, E. apply negb_false_iff in K.
  apply existsb_exists in K. destruct K as [k [Hk Hkeq]]. apply String.eqb_eq in Hkeq.
  subst k.
  assert (forall l, existsb is_txt l = false -> Forall (fun c => is_txt c = false) l)
    as Hnone.
  { intros l Hl. apply Forall_forall. intros c Hc.
    destruct (is_txt c) eqn:Q; [|reflexivity].
    assert (existsb is_txt l = true) as Hex by (apply existsb_exists; eauto).
    congruence. }
  repeat split; try tauto; now apply Hnone.
Qed.

(** X11 In a chart the plot saved, every series reads columns of the
    table: a power column and an error column that both start with the
    series label and hold [_power] and [_error], neither of them with
    any text in it; the table has the key column if there is a series
    at all, and the file is [laser_power_<wl>nm.png]. *)
Theorem series_read_table_columns (wl : string) (d : DataFrame) (c : chart) :
  plot_one wl (Some d) = Ok c ->
  chart_file c = ("laser_power_" ++ wl ++ "nm.png")%string
  /\ forall s, In s (chart_series c) ->
               In key_name (columns d)
               /\ In (power_col s) (columns d)
               /\ Py.startswith (power_col s) (series_label s) = true
               /\ Py.contains "_power" (power_col s) = true
               /\ In (error_col s) (columns d)
               /\ Py.startswith (error_col s) (series_label s) = true
               /\ Py.contains "_error" (error_col s) = true
               /\ Forall (fun x => is_txt x = false) (cells_of (error_col s) d)
               /\ Forall (fun x => is_txt x = false) (cells_of (power_col s) d).
Proof.
  unfold plot_one.
  destruct (month_map_loop (columns d) []) as [mm|]; cbn [bind]; [|discriminate].
  destruct (for_each (draw_series d) _) as [drawn|] eqn:F; cbn [bind]; [|discriminate].
  intros H. injection H as <-. cbn [chart_file chart_series]. split; [reflexivity|].
  intros s Hs. destruct (for_each_In _ _ _ F s Hs) as [month [_ Hd]].
  apply draw_series_spec in Hd. destruct Hd as (-> & Hd). exact Hd.
Qed.

Lemma series_read_table_columns_example :
  exists c,
    plot_one "488" (Some example_merged) = Ok c
    /\ chart_file c = "laser_power_488nm.png"
    /\ forall s, In s (chart_series c) ->
                 In key_name (columns example_merged)
                 /\ In (power_col s) (columns example_merged)
                 /\ Py.startswith (power_col s) (series_label s) = true
                 /\ Py.contains "_power" (power_col s) = true
                 /\ In (error_col s) (columns example_merged)
                 /\ Py.startswith (error_col s) (series_label s) = true
                 /\ Py.contains "_error" (error_col s) = true
                 /\ Forall (fun x => is_txt x = false) (cells_of (error_col s) example_merged)
                 /\ Forall (fun x => is_txt x = false) (cells_of (power_col s) example_merged).
Proof.
  eexists. split; [reflexivity|].
  apply (series_read_table_columns "488" example_merged). reflexivity.
Defined.

Lemma dict_set_In {V : Type} (k : string) (v : V) (d : dict V) (k' : string) (v' : V) :
  In (k', v') (dict_set k v d) -> (k' = k /\ v' = v) \/ In (k', v') d.
Proof.
  induction d as [|[k0 v0] d IH]; cbn [dict_set In].
  - intros [H|[]]. injection H as <- <-. now left.
  - destruct (String.eqb_spec k0 k) as [->|Hne]; cbn [In].
    + intros [H|H]; [injection H as <- <-; now left|right; now right].
    + intros [H|H]; [right; now left|]. destruct (IH H) as [Heq|Hin]; [now left|right; now right].
Qed.

Lemma month_map_loop_spec (cols : list string) :
  forall acc mm,
    month_map_loop cols acc = Ok mm ->
    NoDup (dict_keys acc) ->
    (forall m z, In (m, z) acc -> Py.int (Py.split_head "-" m) = Ok z) ->
    NoDup (dict_keys mm)
    /\ (forall m z, In (m, z) mm -> Py.int (Py.split_head "-" m) = Ok z)
    /\ (forall m, In m (dict_keys mm) <->
                  In m (dict_keys acc) \/ exists col, In col cols /\ power_label col m).
Proof.
  induction cols as [|col rest IH]; intros acc mm; cbn [month_map_loop].
  - intros H Hnd Hval. injection H as <-. repeat split; auto.
    intros [H|[col [[] _]]]. exact H.
  - assert (forall m, (In m (dict_keys acc) \/ exists c, In c rest /\ power_label c m)
                      -> In m (dict_keys acc)
                         \/ exists c, (col = c \/ In c rest) /\ power_label c m) as Hweak.
    { intros m [H|[c [Hc Hp]]]; [now left|right]. exists c. tauto. }
    destruct (String.eqb_spec col key_name) as [Hk|Hk].
    + intros H Hnd Hval. destruct (IH acc mm H Hnd Hval) as (H1 & H2 & H3).
      repeat split; auto.
      * intros Hm. apply Hweak. now apply H3.
      * intros [Hm|[c [[<-|Hc] Hp]]]; apply H3; [now left| |right; eauto].
        destruct Hp as [Hne _]. contradiction.
    + destruct (Py.contains "_power" col) eqn:Hpow.
      * destruct (Py.int (Py.split_head "-" (Py.split_head "_" col))) as [z|] eqn:Hz;
          cbn [bind]; [|discriminate].
        intros H Hnd Hval.
        destruct (IH _ mm H (dict_set_keys_NoDup _ z acc Hnd)) as (H1 & H2 & H3).
        { intros m z' Hin. apply dict_set_In in Hin.
          destruct Hin as [[-> ->]|Hin]; [exact Hz|now apply Hval]. }
        repeat split; auto.
        -- intros Hm. apply H3 in Hm. destruct Hm as [Hm|Hm]; [|now apply Hweak; right].
           apply dict_set_keys_In in Hm. destruct Hm as [->|Hm]; [right|now left].
           exists col. split; [now left|]. repeat split; auto.
        -- intros [Hm|[c [[<-|Hc] Hp]]]; apply H3.
           ++ left. apply dict_set_keys_In. now right.
           ++ left. apply dict_set_keys_In. left. now destruct Hp as (_ & _ & ->).
           ++ right. eauto.
      * intros H Hnd Hval. destruct (IH acc mm H Hnd Hval) as (H1 & H2 & H3).
        repeat split; auto.
        -- intros Hm. apply Hweak. now apply H3.
        -- intros [Hm|[c [[<-|Hc] Hp]]]; apply H3; [now left| |right; eauto].
           destruct Hp as (_ & Hp & _). congruence.
Qed.

Lemma month_leb_total (a b : string * Z) :
  Z.leb (snd a) (snd b) = true \/ Z.leb (snd b) (snd a) = true.
Proof.
  destruct (Z.leb_spec (snd a) (snd b)); [now left|right]. apply Z.leb_le. lia.
Qed.

Lemma month_leb_trans (a b c : string * Z) :
  Z.leb (snd a) (snd b) = true -> Z.leb (snd b) (snd c) = true ->
  Z.leb (snd a) (snd c) = true.
Proof. rewrite !Z.leb_le. lia. Qed.

Lemma for_each_labels (df : DataFrame) (months : list string) (drawn : list series) :
  for_each (draw_series df) months = Ok drawn ->
  map series_label drawn = months.
Proof.
  revert drawn. induction months as [|m ms IH]; intros drawn; cbn [for_each].
  - intros H. injection H as <-. reflexivity.
  - destruct (draw_series df m) as [s|] eqn:D; cbn [bind]; [|discriminate].
    destruct (for_each (draw_series df) ms) as [ss|]; cbn [bind]; [|discriminate].
    intros H. injection H as <-. cbn [map]. apply draw_series_spec in D.
    destruct D as [-> _]. f_equal. now apply IH.
Qed.

Lemma StronglySorted_map_in {A B : Type} (R : A -> A -> Prop) (S : B -> B -> Prop)
      (f : A -> B) (l : list A) :
  StronglySorted R l ->
  (forall a b, In a l -> In b l -> R a b -> S (f a) (f b)) ->
  StronglySorted S (map f l).
Proof.
  induction 1 as [|a l Hl IH Ha]; intros Hf; cbn [map]; constructor.
  - apply IH. intros x y Hx Hy. apply Hf; now right.
  - rewrite Forall_map. rewrite Forall_forall in Ha |- *. intros x Hx.
    apply Hf; [now left|now right|now apply Ha].
Qed.

(** X12 The series of a chart come one per label found before the first
    underscore of a column that holds [_power], no label twice, in
    ascending order of the number before the label's first hyphen. *)
Theorem series_in_month_order (wl : string) (d : DataFrame) (c : chart) :
  plot_one wl (Some d) = Ok c ->
  NoDup (map series_label (chart_series c))
  /\ StronglySorted (fun a b => (month_value a <= month_value b)%Z)
                    (map series_label (chart_series c))
  /\ (forall label, In label (map series_label (chart_series c)) <->
                    exists col, In col (columns d) /\ power_label col label).
Proof.
  unfold plot_one.
  destruct (month_map_loop (columns d) []) as [mm|] eqn:M; cbn [bind]; [|discriminate].
  destruct (for_each (draw_series d) _) as [drawn|] eqn:F; cbn [bind]; [|discriminate].
  intros H. injection H as <-. cbn [chart_series].
  rewrite (for_each_labels _ _ _ F).
  destruct (month_map_loop_spec (columns d) [] mm M) as (Hnd & Hval & Hkeys);
    [constructor|intros ? ? []|].
  set (leb := fun a b : string * Z => Z.leb (snd a) (snd b)) in *.
  split; [|split].
  - apply sort_by_map_NoDup. exact Hnd.
  - pose proof (sort_by_sorted leb month_leb_total month_leb_trans mm) as Hs.
    assert (forall p, In p (sort_by leb mm) -> month_value (fst p) = snd p) as Hmv.
    { intros [m z] Hp. rewrite sort_by_In in Hp. unfold month_value. cbn [fst snd].
      now rewrite (Hval m z Hp). }
    apply (StronglySorted_map_in _ _ fst _ Hs).
    intros p q Hp Hq Hle. unfold leb in Hle. apply Z.leb_le in Hle.
    now rewrite (Hmv p Hp), (Hmv q Hq).
  - intros label.
    assert (In label (map fst (sort_by leb mm)) <-> In label (dict_keys mm)) as ->.
    { unfold dict_keys. rewrite !in_map_iff. split; intros [p [Hp Hin]]; exists p;
        (split; [exact Hp|]); now rewrite sort_by_In in *. }
    rewrite (Hkeys label). split; [|intros H; now right].
    intros [[]|H]. exact H.
Qed.

Lemma series_in_month_order_example :
  exists c,
    plot_one "532" (Some example_merged) = Ok c
    /\ map series_label (chart_series c) = ["07-25"; "08-10"]
    /\ NoDup (map series_label (chart_series c))
    /\ StronglySorted (fun a b => (month_value a <= month_value b)%Z)
                      (map series_label (chart_series c))
    /\ (forall label, In label (map series_label (chart_series c)) <->
                      exists col, In col (columns example_merged) /\ power_label col label).
Proof.
  eexists. split; [reflexivity|]. split; [reflexivity|].
  apply (series_in_month_order "532" example_merged). reflexivity.
Defined.

Lemma plot_one_wl (wl : string) (df : option DataFrame) (c : chart) :
  plot_one wl df = Ok c -> chart_wl c = wl /\ chart_file c = plot_file wl.
Proof.
  unfold plot_one. destruct df as [d|]; [|discriminate].
  destruct (month_map_loop _ _); cbn [bind]; [|discriminate].
  destruct (for_each _ _); cbn [bind]; [|discriminate].
  intros H. injection H as <-. auto.
Qed.

(** X13 The plot stage saves one chart per group, in the order of the
    mapping and whatever the table holds, up to the first group at
    which an exception is raised; the charts saved before stay saved.
    Without an exception every group of the mapping has its chart. *)
Theorem charts_follow_groups (combined_all : dict (option DataFrame))
        (charts : list chart) (raised : option exn) :
  plot_wavelength_data combined_all = (charts, raised) ->
  exists done todo,
    combined_all = done ++ todo
    /\ map chart_wl charts = dict_keys done
    /\ map chart_file charts = map plot_file (dict_keys done)
    /\ match raised with
       | None => todo = []
       | Some e => exists wl df rest,
                     todo = (wl, df) :: rest /\ plot_one wl df = Raise e
       end.
Proof.
  revert charts raised.
  induction combined_all as [|[wl df] ca IH]; intros charts raised;
    cbn [plot_wavelength_data].
  - intros H. injection H as <- <-. exists [], []. repeat split.
  - destruct (plot_one wl df) as [c|e] eqn:P.
    + destruct (plot_wavelength_data ca) as [cs r] eqn:R.
      intros H. injection H as <- <-.
      destruct (IH cs r eq_refl) as (done & todo & Hca & Hwl & Hfile & Hr).
      apply plot_one_wl in P. destruct P as [Pw Pf].
      exists ((wl, df) :: done), todo. cbn [app map dict_keys fst].
      unfold dict_keys in *. rewrite Hca, Pw, Pf, Hwl, Hfile. repeat split. exact Hr.
    + intros H. injection H as <- <-. exists [], ((wl, df) :: ca).
      repeat split. exists wl, df, ca. split; [reflexivity|exact P].
Qed.

Lemma charts_follow_groups_example :
  exists done todo,
    example_combined = done ++ todo
    /\ map chart_wl
           [mkChart "532" "laser_power_532nm.png" "Laser Power Calibration - 532nm"
                    [mkSeries "07-25" "07-25_power" "07-25_error";
                     mkSeries "08-10" "08-10_power" "08-10_error"];
            mkChart "488" "laser_power_488nm.png" "Laser Power Calibration - 488nm"
                    [mkSeries "07-25" "07-25_power" "07-25_error"]]
       = dict_keys done
    /\ map chart_file
           [mkChart "532" "laser_power_532nm.png" "Laser Power Calibration - 532nm"
                    [mkSeries "07-25" "07-25_power" "07-25_error";
                     mkSeries "08-10" "08-10_power" "08-10_error"];
            mkChart "488" "laser_power_488nm.png" "Laser Power Calibration - 488nm"
                    [mkSeries "07-25" "07-25_power" "07-25_error"]]
       = map plot_file (dict_keys done)
    /\ exists wl df rest,
         todo = (wl, df) :: rest /\ plot_one wl df = Raise NoneAttributeError.
Proof.
  apply (charts_follow_groups example_combined _ (Some NoneAttributeError)).
  reflexivity.
Defined.

(** X14 A group without a table stops the plot stage: with such a group
    in the mapping [plot_wavelength_data] raises, at that group or at
    one before it. *)
Theorem absent_table_stops_plot (combined_all : dict (option DataFrame)) (wl : string) :
  In (wl, None) combined_all ->
  exists e, snd (plot_wavelength_data combined_all) = Some e.
Proof.
  induction combined_all as [|[w df] ca IH]; [intros []|].
  cbn [plot_wavelength_data]. intros [H|H].
  - injection H as -> ->. cbn. eauto.
  - destruct (plot_one w df) as [c|e]; [|cbn; eauto].
    destruct (plot_wavelength_data ca) as [cs r]. cbn [snd] in *. now apply IH.
Qed.

Lemma absent_table_stops_plot_example :
  exists e, snd (plot_wavelength_data example_combined) = Some e.
Proof.
  apply (absent_table_stops_plot example_combined "1064").
  right. right. left. reflexivity.
Defined.

(* ================================================================== *)
(** * More on the main workflow *)

(** X15 One file the extractor fails on aborts the whole run, whatever
    its name and whatever the other files hold: the run raises the
    failure of the first such file and writes nothing. *)
Theorem parse_failure_aborts (to_number : string -> option (option Z))
        (has_openpyxl : bool) (pre : list (string * list string))
        (fname : string) (lines : list string) (post : list (string * list string))
        (e : exn) :
  Forall (fun f => parses to_number (snd f)) pre ->
  read_power_instruction_table to_number lines = Raise e ->
  main to_number has_openpyxl (pre ++ (fname, lines) :: post)
  = mkRun [] [] [] [] (Some e).
Proof.
  intros Hpre Hr. rewrite main_nonempty by (destruct pre; discriminate).
  unfold combined_of.
  rewrite (load_all_raise to_number fname pre lines post e Hpre Hr). reflexivity.
Qed.

Lemma parse_failure_aborts_example :
  main int_literal true
       ([("07-25_scan_532.csv", example_log ["10;5;1"])]
          ++ ("08-10_scan_532.csv", ["no table here"]) :: example_files)
  = mkRun [] [] [] [] (Some MarkerNotFound).
Proof.
  apply (parse_failure_aborts int_literal true
           [("07-25_scan_532.csv", example_log ["10;5;1"])]
           "08-10_scan_532.csv" ["no table here"] example_files MarkerNotFound).
  - repeat constructor. eexists. reflexivity.
  - reflexivity.
Defined.




Lemma export_results_mode (b : bool) (ca : dict (option DataFrame)) (out : export_out) :
  export_results b ca = Ok out ->
  if b then csv_files out = [] else sheets out = [].
Proof.
  unfold export_results. destruct b.
  - destruct ca as [|entry rest]; [intros H; injection H as <-; reflexivity|].
    destruct (sorted_by_int _); cbn [bind]; [|discriminate].
    destruct (tables_to_write _ _ _); [discriminate|].
    intros H. injection H as <-. reflexivity.
  - destruct (sorted_by_int _); cbn [bind]; [|discriminate].
    intros H. injection H as <-. reflexivity.
Qed.

(** X17 A run exports one way only: with [openpyxl] it writes no
    delimited file, without it no sheet, whatever the folder holds and
    however the run ends. *)
Theorem one_export_mode (to_number : string -> option (option Z))
        (files : list (string * list string)) :
  run_csv_files (main to_number true files) = []
  /\ run_sheets (main to_number false files) = [].
Proof.
  assert (forall b : bool,
             if b then run_csv_files (main to_number b files) = []
             else run_sheets (main to_number b files) = []) as H.
  { intros b. destruct files as [|f fs]; [destruct b; reflexivity|].
    rewrite main_nonempty by discriminate.
    destruct (combined_of to_number (f :: fs)) as [ca|]; [|destruct b; reflexivity].
    destruct (export_results b ca) as [out|] eqn:E; [|destruct b; reflexivity].
    apply export_results_mode in E.
    destruct (plot_wavelength_data ca) as [charts raised].
    destruct b; exact E. }
  split; [exact (H true)|exact (H false)].
Qed.

Lemma span_digits_app (r : string) :
  (fst (span_digits r) ++ snd (span_digits r))%string = r.
Proof.
  induction r as [|c r IH]; [reflexivity|]. cbn [span_digits].
  destruct (Py.is_digit c); [|reflexivity].
  destruct (span_digits r) as [ds rest]. cbn [fst snd] in *. cbn. now rewrite IH.
Qed.

Lemma span_digits_exact (ds : string) (c : ascii) (rest : string) :
  all_digits ds = true -> Py.is_digit c = false ->
  span_digits (ds ++ String c rest) = (ds, String c rest).
Proof.
  intros Hd Hc. induction ds as [|d ds IH]; cbn [String.append span_digits].
  - now rewrite Hc.
  - cbn [all_digits] in Hd. apply andb_true_iff in Hd. destruct Hd as [Hd Hds].
    rewrite Hd, (IH Hds). reflexivity.
Qed.

Lemma search_wavelength_sound (fname wl : string) :
  search_wavelength fname = Some wl ->
  exists pre post, fname = (pre ++ "_" ++ wl ++ ".csv" ++ post)%string.
Proof.
  induction fname as [|c r IH]; [discriminate|]. cbn [search_wavelength].
  assert (search_wavelength r = Some wl ->
          exists pre post, String c r = (pre ++ "_" ++ wl ++ ".csv" ++ post)%string) as Hrest.
  { intros H. destruct (IH H) as [pre [post ->]]. exists (String c pre), post. reflexivity. }
  destruct (Ascii.eqb_spec c "_") as [->|Hc]; [|exact Hrest].
  pose proof (span_digits_app r) as Happ.
  destruct (span_digits r) as [ds rest]. cbn [fst snd] in Happ.
  destruct (negb (String.eqb ds "") && String.prefix ".csv" rest) eqn:E; [|exact Hrest].
  intros H. injection H as <-. apply andb_true_iff in E. destruct E as [_ E].
  apply prefix_iff in E. destruct E as [post ->].
  exists EmptyString, post. cbn [String.append]. now rewrite <- Happ.
Qed.

Lemma search_wavelength_complete (pre ds post : string) :
  wavelength_key ds ->
  search_wavelength (pre ++ "_" ++ ds ++ ".csv" ++ post) <> None.
Proof.
  intros [Hne Hd]. induction pre as [|c pre IH].
  - cbn [String.append search_wavelength]. rewrite Ascii.eqb_refl.
    change (".csv" ++ post)%string with (String "." ("csv" ++ post)%string).
    rewrite (span_digits_exact ds "." _ Hd eq_refl).
    apply String.eqb_neq in Hne. rewrite Hne.
    assert (String.prefix ".csv" (String "." (String "c" (String "s" (String "v" post))))
            = true) as -> by (apply prefix_iff; exists post; reflexivity).
    cbn [negb andb]. discriminate.
  - cbn [String.append search_wavelength].
    destruct (Ascii.eqb c "_"); [|exact IH].
    destruct (span_digits _) as [ds' rest'].
    destruct (negb (String.eqb ds' "") && String.prefix ".csv" rest'); [discriminate|exact IH].
Qed.

(** X18 [search_wavelength] is the search for [_(\d+)\.csv]: a result is
    a non-empty run of digits standing in the name between an
    underscore and [.csv], and there is no result exactly when the name
    has no such run anywhere. *)
Theorem search_wavelength_spec (fname : string) :
  (forall wl, search_wavelength fname = Some wl ->
              wavelength_key wl
              /\ exists pre post, fname = (pre ++ "_" ++ wl ++ ".csv" ++ post)%string)
  /\ (search_wavelength fname = None <->
      ~ exists pre ds post,
          wavelength_key ds /\ fname = (pre ++ "_" ++ ds ++ ".csv" ++ post)%string).
Proof.
  split; [|split].
  - intros wl H. split; [now apply search_wavelength_key in H|].
    now apply search_wavelength_sound.
  - intros Hnone (pre & ds & post & Hk & ->).
    now apply (search_wavelength_complete pre ds post Hk).
  - intros Hno. destruct (search_wavelength fname) as [wl|] eqn:E; [|reflexivity].
    exfalso. apply Hno. destruct (search_wavelength_sound _ _ E) as [pre [post Hf]].
    exists pre, wl, post. split; [now apply search_wavelength_key in E|exact Hf].
Qed.

Lemma dict_get_dict_set {V : Type} (k q : string) (v : V) (d : dict V) :
  dict_get q (dict_set k v d) = if String.eqb k q then Some v else dict_get q d.
Proof.
  induction d as [|[k0 v0] d IH]; cbn [dict_set dict_get].
  - reflexivity.
  - destruct (String.eqb_spec k0 k) as [->|Hne]; cbn [dict_get].
    + destruct (String.eqb k q); reflexivity.
    + rewrite IH. destruct (String.eqb_spec k0 q) as [->|Hq]; [|reflexivity].
      destruct (String.eqb_spec k q); [congruence|reflexivity].
Qed.

Lemma dict_set_append {V : Type} (k : string) (v : V) (d : dict V) :
  ~ In k (dict_keys d) -> dict_set k v d = d ++ [(k, v)].
Proof.
  induction d as [|[k0 v0] d IH]; cbn [dict_set dict_keys map fst In app]; [reflexivity|].
  intros H. destruct (String.eqb_spec k0 k) as [->|Hne]; [tauto|].
  f_equal. apply IH. unfold dict_keys. tauto.
Qed.

Lemma group_loop_get (dfs : dict DataFrame) :
  forall grouped,
    NoDup (dict_keys dfs) ->
    (forall w inner n, dict_get w grouped = Some inner ->
                       In n (dict_keys inner) -> ~ In n (dict_keys dfs)) ->
    forall wl,
      dict_get wl (group_loop dfs grouped)
      = match dict_get wl grouped with
        | Some inner => Some (inner ++ filter (fun e => carries wl (fst e)) dfs)
        | None => match filter (fun e => carries wl (fst e)) dfs with
                  | [] => None
                  | l => Some l
                  end
        end.
Proof.
  induction dfs as [|[n df] rest IH]; intros grouped Hnd Hfresh wl.
  - cbn [group_loop filter]. destruct (dict_get wl grouped); [|reflexivity].
    now rewrite app_nil_r.
  - unfold dict_keys in Hnd. cbn [map fst] in Hnd.
    inversion Hnd as [|? ? Hn Hrest]; subst. fold (dict_keys rest) in Hn, Hrest.
    assert (forall w inner m, dict_get w grouped = Some inner ->
                              In m (dict_keys inner) -> ~ In m (dict_keys rest)) as Hfresh'.
    { intros w inner m Hg Hm Hin. apply (Hfresh w inner m Hg Hm).
      unfold dict_keys. cbn [map fst]. now right. }
    cbn [group_loop filter fst].
    assert (carries wl n = match search_wavelength n with
                           | Some w => String.eqb w wl
                           | None => false
                           end) as -> by reflexivity.
    destruct (search_wavelength n) as [w|] eqn:E; [|now apply IH].
    rewrite IH; [|exact Hrest|].
    + unfold group_add.
      destruct (String.eqb_spec w wl) as [->|Hw].
      * destruct (dict_get wl grouped) as [inner|] eqn:G;
          rewrite dict_get_dict_set, String.eqb_refl.
        -- rewrite dict_set_append.
           ++ now rewrite <- app_assoc.
           ++ intros Hin. apply (Hfresh wl inner n G Hin).
              unfold dict_keys. cbn [map fst]. now left.
        -- reflexivity.
      * assert (dict_get wl (match dict_get w grouped with
                             | Some inner => dict_set w (dict_set n df inner) grouped
                             | None => dict_set w [(n, df)] grouped
                             end) = dict_get wl grouped) as ->; [|reflexivity].
        destruct (dict_get w grouped); rewrite dict_get_dict_set;
          (destruct (String.eqb_spec w wl); [contradiction|reflexivity]).
    + intros w' inner' m Hg Hm. unfold group_add in Hg.
      destruct (dict_get w grouped) as [inner|] eqn:G;
        rewrite dict_get_dict_set in Hg;
        destruct (String.eqb_spec w w') as [->|Hw'].
      * injection Hg as <-. apply dict_set_keys_In in Hm. destruct Hm as [->|Hm];
          [exact Hn|now apply (Hfresh' w' inner m G)].
      * now apply (Hfresh' w' inner' m Hg).
      * injection Hg as <-. destruct Hm as [<-|[]]. exact Hn.
      * now apply (Hfresh' w' inner' m Hg).
Qed.

(** X19 Grouping sends every table to the group of the wavelength its
    file name carries and to no other: the group of [wl] holds the
    tables of the files that carry [wl], under their names and in the
    order of the folder, and a wavelength no file carries has no group;
    a file without a wavelength is in no group. *)
Theorem groups_by_wavelength (dfs : dict DataFrame) (wl : string) :
  NoDup (dict_keys dfs) ->
  dict_get wl (group_loop dfs [])
  = match filter (fun e => carries wl (fst e)) dfs with
    | [] => None
    | l => Some l
    end.
Proof.
  intros Hnd. rewrite (group_loop_get dfs [] Hnd); [reflexivity|].
  intros w inner n H. discriminate H.
Qed.

Lemma groups_by_wavelength_example :
  dict_get "488" (group_loop
                    [("07-25_scan_488.csv", example_merged);
                     ("07-25_scan_532.csv", repeated_merged);
                     ("notes.csv", repeated_merged);
                     ("08-10_scan_488.csv", repeated_merged)] [])
  = Some [("07-25_scan_488.csv", example_merged);
          ("08-10_scan_488.csv", repeated_merged)].
Proof.
  apply (groups_by_wavelength
           [("07-25_scan_488.csv", example_merged);
            ("07-25_scan_532.csv", repeated_merged);
            ("notes.csv", repeated_merged);
            ("08-10_scan_488.csv", repeated_merged)] "488").
  distinct_keys.
Defined.

Lemma dict_get_Some_iff {V : Type} (k : string) (d : dict V) :
  In k (dict_keys d) <-> exists v, dict_get k d = Some v.
Proof.
  split; [|intros [v H]; now apply dict_get_In_keys in H].
  induction d as [|[k0 v0] d IH]; cbn [dict_keys map fst In dict_get]; [intros []|].
  destruct (String.eqb_spec k0 k) as [->|Hne]; [eauto|].
  intros [H|H]; [contradiction|]. now apply IH.
Qed.

Lemma load_all_keys to_number (files : list (string * list string)) :
  forall acc dfs,
    load_all to_number files acc = Ok dfs ->
    NoDup (dict_keys acc) ->
    NoDup (dict_keys dfs)
    /\ forall n, In n (dict_keys dfs) <-> In n (dict_keys acc) \/ In n (map fst files).
Proof.
  induction files as [|[n lines] rest IH]; intros acc dfs; cbn [load_all].
  - intros H Hnd. injection H as <-. split; [exact Hnd|]. intros n. cbn. tauto.
  - destruct (read_power_instruction_table to_number lines) as [df|]; cbn [bind];
      [|discriminate].
    intros H Hnd.
    destruct (IH _ dfs H (dict_set_keys_NoDup n df acc Hnd)) as [H1 H2].
    split; [exact H1|]. intros m. rewrite H2, dict_set_keys_In. cbn [map fst In].
    intuition.
Qed.

Lemma group_keys_iff (dfs : dict DataFrame) (wl : string) :
  NoDup (dict_keys dfs) ->
  In wl (dict_keys (group_loop dfs [])) <->
  exists n, In n (dict_keys dfs) /\ search_wavelength n = Some wl.
Proof.
  intros Hnd. rewrite dict_get_Some_iff.
  rewrite (group_loop_get dfs [] Hnd) by (intros w inner n H; discriminate H).
  cbn [dict_get]. split.
  - intros [v Hv].
    destruct (filter (fun e => carries wl (fst e)) dfs) as [|e l] eqn:F; [discriminate|].
    assert (In e (filter (fun e => carries wl (fst e)) dfs)) as Hin by (rewrite F; now left).
    apply filter_In in Hin. destruct Hin as [Hin Hc]. exists (fst e). split.
    + unfold dict_keys. now apply in_map.
    + unfold carries in Hc. destruct (search_wavelength (fst e)) as [w|]; [|discriminate].
      apply String.eqb_eq in Hc. now subst.
  - intros [n [Hn Hs]]. unfold dict_keys in Hn. apply in_map_iff in Hn.
    destruct Hn as [e [<- He]].
    assert (In e (filter (fun e => carries wl (fst e)) dfs)) as Hin.
    { apply filter_In. split; [exact He|]. unfold carries. rewrite Hs. apply String.eqb_refl. }
    destruct (filter (fun e => carries wl (fst e)) dfs); [destruct Hin|eauto].
Qed.

Lemma plot_wavelength_data_wl (ca : dict (option DataFrame)) :
  (exists rest, dict_keys ca = map chart_wl (fst (plot_wavelength_data ca)) ++ rest)
  /\ (snd (plot_wavelength_data ca) = None ->
      map chart_wl (fst (plot_wavelength_data ca)) = dict_keys ca)
  /\ (forall c, In c (fst (plot_wavelength_data ca)) -> chart_file c = plot_file (chart_wl c)).
Proof.
  induction ca as [|[wl df] ca (IH1 & IH2 & IH3)]; cbn [plot_wavelength_data].
  - cbn. repeat split; eauto. intros c [].
  - destruct (plot_one wl df) as [c|e] eqn:P.
    + destruct (plot_wavelength_data ca) as [cs r]. cbn [fst snd map] in *.
      apply plot_one_wl in P. destruct P as [Pw Pf].
      unfold dict_keys in *. cbn [map fst]. rewrite Pw. split; [|split].
      * destruct IH1 as [rest ->]. exists rest. reflexivity.
      * intros H. now rewrite IH2.
      * intros c' [<-|Hc']; [now rewrite Pw|now apply IH3].
    + cbn [fst snd map app]. split; [eauto|]. split; [discriminate|intros c []].
Qed.

Lemma main_charts to_number b (files : list (string * list string)) :
  files = [] /\ main to_number b files = mkRun [] [] [] [NoCsvFilesFound] None
  \/ (exists e, main to_number b files = aborted e)
  \/ (exists ca, combined_of to_number files = Ok ca
                 /\ run_charts (main to_number b files) = fst (plot_wavelength_data ca)
                 /\ run_raised (main to_number b files) = snd (plot_wavelength_data ca)).
Proof.
  destruct files as [|f fs]; [left; split; reflexivity|right].
  rewrite main_nonempty by discriminate.
  destruct (combined_of to_number (f :: fs)) as [ca|e]; [|left; eauto].
  destruct (export_results b ca) as [out|e]; [|left; eauto].
  right. exists ca. split; [reflexivity|].
  destruct (plot_wavelength_data ca) as [charts raised]. split; reflexivity.
Qed.

Lemma combined_of_keys to_number (files : list (string * list string))
      (ca : dict (option DataFrame)) (wl : string) :
  combined_of to_number files = Ok ca ->
  In wl (dict_keys ca) <->
  exists f, In f files /\ search_wavelength (fst f) = Some wl.
Proof.
  unfold combined_of. destruct (load_all to_number files []) as [dfs|] eqn:L; cbn [bind];
    [|discriminate].
  intros H. apply combine_all_keys in H. rewrite H.
  destruct (load_all_keys to_number files [] dfs L) as [Hnd Hk]; [constructor|].
  rewrite (group_keys_iff dfs wl Hnd). split.
  - intros [n [Hn Hs]]. apply Hk in Hn. destruct Hn as [[]|Hn].
    apply in_map_iff in Hn. destruct Hn as [f [<- Hf]]. eauto.
  - intros [f [Hf Hs]]. exists (fst f). split; [|exact Hs]. apply Hk. right.
    now apply in_map.
Qed.

(** X20 The charts of a run are charts of wavelengths that file names of
    the folder carry, at most one per wavelength, each in
    [laser_power_<wl>nm.png]; and a run that ends without an exception
    has saved a chart for every wavelength a file name carries. *)
Theorem charts_of_carried_wavelengths (to_number : string -> option (option Z))
        (has_openpyxl : bool) (files : list (string * list string)) :
  (forall c, In c (run_charts (main to_number has_openpyxl files)) ->
             chart_file c = plot_file (chart_wl c)
             /\ exists f, In f files /\ search_wavelength (fst f) = Some (chart_wl c))
  /\ NoDup (map chart_wl (run_charts (main to_number has_openpyxl files)))
  /\ (run_raised (main to_number has_openpyxl files) = None ->
      forall f wl, In f files -> search_wavelength (fst f) = Some wl ->
                   exists c, In c (run_charts (main to_number has_openpyxl files)) /\ chart_wl c = wl).
Proof.
  destruct (main_charts to_number has_openpyxl files)
    as [[-> ->]|[[e ->]|(ca & Hca & -> & ->)]].
  - cbn. split; [intros c []|]. split; [constructor|]. intros _ f wl [].
  - cbn. split; [intros c []|]. split; [constructor|discriminate].
  - destruct (plot_wavelength_data_wl ca) as ([rest Hpre] & Hall & Hfile).
    destruct (main_group_keys to_number files ca Hca) as [Hnd _].
    split; [|split].
    + intros c Hc. split; [now apply Hfile|].
      apply (combined_of_keys to_number files ca (chart_wl c) Hca).
      rewrite Hpre. apply in_or_app. left. now apply in_map.
    + rewrite Hpre in Hnd. now apply NoDup_app_remove_r in Hnd.
    + intros Hnone f wl Hf Hs.
      assert (In wl (dict_keys ca)) as Hin
          by (apply (combined_of_keys to_number files ca wl Hca); eauto).
      rewrite <- (Hall Hnone) in Hin. apply in_map_iff in Hin.
      destruct Hin as [c [Hc Hin]]. eauto.
Qed.

Lemma not_in_saved (m : message) (names : list string) (charts : list chart) :
  (forall n, m <> SavedCsv n) -> (forall wl f, m <> SavedPlot wl f) ->
  ~ In m (map SavedCsv names ++ map (fun c => SavedPlot (chart_wl c) (chart_file c)) charts).
Proof.
  intros H1 H2 H. apply in_app_or in H. destruct H as [H|H]; apply in_map_iff in H.
  - destruct H as [n [Hn _]]. now apply (H1 n).
  - destruct H as [c [Hc _]]. now apply (H2 (chart_wl c) (chart_file c)).
Qed.

(** X21 [No data found to export] is printed exactly when the workbook
    library is there, the folder has files, every file parses, and no
    file name carries a wavelength. *)
Theorem no_data_notice (to_number : string -> option (option Z))
        (has_openpyxl : bool) (files : list (string * list string)) :
  In NoDataToExport (run_console (main to_number has_openpyxl files))
  <-> has_openpyxl = true
      /\ files <> []
      /\ (exists dfs, load_all to_number files [] = Ok dfs)
      /\ forall f, In f files -> search_wavelength (fst f) = None.
Proof.
  split.
  - destruct files as [|f0 fs].
    { cbn. intros [H|[]]. discriminate H. }
    rewrite main_nonempty by discriminate.
    destruct (combined_of to_number (f0 :: fs)) as [ca|e] eqn:Hca; [|intros []].
    assert (exists dfs, load_all to_number (f0 :: fs) [] = Ok dfs) as Hload.
    { unfold combined_of in Hca.
      destruct (load_all to_number (f0 :: fs) []) as [dfs|]; [eauto|discriminate]. }
    destruct (main_group_keys to_number _ ca Hca) as [Hnd Hk].
    destruct (sorted_by_int_spec (dict_keys ca) Hk) as (order & Hord & _).
    unfold export_results. rewrite Hord. cbn [bind].
    destruct (plot_wavelength_data ca) as [charts raised].
    destruct has_openpyxl.
    + destruct ca as [|g ca'].
      * intros _. split; [reflexivity|]. split; [discriminate|]. split; [exact Hload|].
        intros f Hf. destruct (search_wavelength (fst f)) as [wl|] eqn:S; [|reflexivity].
        assert (In wl (@dict_keys (option DataFrame) [])) as []
            by (apply (combined_of_keys to_number (f0 :: fs) [] wl Hca); eauto).
      * destruct (tables_to_write sheet_name (g :: ca') order); [intros []|].
        cbn [run_console export_console app In]. intros [H|H]; [discriminate H|].
        exfalso. revert H. apply (not_in_saved _ [] charts); discriminate.
    + cbn [run_console export_console app In]. intros [H|H]; [discriminate H|].
      exfalso. revert H.
      rewrite <- (map_map (@fst string DataFrame) SavedCsv).
      apply not_in_saved; discriminate.
  - intros (-> & Hne & [dfs Hload] & Hnone).
    rewrite main_nonempty by exact Hne.
    destruct (load_all_keys to_number files [] dfs Hload) as [Hnd Hk]; [constructor|].
    assert (group_loop dfs [] = []) as Hg.
    { destruct (group_loop dfs []) as [|[wl inner] rest] eqn:G; [reflexivity|].
      assert (In wl (dict_keys (group_loop dfs []))) as Hin by (rewrite G; now left).
      apply (group_keys_iff dfs wl Hnd) in Hin. destruct Hin as [n [Hn Hs]].
      apply Hk in Hn. destruct Hn as [[]|Hn]. apply in_map_iff in Hn.
      destruct Hn as [f [<- Hf]]. rewrite (Hnone f Hf) in Hs. discriminate Hs. }
    unfold combined_of. rewrite Hload. cbn [bind]. rewrite Hg. cbn. now left.
Qed.

(** A folder of one file whose name carries no wavelength. *)
Lemma no_data_notice_example :
  In NoDataToExport
     (run_console (main int_literal true [("notes.csv", example_log ["1;2;3"])])).
Proof.
  apply (proj2 (no_data_notice int_literal true [("notes.csv", example_log ["1;2;3"])])).
  split; [reflexivity|]. split; [discriminate|]. split.
  - eexists. reflexivity.
  - intros f [<-|[]]. reflexivity.
Defined.
